(** * d7-celo-rpg: the decision core of the RPG bot

    A shallow embedding of the TypeScript sources of the bot
    (MemoryManager, BattleIntelligence, AIService, the guardrails and the
    turn of BotEngine, BlockchainService) together with the properties the
    design document states about them and further properties of the code.

    Conventions of the embedding.
    - A JavaScript [number] is a value of [JS.Num]: a finite value carried
      by an exact rational, the two infinities, or NaN.  Rounding of
      doubles, overflow to infinity by magnitude and the sign of zero are
      outside the model; division by zero, NaN propagation and comparisons
      with NaN follow IEEE-754 as JavaScript does.
    - Counters kept in a [GameMemory] and the integer literals of CONFIG are
      integers ([Z]).
    - A JavaScript string is a [string] of bytes (UTF-8 for text outside
      ASCII); case mapping is modelled on ASCII letters.
    - Arrays that the program mutates in place live in an explicit heap and
      are read through references, so aliasing is visible.
    - Code that awaits, throws or sleeps runs in a small state-and-exception
      monad over a [World] that records the external calls and the sleeps.
      Console output never influences control flow and is left out. *)

From stdpp Require Import gmap list strings.
From Stdlib Require Import String Ascii ZArith QArith Qround Lia Lqa List DecimalString.
Import ListNotations.

Local Open Scope string_scope.
Local Open Scope list_scope.
Local Open Scope Z_scope.

(* ===================================================================== *)
(** * JavaScript values and built-ins used by the program *)
(* ===================================================================== *)

Module JS.

(** ** Numbers *)

Inductive Num : Type :=
| Fin (q : Q)
| PInf
| NInf
| NaN.

Definition of_Z (z : Z) : Num := Fin (inject_Z z).

Definition neg (a : Num) : Num :=
  match a with
  | Fin q => Fin (- q)%Q
  | PInf => NInf
  | NInf => PInf
  | NaN => NaN
  end.

Definition add (a b : Num) : Num :=
  match a, b with
  | NaN, _ | _, NaN => NaN
  | Fin x, Fin y => Fin (x + y)%Q
  | PInf, NInf | NInf, PInf => NaN
  | PInf, _ | _, PInf => PInf
  | NInf, _ | _, NInf => NInf
  end.

Definition sub (a b : Num) : Num := add a (neg b).

(** Sign of an infinity scaled by a finite factor: zero times infinity is
    NaN. *)
Definition scale_inf (positive : bool) (q : Q) : Num :=
  match (q ?= 0)%Q with
  | Eq => NaN
  | Gt => if positive then PInf else NInf
  | Lt => if positive then NInf else PInf
  end.

Definition mul (a b : Num) : Num :=
  match a, b with
  | NaN, _ | _, NaN => NaN
  | Fin x, Fin y => Fin (x * y)%Q
  | PInf, Fin y | Fin y, PInf => scale_inf true y
  | NInf, Fin y | Fin y, NInf => scale_inf false y
  | PInf, PInf | NInf, NInf => PInf
  | PInf, NInf | NInf, PInf => NInf
  end.

Definition div (a b : Num) : Num :=
  match a, b with
  | NaN, _ | _, NaN => NaN
  | Fin x, Fin y =>
      if Qeq_bool y 0 then
        match (x ?= 0)%Q with
        | Eq => NaN
        | Gt => PInf
        | Lt => NInf
        end
      else Fin (x / y)%Q
  | Fin _, (PInf | NInf) => Fin 0%Q
  | (PInf | NInf), (PInf | NInf) => NaN
  | PInf, Fin y => match (y ?= 0)%Q with Lt => NInf | _ => PInf end
  | NInf, Fin y => match (y ?= 0)%Q with Lt => PInf | _ => NInf end
  end.

(** [a < b]; false as soon as one side is NaN. *)
Definition lt (a b : Num) : bool :=
  match a, b with
  | NaN, _ | _, NaN => false
  | Fin x, Fin y => match (x ?= y)%Q with Lt => true | _ => false end
  | NInf, (Fin _ | PInf) => true
  | Fin _, PInf => true
  | _, _ => false
  end.

Definition gt (a b : Num) : bool := lt b a.

(** [a >= b]; false as soon as one side is NaN. *)
Definition ge (a b : Num) : bool :=
  match a, b with
  | NaN, _ | _, NaN => false
  | _, _ => negb (lt a b)
  end.

(** [a === b] on numbers. *)
Definition strict_eq (a b : Num) : bool :=
  match a, b with
  | Fin x, Fin y => Qeq_bool x y
  | PInf, PInf | NInf, NInf => true
  | _, _ => false
  end.

Definition Math_max (a b : Num) : Num :=
  match a, b with
  | NaN, _ | _, NaN => NaN
  | _, _ => if lt a b then b else a
  end.

Definition Math_min (a b : Num) : Num :=
  match a, b with
  | NaN, _ | _, NaN => NaN
  | _, _ => if lt b a then b else a
  end.

Definition Math_ceil (a : Num) : Num :=
  match a with
  | Fin q => Fin (inject_Z (Qceiling q))
  | other => other
  end.

(** ** Array indexing by a number: [arr[i]] is [undefined] unless [i] is a
    non-negative integer below the length. *)
Definition array_get {A : Type} (arr : list A) (i : Num) : option A :=
  match i with
  | Fin q =>
      if Qeq_bool (inject_Z (Qfloor q)) q && (0 <=? Qfloor q)
      then nth_error arr (Z.to_nat (Qfloor q))
      else None
  | _ => None
  end.

(** ** Strings *)

Definition lower_ascii (c : ascii) : ascii :=
  let n := N_of_ascii c in
  if ((65 <=? n) && (n <=? 90))%N then ascii_of_N (n + 32) else c.

Fixpoint toLowerCase (s : string) : string :=
  match s with
  | EmptyString => EmptyString
  | String c r => String (lower_ascii c) (toLowerCase r)
  end.

(** [hay.includes(needle)] *)
Fixpoint includes (hay needle : string) : bool :=
  if String.prefix needle hay then true
  else match hay with
       | EmptyString => false
       | String _ r => includes r needle
       end.

(** A string is truthy unless it is empty. *)
Definition truthy_string (s : string) : bool :=
  match s with EmptyString => false | _ => true end.

(** ** parseInt(s), radix left out by the callers: leading white space
    (ASCII), a sign, the prefix 0x for radix 16, then the longest run of
    digits; NaN when there is none. *)

Definition is_space (c : ascii) : bool :=
  match N_of_ascii c with
  | 9%N | 10%N | 11%N | 12%N | 13%N | 32%N => true
  | _ => false
  end.

Fixpoint skip_space (s : string) : string :=
  match s with
  | String c r => if is_space c then skip_space r else s
  | EmptyString => s
  end.

Definition digit_value (c : ascii) : option Z :=
  let n := Z.of_N (N_of_ascii c) in
  if (48 <=? n) && (n <=? 57) then Some (n - 48)
  else if (97 <=? n) && (n <=? 122) then Some (n - 87)
  else if (65 <=? n) && (n <=? 90) then Some (n - 55)
  else None.

(** Longest prefix of digits of the radix; [None] when it is empty. *)
Fixpoint parse_digits (radix : Z) (s : string) (acc : option Z) : option Z :=
  match s with
  | EmptyString => acc
  | String c r =>
      match digit_value c with
      | Some d =>
          if d <? radix
          then parse_digits radix r (Some (radix * default 0 acc + d))
          else acc
      | None => acc
      end
  end.

Definition parseInt (s : string) : Num :=
  let s1 := skip_space s in
  let '(sign, s2) :=
    match s1 with
    | String "-" r => (-1, r)
    | String "+" r => (1, r)
    | _ => (1, s1)
    end in
  let '(radix, s3) :=
    match s2 with
    | String "0" (String "x" r) => (16, r)
    | String "0" (String "X" r) => (16, r)
    | _ => (10, s2)
    end in
  match parse_digits radix s3 None with
  | Some n => of_Z (sign * n)
  | None => NaN
  end.

End JS.

(* ===================================================================== *)
(** * JSON.parse *)
(* ===================================================================== *)

Module JSON.

#[local] Set Warnings "-register-all".

Inductive Value : Type :=
| Null
| Bool (b : bool)
| Number (q : Q)
| Str (s : string)
| Arr (elements : list Value)
| Obj (members : list (string * Value)).

Definition is_ws (c : ascii) : bool :=
  match N_of_ascii c with
  | 9%N | 10%N | 13%N | 32%N => true
  | _ => false
  end.

Fixpoint skip_ws (s : string) : string :=
  match s with
  | String c r => if is_ws c then skip_ws r else s
  | EmptyString => s
  end.

Fixpoint strip_prefix (lit s : string) : option string :=
  match lit, s with
  | EmptyString, _ => Some s
  | String a lit', String b s' =>
      if Ascii.eqb a b then strip_prefix lit' s' else None
  | String _ _, EmptyString => None
  end.

(** *** Numbers: an optional minus sign, an integer part without a
    leading zero, an optional fraction, an optional exponent. *)

Definition dec_digit (c : ascii) : option Z :=
  let n := Z.of_N (N_of_ascii c) in
  if (48 <=? n) && (n <=? 57) then Some (n - 48) else None.

(** Reads decimal digits: the value read, how many, and the rest. *)
Fixpoint read_digits (s : string) (acc : Z) (count : nat) : Z * nat * string :=
  match s with
  | String c r =>
      match dec_digit c with
      | Some d => read_digits r (10 * acc + d) (S count)
      | None => (acc, count, s)
      end
  | EmptyString => (acc, count, s)
  end.

Definition read_int_part (s : string) : option (Z * string) :=
  match s with
  | String "0" r => Some (0, r)
  | _ =>
      match read_digits s 0 0%nat with
      | (_, O, _) => None
      | (n, _, r) => Some (n, r)
      end
  end.

Definition read_fraction (s : string) : option (Q * string) :=
  match s with
  | String "." r =>
      match read_digits r 0 0%nat with
      | (_, O, _) => None
      | (n, k, r') => Some ((inject_Z n / inject_Z (10 ^ Z.of_nat k))%Q, r')
      end
  | _ => Some (0%Q, s)
  end.

Definition read_exponent (s : string) : option (Z * string) :=
  let digits (sign : Z) (r : string) :=
    match read_digits r 0 0%nat with
    | (_, O, _) => None
    | (n, _, r') => Some (sign * n, r')
    end in
  let signed (r : string) :=
    match r with
    | String "-" r' => digits (-1) r'
    | String "+" r' => digits 1 r'
    | _ => digits 1 r
    end in
  match s with
  | String "e" r => signed r
  | String "E" r => signed r
  | _ => Some (0, s)
  end.

Definition parse_number (s : string) : option (Q * string) :=
  let '(sign, s1) :=
    match s with
    | String "-" r => ((-1)%Q, r)
    | _ => (1%Q, s)
    end in
  match read_int_part s1 with
  | None => None
  | Some (i, s2) =>
      match read_fraction s2 with
      | None => None
      | Some (f, s3) =>
          match read_exponent s3 with
          | None => None
          | Some (e, s4) =>
              Some ((sign * (inject_Z i + f) * Qpower (inject_Z 10) e)%Q, s4)
          end
      end
  end.

(** *** Strings *)

Definition hex_digit (c : ascii) : option Z :=
  match JS.digit_value c with
  | Some d => if d <? 16 then Some d else None
  | None => None
  end.

Definition hex4 (a b c d : ascii) : option Z :=
  match hex_digit a, hex_digit b, hex_digit c, hex_digit d with
  | Some x, Some y, Some z, Some w => Some (((x * 16 + y) * 16 + z) * 16 + w)
  | _, _, _, _ => None
  end.

Definition byte (n : Z) : ascii := ascii_of_N (Z.to_N n).

(** The double quote. *)
Definition dquote : ascii := byte 34.

(** UTF-8 bytes of a code point, put in front of [k]. *)
Definition utf8 (cp : Z) (k : string) : string :=
  if cp <? 128 then String (byte cp) k
  else if cp <? 2048 then
    String (byte (192 + cp / 64)) (String (byte (128 + cp mod 64)) k)
  else if cp <? 65536 then
    String (byte (224 + cp / 4096))
      (String (byte (128 + (cp / 64) mod 64))
         (String (byte (128 + cp mod 64)) k))
  else
    String (byte (240 + cp / 262144))
      (String (byte (128 + (cp / 4096) mod 64))
         (String (byte (128 + (cp / 64) mod 64))
            (String (byte (128 + cp mod 64)) k))).

Definition is_high_surrogate (n : Z) : bool := (55296 <=? n) && (n <? 56320).
Definition is_low_surrogate (n : Z) : bool := (56320 <=? n) && (n <? 57344).

Definition map_fst {A B C : Type} (f : A -> C) (r : option (A * B)) : option (C * B) :=
  match r with
  | Some (a, b) => Some (f a, b)
  | None => None
  end.

(** The characters of a string literal after its opening quote, up to and
    including the closing quote. *)
Fixpoint parse_chars (s : string) : option (string * string) :=
  match s with
  | EmptyString => None
  | String c r =>
      if Ascii.eqb c dquote then Some (EmptyString, r)
      else if Ascii.eqb c "\" then
        match r with
        | String e r1 =>
            let simple (n : Z) := map_fst (String (byte n)) (parse_chars r1) in
            if Ascii.eqb e dquote then simple 34
            else if Ascii.eqb e "\" then simple 92
            else if Ascii.eqb e "/" then simple 47
            else if Ascii.eqb e "b" then simple 8
            else if Ascii.eqb e "f" then simple 12
            else if Ascii.eqb e "n" then simple 10
            else if Ascii.eqb e "r" then simple 13
            else if Ascii.eqb e "t" then simple 9
            else if Ascii.eqb e "u" then
              match r1 with
              | String h1 (String h2 (String h3 (String h4 r5))) =>
                  match hex4 h1 h2 h3 h4 with
                  | None => None
                  | Some hi =>
                      let alone := map_fst (utf8 hi) (parse_chars r5) in
                      if is_high_surrogate hi then
                        match r5 with
                        | String b0 (String u0
                            (String l1 (String l2 (String l3 (String l4 r11))))) =>
                            if Ascii.eqb b0 "\" && Ascii.eqb u0 "u" then
                              match hex4 l1 l2 l3 l4 with
                              | Some lo =>
                                  if is_low_surrogate lo then
                                    map_fst
                                      (utf8 (65536 + (hi - 55296) * 1024 + (lo - 56320)))
                                      (parse_chars r11)
                                  else alone
                              | None => alone
                              end
                            else alone
                        | _ => alone
                        end
                      else alone
                  end
              | _ => None
              end
            else None
        | EmptyString => None
        end
      else if (N_of_ascii c <? 32)%N then None
      else map_fst (String c) (parse_chars r)
  end.

(** *** Values.  Every recursive call follows the consumption of at least
    one character or is the first one made on a value, so twice the length
    of the text is fuel enough. *)

Fixpoint parse_value (fuel : nat) (s : string) : option (Value * string) :=
  match fuel with
  | O => None
  | S f =>
      match skip_ws s with
      | String "{" r =>
          match skip_ws r with
          | String "}" r' => Some (Obj [], r')
          | r1 => parse_members f r1 []
          end
      | String "[" r =>
          match skip_ws r with
          | String "]" r' => Some (Arr [], r')
          | r1 => parse_elements f r1 []
          end
      | String "t" _ as s1 => option_map (pair (Bool true)) (strip_prefix "true" s1)
      | String "f" _ as s1 => option_map (pair (Bool false)) (strip_prefix "false" s1)
      | String "n" _ as s1 => option_map (pair Null) (strip_prefix "null" s1)
      | String c r as s1 =>
          if Ascii.eqb c dquote then map_fst Str (parse_chars r)
          else map_fst Number (parse_number s1)
      | EmptyString => None
      end
  end
with parse_elements (fuel : nat) (s : string) (acc : list Value)
  : option (Value * string) :=
  match fuel with
  | O => None
  | S f =>
      match parse_value f s with
      | Some (v, r) =>
          match skip_ws r with
          | String "," r' => parse_elements f r' (v :: acc)
          | String "]" r' => Some (Arr (rev (v :: acc)), r')
          | _ => None
          end
      | None => None
      end
  end
with parse_members (fuel : nat) (s : string) (acc : list (string * Value))
  : option (Value * string) :=
  match fuel with
  | O => None
  | S f =>
      match skip_ws s with
      | String c r =>
          if Ascii.eqb c dquote then
            match parse_chars r with
            | Some (key, r1) =>
                match skip_ws r1 with
                | String ":" r2 =>
                    match parse_value f r2 with
                    | Some (v, r3) =>
                        match skip_ws r3 with
                        | String "," r' => parse_members f r' ((key, v) :: acc)
                        | String "}" r' => Some (Obj (rev ((key, v) :: acc)), r')
                        | _ => None
                        end
                    | None => None
                    end
                | _ => None
                end
            | None => None
            end
          else None
      | EmptyString => None
      end
  end.

(** [JSON.parse(text)]; [None] stands for the SyntaxError it throws. *)
Definition parse (text : string) : option Value :=
  match parse_value (2 * String.length text + 2) text with
  | Some (v, r) =>
      match skip_ws r with
      | EmptyString => Some v
      | _ => None
      end
  | None => None
  end.

(** The value of an own property of a parsed object; a repeated key keeps
    its last value. *)
Fixpoint own_property (members : list (string * Value)) (key : string)
  : option Value :=
  match members with
  | [] => None
  | (k, v) :: rest =>
      match own_property rest key with
      | Some v' => Some v'
      | None => if String.eqb k key then Some v else None
      end
  end.

(** Test texts are written with apostrophes where JSON has double quotes. *)
Fixpoint quoted (s : string) : string :=
  match s with
  | EmptyString => EmptyString
  | String c r => String (if Ascii.eqb c "'" then dquote else c) (quoted r)
  end.

End JSON.

(* ===================================================================== *)
(** * Exceptions, the outside world, and the monad of effectful code *)
(* ===================================================================== *)

Module Eff.

(** A thrown object.  [message] is the message of an [Error]; [reason] is
    the property the ledger client adds to some of its errors. *)
Record JSError : Type := mkJSError {
  reason : option string;
  message : option string;
}.

(** [new Error(msg)] *)
Definition Error (msg : string) : JSError :=
  {| reason := None; message := Some msg |}.

Inductive Completion (A : Type) : Type :=
| Normal (a : A)
| Throw (e : JSError).
Arguments Normal {A} a.
Arguments Throw {A} e.

(** The argument of a contract method. *)
Inductive Argument : Type :=
| NoArgument
| NameArgument (playerName : string)
| ItemArgument (itemId : JS.Num)
| AddressArgument (address : string).

(** What the program does to the outside, in order. *)
Inductive Event : Type :=
| Sleep (ms : Z)
| HttpPost (prompt : string)
| ContractCall (walletIndex : nat) (method : string) (argument : Argument).

Definition World : Type := list Event.

Definition M (A : Type) : Type := World -> Completion A * World.

Definition ret {A : Type} (a : A) : M A := fun w => (Normal a, w).

Definition throw {A : Type} (e : JSError) : M A := fun w => (Throw e, w).

Definition bind {A B : Type} (c : M A) (k : A -> M B) : M B :=
  fun w =>
    match c w with
    | (Normal a, w') => k a w'
    | (Throw e, w') => (Throw e, w')
    end.

(** [try { body } catch (error) { handler }] *)
Definition try_catch {A : Type} (body : M A) (handler : JSError -> M A) : M A :=
  fun w =>
    match body w with
    | (Normal a, w') => (Normal a, w')
    | (Throw e, w') => handler e w'
    end.

Definition emit (e : Event) : M unit := fun w => (Normal tt, w ++ [e]).

(** [await new Promise(resolve => setTimeout(resolve, ms))] *)
Definition sleep (ms : Z) : M unit := emit (Sleep ms).

(** Lifts the completion of an awaited external call. *)
Definition lift {A : Type} (c : Completion A) : M A := fun w => (c, w).

(** How one iteration of a [for] loop ends. *)
Inductive Step (A : Type) : Type :=
| Continue
| Break
| Return (a : A).
Arguments Continue {A}.
Arguments Break {A}.
Arguments Return {A} a.

End Eff.

Notation "x <- c ;; k" := (Eff.bind c (fun x => k))
  (at level 100, c at next level, right associativity).
Notation "c ;;; k" := (Eff.bind c (fun _ => k))
  (at level 100, right associativity).

(** [a || b] where [a] is a possibly absent string. *)
Definition or_else (a : option string) (b : string) : string :=
  match a with
  | Some s => if JS.truthy_string s then s else b
  | None => b
  end.

(* ===================================================================== *)
(** * Configuration (src/config/index.ts) *)
(* ===================================================================== *)

Module Config.

Record ItemData : Type := {
  id : Z;
  name : string;
  cost : Z;
  strength : Z;
  defense : Z;
}.

Record BehaviorSettings : Type := {
  gasThresholdGwei : Z;
  maxRetries : nat;
}.

Record AISettings : Type := {
  aiMaxRetries : nat;
}.

Record Guardrails : Type := {
  maxConsecutiveLosses : Z;
  minGoldForFight : Z;
  maxGasGwei : Z;
}.

Record t : Type := {
  simulationMode : bool;
  behaviorSettings : BehaviorSettings;
  aiSettings : AISettings;
  itemShop : list ItemData;
  guardrails : Guardrails;
}.

(** The CONFIG object as the source spells it; the mode comes from the
    environment. *)
Definition CONFIG (simulation : bool) : t := {|
  simulationMode := simulation;
  behaviorSettings := {| gasThresholdGwei := 50; maxRetries := 3 |};
  aiSettings := {| aiMaxRetries := 3 |};
  itemShop := [
    {| id := 0; name := "Wooden Shield"; cost := 50; strength := 0; defense := 5 |};
    {| id := 1; name := "Iron Sword"; cost := 100; strength := 10; defense := 0 |};
    {| id := 2; name := "Steel Armor"; cost := 250; strength := 5; defense := 20 |}
  ];
  guardrails := {| maxConsecutiveLosses := 5; minGoldForFight := 20; maxGasGwei := 100 |};
|}.

End Config.

(* ===================================================================== *)
(** * Memory (src/features/persistence) *)
(* ===================================================================== *)

Module Persistence.

Record ActionOutcome : Type := {
  action : string;
  success : bool;
  goldChange : Z;
  expChange : Z;
  timestamp : Z;
}.

Record PurchasedItem : Type := {
  id : Z;
  name : string;
  cost : Z;
}.

(** A reference to an array of outcomes, and the heap such arrays live in.
    [recentActions] is the only array the program mutates in place, so it is
    the one held by reference; [itemsPurchased] is only ever read. *)
Abbreviation Ref := positive.
Abbreviation Heap := (gmap positive (list ActionOutcome)).

Record GameMemory : Type := {
  totalActions : Z;
  totalBattles : Z;
  battlesWon : Z;
  battlesLost : Z;
  goldEarned : Z;
  goldSpent : Z;
  itemsPurchased : list PurchasedItem;
  recentActions : Ref;
  consecutiveWins : Z;
  consecutiveLosses : Z;
  bestWinStreak : Z;
}.

(** Assignments to one property of a memory object. *)
Definition set_totalActions (m : GameMemory) (v : Z) : GameMemory :=
  {| totalActions := v; totalBattles := totalBattles m; battlesWon := battlesWon m;
     battlesLost := battlesLost m; goldEarned := goldEarned m; goldSpent := goldSpent m;
     itemsPurchased := itemsPurchased m; recentActions := recentActions m;
     consecutiveWins := consecutiveWins m; consecutiveLosses := consecutiveLosses m;
     bestWinStreak := bestWinStreak m |}.

Definition set_totalBattles (m : GameMemory) (v : Z) : GameMemory :=
  {| totalActions := totalActions m; totalBattles := v; battlesWon := battlesWon m;
     battlesLost := battlesLost m; goldEarned := goldEarned m; goldSpent := goldSpent m;
     itemsPurchased := itemsPurchased m; recentActions := recentActions m;
     consecutiveWins := consecutiveWins m; consecutiveLosses := consecutiveLosses m;
     bestWinStreak := bestWinStreak m |}.

Definition set_battlesWon (m : GameMemory) (v : Z) : GameMemory :=
  {| totalActions := totalActions m; totalBattles := totalBattles m; battlesWon := v;
     battlesLost := battlesLost m; goldEarned := goldEarned m; goldSpent := goldSpent m;
     itemsPurchased := itemsPurchased m; recentActions := recentActions m;
     consecutiveWins := consecutiveWins m; consecutiveLosses := consecutiveLosses m;
     bestWinStreak := bestWinStreak m |}.

Definition set_battlesLost (m : GameMemory) (v : Z) : GameMemory :=
  {| totalActions := totalActions m; totalBattles := totalBattles m; battlesWon := battlesWon m;
     battlesLost := v; goldEarned := goldEarned m; goldSpent := goldSpent m;
     itemsPurchased := itemsPurchased m; recentActions := recentActions m;
     consecutiveWins := consecutiveWins m; consecutiveLosses := consecutiveLosses m;
     bestWinStreak := bestWinStreak m |}.

Definition set_goldEarned (m : GameMemory) (v : Z) : GameMemory :=
  {| totalActions := totalActions m; totalBattles := totalBattles m; battlesWon := battlesWon m;
     battlesLost := battlesLost m; goldEarned := v; goldSpent := goldSpent m;
     itemsPurchased := itemsPurchased m; recentActions := recentActions m;
     consecutiveWins := consecutiveWins m; consecutiveLosses := consecutiveLosses m;
     bestWinStreak := bestWinStreak m |}.

Definition set_goldSpent (m : GameMemory) (v : Z) : GameMemory :=
  {| totalActions := totalActions m; totalBattles := totalBattles m; battlesWon := battlesWon m;
     battlesLost := battlesLost m; goldEarned := goldEarned m; goldSpent := v;
     itemsPurchased := itemsPurchased m; recentActions := recentActions m;
     consecutiveWins := consecutiveWins m; consecutiveLosses := consecutiveLosses m;
     bestWinStreak := bestWinStreak m |}.

Definition set_recentActions (m : GameMemory) (v : Ref) : GameMemory :=
  {| totalActions := totalActions m; totalBattles := totalBattles m; battlesWon := battlesWon m;
     battlesLost := battlesLost m; goldEarned := goldEarned m; goldSpent := goldSpent m;
     itemsPurchased := itemsPurchased m; recentActions := v;
     consecutiveWins := consecutiveWins m; consecutiveLosses := consecutiveLosses m;
     bestWinStreak := bestWinStreak m |}.

Definition set_consecutiveWins (m : GameMemory) (v : Z) : GameMemory :=
  {| totalActions := totalActions m; totalBattles := totalBattles m; battlesWon := battlesWon m;
     battlesLost := battlesLost m; goldEarned := goldEarned m; goldSpent := goldSpent m;
     itemsPurchased := itemsPurchased m; recentActions := recentActions m;
     consecutiveWins := v; consecutiveLosses := consecutiveLosses m;
     bestWinStreak := bestWinStreak m |}.

Definition set_consecutiveLosses (m : GameMemory) (v : Z) : GameMemory :=
  {| totalActions := totalActions m; totalBattles := totalBattles m; battlesWon := battlesWon m;
     battlesLost := battlesLost m; goldEarned := goldEarned m; goldSpent := goldSpent m;
     itemsPurchased := itemsPurchased m; recentActions := recentActions m;
     consecutiveWins := consecutiveWins m; consecutiveLosses := v;
     bestWinStreak := bestWinStreak m |}.

Definition set_bestWinStreak (m : GameMemory) (v : Z) : GameMemory :=
  {| totalActions := totalActions m; totalBattles := totalBattles m; battlesWon := battlesWon m;
     battlesLost := battlesLost m; goldEarned := goldEarned m; goldSpent := goldSpent m;
     itemsPurchased := itemsPurchased m; recentActions := recentActions m;
     consecutiveWins := consecutiveWins m; consecutiveLosses := consecutiveLosses m;
     bestWinStreak := v |}.

(** The array a reference points to; a memory only holds allocated
    references, the empty list stands in for the impossible dangling one. *)
Definition deref (h : Heap) (r : Ref) : list ActionOutcome := default [] (h !! r).

(** [new Array]: a reference no live array uses. *)
Definition alloc (h : Heap) (l : list ActionOutcome) : Heap * Ref :=
  let r := fresh (dom h) in (<[r := l]> h, r).

(** [arr.slice(-n)] *)
Definition slice_last (n : nat) (l : list ActionOutcome) : list ActionOutcome :=
  drop (length l - n) l.

(** [initializeMemory()]: both arrays are fresh. *)
Definition initializeMemory (h : Heap) : Heap * GameMemory :=
  let '(h1, r) := alloc h [] in
  (h1, {| totalActions := 0; totalBattles := 0; battlesWon := 0; battlesLost := 0;
          goldEarned := 0; goldSpent := 0; itemsPurchased := [];
          recentActions := r;
          consecutiveWins := 0; consecutiveLosses := 0; bestWinStreak := 0 |}).

(** [updateMemory(currentMemory, outcome)].  The spread copies the
    properties of [currentMemory], the reference held by [recentActions]
    included, so [push] acts on the array both objects point to. *)
Definition updateMemory (h : Heap) (currentMemory : GameMemory) (outcome : ActionOutcome)
  : Heap * GameMemory :=
  let newMemory := currentMemory in
  let newMemory := set_totalActions newMemory (totalActions newMemory + 1) in
  let h := <[recentActions newMemory := deref h (recentActions newMemory) ++ [outcome]]> h in
  let '(h, newMemory) :=
    if (30 <? length (deref h (recentActions newMemory)))%nat then
      let '(h', r) := alloc h (slice_last 30 (deref h (recentActions newMemory))) in
      (h', set_recentActions newMemory r)
    else (h, newMemory) in
  let newMemory :=
    if String.eqb (action outcome) "fightMonster" then
      let newMemory := set_totalBattles newMemory (totalBattles newMemory + 1) in
      if success outcome then
        let newMemory := set_battlesWon newMemory (battlesWon newMemory + 1) in
        let newMemory := set_consecutiveWins newMemory (consecutiveWins newMemory + 1) in
        let newMemory := set_consecutiveLosses newMemory 0 in
        set_bestWinStreak newMemory
          (Z.max (bestWinStreak newMemory) (consecutiveWins newMemory))
      else
        let newMemory := set_battlesLost newMemory (battlesLost newMemory + 1) in
        let newMemory := set_consecutiveLosses newMemory (consecutiveLosses newMemory + 1) in
        set_consecutiveWins newMemory 0
    else newMemory in
  let newMemory :=
    if 0 <? goldChange outcome
    then set_goldEarned newMemory (goldEarned newMemory + goldChange outcome)
    else newMemory in
  let newMemory :=
    if goldChange outcome <? 0
    then set_goldSpent newMemory (goldSpent newMemory + Z.abs (goldChange outcome))
    else newMemory in
  (h, newMemory).

(** Updates applied one after the other, each to the memory the previous
    one returned, as the engine does for one wallet. *)
Fixpoint updateAll (h : Heap) (m : GameMemory) (outcomes : list ActionOutcome)
  : Heap * GameMemory :=
  match outcomes with
  | [] => (h, m)
  | o :: rest => let '(h', m') := updateMemory h m o in updateAll h' m' rest
  end.

End Persistence.

(* ===================================================================== *)
(** * Player state as read from the ledger (src/features/blockchain/types.ts) *)
(* ===================================================================== *)

Module Ledger.

(** Numeric values are kept as the decimal strings the ledger client
    returns. *)
Record PlayerStats : Type := {
  name : string;
  level : string;
  experience : string;
  gold : string;
  strength : string;
  defense : string;
  exists_ : bool;
}.

End Ledger.

(* ===================================================================== *)
(** * Battle intelligence (src/features/gameLogic/BattleIntelligence) *)
(* ===================================================================== *)

Module GameLogic.

Import Persistence.

Inductive RiskLevel : Type := low | medium | high.

(** What a contributing factor reports; the program renders each as a line
    of text. *)
Inductive Factor : Type :=
| StrongPowerScore (powerScore : JS.Num)
| HistoricalWinRate (rate : JS.Num)
| HotStreak (wins : Z)
| ColdStreak (losses : Z).

Record BattlePrediction : Type := {
  winProbability : JS.Num;
  expectedGoldChange : JS.Num;
  expectedXpChange : JS.Num;
  riskLevel : RiskLevel;
  recommendation : string;
  contributingFactors : list Factor;
}.

Record ItemROIAnalysis : Type := {
  itemId : Z;
  itemName : string;
  cost : Z;
  isOwned : bool;
  isAffordable : bool;
  expectedWinRateIncrease : JS.Num;
  paybackBattles : JS.Num;
  roiScore : JS.Num;
  roiRecommendation : string;
}.

(** Decimal literals of the source. *)
Definition lit (num : Z) (den : positive) : JS.Num := JS.Fin (num # den).

Definition predictBattleOutcome (stats : Ledger.PlayerStats) (memory : GameMemory)
  : BattlePrediction :=
  let factors : list Factor := [] in
  let winProb := lit 5 10 in
  let strength := JS.parseInt (Ledger.strength stats) in
  let defense := JS.parseInt (Ledger.defense stats) in
  let powerScore := JS.add strength defense in
  let powerBonus := JS.mul (JS.sub powerScore (JS.of_Z 20)) (lit 5 1000) in
  let winProb := JS.add winProb powerBonus in
  let factors :=
    if JS.gt powerScore (JS.of_Z 30) then factors ++ [StrongPowerScore powerScore]
    else factors in
  let totalBattles := battlesWon memory + battlesLost memory in
  let '(winProb, factors) :=
    if 5 <? totalBattles then
      let historicalWinRate := JS.div (JS.of_Z (battlesWon memory)) (JS.of_Z totalBattles) in
      let historyBonus := JS.mul (JS.sub historicalWinRate (lit 5 10)) (lit 2 10) in
      (JS.add winProb historyBonus, factors ++ [HistoricalWinRate historicalWinRate])
    else (winProb, factors) in
  let '(winProb, factors) :=
    if 2 <=? consecutiveWins memory then
      (JS.add winProb (JS.mul (JS.of_Z (consecutiveWins memory)) (lit 5 100)),
       factors ++ [HotStreak (consecutiveWins memory)])
    else (winProb, factors) in
  let '(winProb, factors) :=
    if 2 <=? consecutiveLosses memory then
      (JS.sub winProb (JS.mul (JS.of_Z (consecutiveLosses memory)) (lit 7 100)),
       factors ++ [ColdStreak (consecutiveLosses memory)])
    else (winProb, factors) in
  let winProb := JS.Math_max (lit 5 100) (JS.Math_min (lit 95 100) winProb) in
  let riskLevel :=
    if JS.gt winProb (lit 7 10) then low
    else if JS.gt winProb (lit 45 100) then medium
    else high in
  let recommendation :=
    match riskLevel with
    | low => "Favorable odds"
    | medium => "Calculated risk"
    | high => "High risk, not recommended"
    end in
  {| winProbability := winProb;
     expectedGoldChange :=
       JS.sub (JS.mul winProb (JS.of_Z 40))
              (JS.mul (JS.sub (JS.of_Z 1) winProb) (JS.of_Z 20));
     expectedXpChange := JS.add (JS.mul winProb (JS.of_Z 25)) (JS.of_Z 5);
     riskLevel := riskLevel;
     recommendation := recommendation;
     contributingFactors := factors |}.

(** Decimal text of an integer, for messages. *)
Definition string_of_Z (z : Z) : string := NilZero.string_of_int (Z.to_int z).

(** [CONFIG.itemShop[itemId]] for an integer [itemId]. *)
Definition shop_item (cfg : Config.t) (itemId : Z) : option Config.ItemData :=
  if 0 <=? itemId then nth_error (Config.itemShop cfg) (Z.to_nat itemId) else None.

(** [analyzeItemROI(itemId, stats, memory)], called with the ids of the
    catalogue. *)
Definition analyzeItemROI (cfg : Config.t) (itemId : Z)
    (stats : Ledger.PlayerStats) (memory : GameMemory)
  : Eff.Completion ItemROIAnalysis :=
  match shop_item cfg itemId with
  | None =>
      Eff.Throw (Eff.Error
        ("Item with ID " ++ string_of_Z itemId ++ " not found in config.")%string)
  | Some item =>
      let isOwned := existsb (fun p => Persistence.id p =? itemId) (itemsPurchased memory) in
      let isAffordable :=
        JS.ge (JS.parseInt (Ledger.gold stats)) (JS.of_Z (Config.cost item)) in
      let currentPower :=
        JS.add (JS.parseInt (Ledger.strength stats)) (JS.parseInt (Ledger.defense stats)) in
      let newPower :=
        JS.add (JS.add currentPower (JS.of_Z (Config.strength item)))
               (JS.of_Z (Config.defense item)) in
      let powerIncrease := JS.sub (JS.div newPower currentPower) (JS.of_Z 1) in
      let expectedWinRateIncrease := JS.mul powerIncrease (lit 5 10) in
      let avgGoldPerBattleIncrease := JS.mul expectedWinRateIncrease (JS.of_Z 60) in
      let paybackBattles :=
        if JS.gt avgGoldPerBattleIncrease (JS.of_Z 0)
        then JS.Math_ceil (JS.div (JS.of_Z (Config.cost item)) avgGoldPerBattleIncrease)
        else JS.of_Z 999 in
      let roiScore :=
        JS.mul (JS.div (JS.of_Z (Config.strength item + Config.defense item))
                       (JS.of_Z (Config.cost item)))
               (JS.of_Z 100) in
      Eff.Normal
        {| itemId := Config.id item;
           itemName := Config.name item;
           cost := Config.cost item;
           isOwned := isOwned;
           isAffordable := isAffordable;
           expectedWinRateIncrease := expectedWinRateIncrease;
           paybackBattles := paybackBattles;
           roiScore := roiScore;
           roiRecommendation :=
             if JS.gt roiScore (JS.of_Z 1) then "High Value"
             else if JS.gt roiScore (lit 5 10) then "Good Value"
             else "Low Value" |}
  end.

End GameLogic.

(* ===================================================================== *)
(** * The decision oracle adapter (src/features/ai/AIService.ts) *)
(* ===================================================================== *)

Module AI.

Import Eff.

(** The decision as the program reads it: [action] is whatever string the
    reply carried, [itemId] is absent or a number. *)
Record AIDecision : Type := {
  action : string;
  itemId : option JS.Num;
  reasoning : string;
}.

(** The six action kinds of the [AIDecision] interface. *)
Definition actionKinds : list string :=
  ["createPlayer"; "train"; "fightMonster"; "buyItem"; "levelUp"; "wait"].

(** The body of an answer of the service.  [choices = None] stands for a
    body without a [choices] array, on which [response.data.choices[0]]
    throws a TypeError. *)
Record ChatMessage : Type := { content : option string }.
Record Choice : Type := { message : option ChatMessage }.
Record HttpResponse : Type := { choices : option (list Choice) }.

(** The decision service as one call of [getDecision] meets it: the outcome
    of the request made by each attempt. *)
Definition Oracle : Type := nat -> Completion HttpResponse.

Definition axios_post (oracle : Oracle) (attempt : nat) (prompt : string)
  : M HttpResponse :=
  emit (HttpPost prompt) ;;; lift (oracle attempt).

(** [response.data.choices[0]?.message?.content] *)
Definition first_content (response : HttpResponse) : Completion (option string) :=
  match choices response with
  | None => Throw (Error "Cannot read properties of undefined (reading '0')")
  | Some [] => Normal None
  | Some (c :: _) =>
      match message c with
      | None => Normal None
      | Some m => Normal (content m)
      end
  end.

(** [parsed.key] on a parsed value, for a key that no built-in prototype
    defines; [None] is [undefined]. *)
Definition property (parsed : JSON.Value) (key : string)
  : Completion (option JSON.Value) :=
  match parsed with
  | JSON.Null => Throw (Error "Cannot read properties of null")
  | JSON.Obj members => Normal (JSON.own_property members key)
  | _ => Normal None
  end.

(** [!v] *)
Definition falsy (v : option JSON.Value) : bool :=
  match v with
  | None | Some JSON.Null => true
  | Some (JSON.Bool b) => negb b
  | Some (JSON.Number q) => Qeq_bool q 0
  | Some (JSON.Str s) => negb (JS.truthy_string s)
  | Some (JSON.Arr _) | Some (JSON.Obj _) => false
  end.

Inductive TypeOf : Type :=
| t_undefined | t_object | t_boolean | t_number | t_string.

Definition typeof (v : option JSON.Value) : TypeOf :=
  match v with
  | None => t_undefined
  | Some (JSON.Bool _) => t_boolean
  | Some (JSON.Number _) => t_number
  | Some (JSON.Str _) => t_string
  | Some JSON.Null | Some (JSON.Arr _) | Some (JSON.Obj _) => t_object
  end.

Definition is_string (v : option JSON.Value) : bool :=
  match typeof v with t_string => true | _ => false end.

Definition is_number (v : option JSON.Value) : bool :=
  match typeof v with t_number => true | _ => false end.

(** The cast [parsed as AIDecision], on a value that passed the checks. *)
Definition as_AIDecision (action reasoning itemId : option JSON.Value) : AIDecision :=
  {| action := match action with Some (JSON.Str s) => s | _ => EmptyString end;
     itemId := match itemId with Some (JSON.Number q) => Some (JS.Fin q) | _ => None end;
     reasoning := match reasoning with Some (JSON.Str s) => s | _ => EmptyString end |}.

(** The body of the [try] of [parseAndValidateResponse]. *)
Definition validate_parsed (parsed : JSON.Value) : Completion (option AIDecision) :=
  match property parsed "action" with
  | Throw e => Throw e
  | Normal action =>
      if falsy action || negb (is_string action) then Normal None
      else
        match property parsed "reasoning" with
        | Throw e => Throw e
        | Normal reasoning =>
            if falsy reasoning || negb (is_string reasoning) then Normal None
            else
              match property parsed "itemId" with
              | Throw e => Throw e
              | Normal itemId =>
                  if (match itemId with None => false | Some _ => true end)
                     && negb (is_number itemId)
                  then Normal None
                  else Normal (Some (as_AIDecision action reasoning itemId))
              end
        end
  end.

(** [parseAndValidateResponse(rawResponse)]; [None] is [null]. *)
Definition parseAndValidateResponse (rawResponse : string) : option AIDecision :=
  let attempt :=
    match JSON.parse rawResponse with
    | None => Throw (Error "Unexpected token in JSON")
    | Some parsed => validate_parsed parsed
    end in
  match attempt with
  | Normal r => r
  | Throw _ => None
  end.

Definition fallback : AIDecision :=
  {| action := "train";
     itemId := None;
     reasoning := "AI service failed to get a valid response after all retries. Executing a safe fallback action." |}.

Section GetDecision.

Variable cfg : Config.t.
Variable oracle : Oracle.

Let maxRetries : nat := Config.aiMaxRetries (Config.aiSettings cfg).

(** One iteration of the loop of [getDecision]. *)
Definition getDecision_attempt (strategicPrompt : string) (attempt : nat)
  : M (Step AIDecision) :=
  try_catch
    (response <- axios_post oracle attempt strategicPrompt ;;
     aiResponseContent <- lift (first_content response) ;;
     match aiResponseContent with
     | Some text =>
         if JS.truthy_string text then
           match parseAndValidateResponse text with
           | Some parsedDecision => ret (Return parsedDecision)
           | None => ret Continue
           end
         else ret Continue
     | None => ret Continue
     end)
    (fun error =>
       if (attempt =? maxRetries)%nat then ret Break
       else sleep (2000 * Z.of_nat attempt) ;;; ret Continue).

(** The loop [for (attempt = 1; attempt <= maxRetries; attempt++)], with
    [remaining] iterations left before the condition fails; [None] when the
    loop is left without a [return]. *)
Fixpoint getDecision_loop (strategicPrompt : string) (remaining attempt : nat)
  : M (option AIDecision) :=
  match remaining with
  | O => ret None
  | S remaining' =>
      step <- getDecision_attempt strategicPrompt attempt ;;
      match step with
      | Return d => ret (Some d)
      | Break => ret None
      | Continue => getDecision_loop strategicPrompt remaining' (S attempt)
      end
  end.

Definition getDecision (strategicPrompt : string) : M AIDecision :=
  left_loop <- getDecision_loop strategicPrompt maxRetries 1%nat ;;
  match left_loop with
  | Some d => ret d
  | None => ret fallback
  end.

End GetDecision.

End AI.

(* ===================================================================== *)
(** * The guardrails of the engine (src/core/BotEngine.ts) *)
(* ===================================================================== *)

Module Core.

Import AI.

Definition lossStreakOverride : AIDecision :=
  {| action := "train"; itemId := None;
     reasoning := "Forced training to break a losing streak (Safety Override)." |}.

Definition lowGoldOverride : AIDecision :=
  {| action := "train"; itemId := None;
     reasoning := "Gold is too low to risk a fight (Safety Override)." |}.

Definition unaffordableOverride : AIDecision :=
  {| action := "train"; itemId := None;
     reasoning := "Cannot afford the item, training instead (Safety Override)." |}.

Definition validateAIDecision (cfg : Config.t) (decision : AIDecision)
    (stats : Ledger.PlayerStats) (memory : Persistence.GameMemory) : AIDecision :=
  let gold := JS.parseInt (Ledger.gold stats) in
  if String.eqb (action decision) "fightMonster"
     && (Config.maxConsecutiveLosses (Config.guardrails cfg)
           <=? Persistence.consecutiveLosses memory)
  then lossStreakOverride
  else if String.eqb (action decision) "fightMonster"
          && JS.lt gold (JS.of_Z (Config.minGoldForFight (Config.guardrails cfg)))
  then lowGoldOverride
  else
    match (if String.eqb (action decision) "buyItem" then itemId decision else None) with
    | Some wanted =>
        match JS.array_get (Config.itemShop cfg) wanted with
        | Some item =>
            if JS.lt gold (JS.of_Z (Config.cost item)) then unaffordableOverride
            else decision
        | None => decision
        end
    | None => decision
    end.

End Core.

(* ===================================================================== *)
(** * The action executor (src/features/blockchain/BlockchainService.ts) *)
(* ===================================================================== *)

Module Blockchain.

Import Eff.

Record TransactionOptions : Type := {
  playerName : option string;
  itemId : option JS.Num;
}.

Record TransactionReceipt : Type := { gasUsed : Z }.

(** What a call of a contract method comes to: it throws, the method is
    absent (the optional call yields [undefined]), or a transaction is sent
    whose [wait()] then throws or yields a receipt or [null]. *)
Inductive Submission : Type :=
| Rejected (e : JSError)
| NoSuchMethod
| Sent (confirmation : Completion (option TransactionReceipt)).

(** The ledger and the node as one call of [executeTransaction] meets them. *)
Record Chain : Type := {
  wallets : list string;
  (** gas price in gwei reported by [getFeeData], absent when it has none *)
  feeData : Completion (option Q);
  getBalance : string -> Completion Z;
  (** outcome of the contract call made by each attempt *)
  submit : nat -> Submission;
}.

Record GasAnalysis : Type := {
  currentGwei : JS.Num;
  shouldWait : bool;
}.

(** [analyzeGas()]: a failure to read the fee data is caught and reported
    as 999 gwei. *)
Definition analyzeGas (cfg : Config.t) (chain : Chain) : GasAnalysis :=
  match feeData chain with
  | Normal gasPrice =>
      let currentGwei := JS.Fin (default 0%Q gasPrice) in
      {| currentGwei := currentGwei;
         shouldWait :=
           JS.gt currentGwei (JS.of_Z (Config.gasThresholdGwei (Config.behaviorSettings cfg))) |}
  | Throw _ => {| currentGwei := JS.of_Z 999; shouldWait := true |}
  end.

(** [performPreFlightChecks(walletAddress)]: the gas check, then the balance
    is read for the log.  The message leaves out the rendering of the gas
    figure. *)
Definition performPreFlightChecks (cfg : Config.t) (chain : Chain)
    (walletAddress : string) : M unit :=
  let gas := analyzeGas cfg chain in
  if JS.gt (currentGwei gas) (JS.of_Z (Config.maxGasGwei (Config.guardrails cfg)))
  then throw (Error "Gas price is critically high. Aborting transaction.")
  else
    balance <- lift (getBalance chain walletAddress) ;;
    ret tt.

Definition nonRetryableKeywords : list string :=
  ["insufficient funds";
   "nonce too low";
   "replacement fee too low";
   "already exists";
   "not enough gold"].

Definition isNonRetryableError (errorMsg : string) : bool :=
  let lowerError := JS.toLowerCase errorMsg in
  existsb (fun keyword => JS.includes lowerError keyword) nonRetryableKeywords.

Definition upper_ascii (c : ascii) : ascii :=
  let n := N_of_ascii c in
  if ((97 <=? n) && (n <=? 122))%N then ascii_of_N (n - 32) else c.

(** [action.charAt(0).toUpperCase() + action.slice(1)] *)
Definition capitalize (s : string) : string :=
  match s with
  | EmptyString => EmptyString
  | String c r => String (upper_ascii c) r
  end.

(** [error.reason || error.message || 'Unknown transaction error'] *)
Definition error_text (error : JSError) : string :=
  or_else (reason error) (or_else (message error) "Unknown transaction error").

Section ExecuteTransaction.

Variable cfg : Config.t.
Variable chain : Chain.

Let maxRetries : nat := Config.maxRetries (Config.behaviorSettings cfg).

(** A call [contract.method?.(argument)] of the given attempt: on a
    contract without the method nothing is called and the result is
    [undefined]. *)
Definition contract_call (walletIndex attempt : nat) (method : string)
    (argument : Argument) : M (option (Completion (option TransactionReceipt))) :=
  match submit chain attempt with
  | NoSuchMethod => ret None
  | Rejected e => emit (ContractCall walletIndex method argument) ;;; throw e
  | Sent confirmation =>
      emit (ContractCall walletIndex method argument) ;;; ret (Some confirmation)
  end.

(** The [switch (action)] that sends the transaction. *)
Definition send (action : string) (walletIndex attempt : nat)
    (options : TransactionOptions)
  : M (option (Completion (option TransactionReceipt))) :=
  if String.eqb action "createPlayer" then
    contract_call walletIndex attempt "createPlayer"
      (NameArgument (or_else (playerName options) "Adventurer"))
  else if String.eqb action "train" then
    contract_call walletIndex attempt "train" NoArgument
  else if String.eqb action "fightMonster" then
    contract_call walletIndex attempt "fightMonster" NoArgument
  else if String.eqb action "levelUp" then
    contract_call walletIndex attempt "levelUp" NoArgument
  else if String.eqb action "buyItem" then
    match itemId options with
    | None => throw (Error "itemId is required for buyItem")
    | Some wanted => contract_call walletIndex attempt "buyItem" (ItemArgument wanted)
    end
  else throw (Error ("Unknown action: " ++ action)%string).

(** The body of the [try] of one attempt. *)
Definition try_block (action : string) (walletIndex : nat)
    (options : TransactionOptions) (attempt : nat)
  : M (Step (option TransactionReceipt)) :=
  let actionName := capitalize action in
  if Config.simulationMode cfg then
    sleep 500 ;;; ret (Return None)
  else
    tx <- send action walletIndex attempt options ;;
    match tx with
    | None =>
        throw (Error ("Transaction for " ++ actionName
                      ++ " could not be created. The method may not exist on the contract.")%string)
    | Some confirmation =>
        receipt <- lift confirmation ;;
        ret (Return receipt)
    end.

(** The [catch] of one attempt. *)
Definition catch_block (action : string) (attempt : nat) (error : JSError)
  : M (Step (option TransactionReceipt)) :=
  let actionName := capitalize action in
  let errorMsg := error_text error in
  if isNonRetryableError errorMsg then
    throw (Error ("Non-retryable error for " ++ actionName ++ ": " ++ errorMsg)%string)
  else if (attempt =? maxRetries)%nat then
    throw (Error ("Action " ++ actionName ++ " failed after all retries.")%string)
  else
    sleep (3000 * Z.of_nat attempt) ;;; ret Continue.

(** The loop [for (attempt = 1; attempt <= maxRetries; attempt++)], with
    [remaining] iterations left before the condition fails. *)
Fixpoint attempts (action : string) (walletIndex : nat)
    (options : TransactionOptions) (remaining attempt : nat)
  : M (option TransactionReceipt) :=
  match remaining with
  | O => ret None
  | S remaining' =>
      step <- try_catch (try_block action walletIndex options attempt)
                        (catch_block action attempt) ;;
      match step with
      | Return receipt => ret receipt
      | Break => ret None
      | Continue => attempts action walletIndex options remaining' (S attempt)
      end
  end.

Definition executeTransaction (action : string) (walletIndex : nat)
    (options : TransactionOptions) : M (option TransactionReceipt) :=
  (if Config.simulationMode cfg then ret tt
   else
     match wallets chain !! walletIndex with
     | None => throw (Error "Cannot read properties of undefined (reading 'address')")
     | Some address => performPreFlightChecks cfg chain address
     end) ;;;
  attempts action walletIndex options maxRetries 1%nat.

End ExecuteTransaction.

End Blockchain.

(* ===================================================================== *)
(** * Wallet personalities (src/features/ai/types.ts, src/core/BotEngine.ts) *)
(* ===================================================================== *)

Module Personality.

(** An entry of the [profiles] table of [generatePersonalities]. *)
Record Profile : Type := {
  name : string;
  background : string;
  style : string;
  risk : string;
}.

(** The object built for a wallet: its address, the properties of a profile
    copied by the spread, and [riskTolerance]. *)
Record WalletPersonality : Type := {
  address : string;
  profile : Profile;
  riskTolerance : string;
}.

Definition profiles : list Profile :=
  [ {| name := "Alex"; background := "a cautious player";
       style := "Methodical & Risk-Averse"; risk := "low" |};
    {| name := "Morgan"; background := "an aggressive player";
       style := "Aggressive & Opportunistic"; risk := "high" |} ].

(** [profiles[i % profiles.length]]; the table is not empty, so the index
    is always within it. *)
Definition profile_of (i : nat) : Profile :=
  nth (i mod length profiles) profiles
      {| name := EmptyString; background := EmptyString;
         style := EmptyString; risk := EmptyString |}.

(** [generatePersonalities()], from the addresses of the wallets. *)
Definition generatePersonalities (wallets : list string) : list WalletPersonality :=
  imap (fun i wallet =>
          {| address := wallet;
             profile := profile_of i;
             riskTolerance := risk (profile_of i) |})
       wallets.

(** [personalities.findIndex(p => p.address === wanted)], counting from
    [i]; -1 when there is none. *)
Fixpoint findIndex_from (i : Z) (personalities : list WalletPersonality) (wanted : string)
  : Z :=
  match personalities with
  | [] => -1
  | p :: rest =>
      if String.eqb (address p) wanted then i else findIndex_from (i + 1) rest wanted
  end.

Definition findIndex (personalities : list WalletPersonality) (wanted : string) : Z :=
  findIndex_from 0 personalities wanted.

End Personality.

(* ===================================================================== *)
(** * Simulated outcomes (src/features/persistence/MemoryManager.ts) *)
(* ===================================================================== *)

Module Simulation.

Import Persistence.

(** [simulateOutcome(action)]; [random] is what [Math.random()] yields and
    [now] what [Date.now()] yields. *)
Definition simulateOutcome (random : Q) (now : Z) (action : string) : ActionOutcome :=
  let won := JS.gt (JS.Fin random) (GameLogic.lit 4 10) in
  if String.eqb action "fightMonster" then
    {| action := action; success := won;
       goldChange := if won then 40 else -20;
       expChange := if won then 25 else 5;
       timestamp := now |}
  else if String.eqb action "train" then
    {| action := action; success := true; goldChange := 15; expChange := 10;
       timestamp := now |}
  else
    {| action := action; success := true; goldChange := 0; expChange := 0;
       timestamp := now |}.

End Simulation.

(* ===================================================================== *)
(** * The strategic analysis (src/features/gameLogic/BattleIntelligence) *)
(* ===================================================================== *)

Module Strategy.

Import Eff GameLogic.

Section StrategicAnalysis.

Variable cfg : Config.t.

(** [buildEnhancedPrompt] renders its arguments as text and does nothing
    else; the rendering is left open. *)
Variable buildEnhancedPrompt :
  Ledger.PlayerStats -> Persistence.GameMemory -> Personality.WalletPersonality ->
  BattlePrediction -> list ItemROIAnalysis -> string.

(** [items.map(item => this.analyzeItemROI(item.id, stats, memory))] *)
Fixpoint analyze_each (stats : Ledger.PlayerStats) (memory : Persistence.GameMemory)
    (items : list Config.ItemData) : Completion (list ItemROIAnalysis) :=
  match items with
  | [] => Normal []
  | item :: rest =>
      match analyzeItemROI cfg (Config.id item) stats memory with
      | Throw e => Throw e
      | Normal analysis =>
          match analyze_each stats memory rest with
          | Throw e => Throw e
          | Normal analyses => Normal (analysis :: analyses)
          end
      end
  end.

(** [getStrategicAnalysis(stats, memory, personality)]: the prompt of the
    object it returns. *)
Definition getStrategicAnalysis (stats : Ledger.PlayerStats)
    (memory : Persistence.GameMemory) (personality : Personality.WalletPersonality)
  : Completion string :=
  let battlePrediction := predictBattleOutcome stats memory in
  match analyze_each stats memory (Config.itemShop cfg) with
  | Throw e => Throw e
  | Normal itemAnalyses =>
      Normal (buildEnhancedPrompt stats memory personality battlePrediction itemAnalyses)
  end.

End StrategicAnalysis.

End Strategy.

(* ===================================================================== *)
(** * One turn of the engine (src/core/BotEngine.ts) *)
(* ===================================================================== *)

Module Engine.

Import Eff.

(** What the engine keeps between turns: the memories by wallet address,
    and the heap their histories live in. *)
Record State : Type := {
  heap : Persistence.Heap;
  memories : gmap string Persistence.GameMemory;
}.

(** What one turn meets outside the program. *)
Record Outside : Type := {
  (** the answer of [getFeeData] to the gas check that opens the turn *)
  feeDataAtStart : Completion (option Q);
  (** the method [players] of the first contract, [None] when the contract
      has none; of its answer, [None] is a falsy one *)
  players : option (string -> Completion (option Ledger.PlayerStats));
  oracle : AI.Oracle;
  (** the ledger and the node as the transaction of the turn meets them *)
  chain : Blockchain.Chain;
  random : Q;
  now : Z;
}.

(** [getPlayerStats(address)]: the call [contract.players?.(address)] on
    the contract of the first wallet. *)
Definition getPlayerStats (out : Outside) (address : string) : M Ledger.PlayerStats :=
  match Blockchain.wallets (chain out) with
  | [] => throw (Error "No contracts initialized. Check your private keys in .env.")
  | _ :: _ =>
      pData <- match players out with
               | None => ret None
               | Some answer =>
                   emit (ContractCall 0 "players" (AddressArgument address)) ;;;
                   lift (answer address)
               end ;;
      match pData with
      | None =>
          throw (Error ("Could not fetch player data for address: " ++ address)%string)
      | Some pData => ret pData
      end
  end.

(** The position in [wallets] and [contracts] that the result of
    [findIndex] designates: -1 designates no wallet, as does any index past
    the end. *)
Definition slot (chain : Blockchain.Chain) (walletIndex : Z) : nat :=
  if walletIndex <? 0 then length (Blockchain.wallets chain) else Z.to_nat walletIndex.

(** [this.memories.get(address) || this.memoryManager.initializeMemory(address)] *)
Definition recall (st : State) (address : string)
  : Persistence.Heap * Persistence.GameMemory :=
  match memories st !! address with
  | Some memory => (heap st, memory)
  | None => Persistence.initializeMemory (heap st)
  end.

Section Turn.

Variable cfg : Config.t.
Variable buildEnhancedPrompt :
  Ledger.PlayerStats -> Persistence.GameMemory -> Personality.WalletPersonality ->
  GameLogic.BattlePrediction -> list GameLogic.ItemROIAnalysis -> string.
Variable out : Outside.
Variable personalities : list Personality.WalletPersonality.

(** The gas check that opens a turn in live mode. *)
Definition gasCheck : Blockchain.GasAnalysis :=
  Blockchain.analyzeGas cfg
    {| Blockchain.wallets := Blockchain.wallets (chain out);
       Blockchain.feeData := feeDataAtStart out;
       Blockchain.getBalance := Blockchain.getBalance (chain out);
       Blockchain.submit := Blockchain.submit (chain out) |}.

(** [executeTurn(personality)]: how the turn completes, the state it
    leaves, and the trace.  The engine hands the analysis to [getDecision];
    the request recorded in the trace carries its prompt. *)
Definition executeTurn (personality : Personality.WalletPersonality)
    (st : State) (w : World) : Completion unit * State * World :=
  let address := Personality.address personality in
  let name := Personality.name (Personality.profile personality) in
  let walletIndex := slot (chain out) (Personality.findIndex personalities address) in
  if negb (Config.simulationMode cfg) && Blockchain.shouldWait gasCheck
  then (Normal tt, st, w)
  else
    match getPlayerStats out address w with
    | (Throw e, w) => (Throw e, st, w)
    | (Normal stats, w) =>
        let '(h, memory) := recall st address in
        let st := {| heap := h; memories := memories st |} in
        if negb (Ledger.exists_ stats) then
          match Blockchain.executeTransaction cfg (chain out) "createPlayer" walletIndex
                  {| Blockchain.playerName := Some name; Blockchain.itemId := None |} w with
          | (Throw e, w) => (Throw e, st, w)
          | (Normal _, w) => (Normal tt, st, w)
          end
        else
          match Strategy.getStrategicAnalysis cfg buildEnhancedPrompt
                  stats memory personality with
          | Throw e => (Throw e, st, w)
          | Normal strategicAnalysis =>
              match AI.getDecision cfg (oracle out) strategicAnalysis w with
              | (Throw e, w) => (Throw e, st, w)
              | (Normal aiDecision, w) =>
                  let validatedDecision :=
                    Core.validateAIDecision cfg aiDecision stats memory in
                  if String.eqb (AI.action validatedDecision) "wait"
                  then (Normal tt, st, w)
                  else
                    match Blockchain.executeTransaction cfg (chain out)
                            (AI.action validatedDecision) walletIndex
                            {| Blockchain.playerName := None;
                               Blockchain.itemId := AI.itemId validatedDecision |} w with
                    | (Throw e, w) => (Throw e, st, w)
                    | (Normal _, w) =>
                        if Config.simulationMode cfg then
                          let outcome :=
                            Simulation.simulateOutcome (random out) (now out)
                              (AI.action validatedDecision) in
                          let '(h, updatedMemory) :=
                            Persistence.updateMemory h memory outcome in
                          (Normal tt,
                           {| heap := h;
                              memories := <[address := updatedMemory]> (memories st) |},
                           w)
                        else (Normal tt, st, w)
                    end
              end
          end
    end.

End Turn.

End Engine.

(* ===================================================================== *)
(** * Notions used to state the properties *)
(* ===================================================================== *)

(** None of the definitions below is in the source: they name what the
    statements of the properties talk about. *)

Module PersistenceSpec.

Import Persistence.

(** The largest run of wins among the memories a sequence of updates goes
    through, the starting one included. *)
Fixpoint maxWinsSeen (h : Heap) (m : GameMemory) (outcomes : list ActionOutcome) : Z :=
  match outcomes with
  | [] => consecutiveWins m
  | o :: rest =>
      Z.max (consecutiveWins m)
            (maxWinsSeen (updateMemory h m o).1 (updateMemory h m o).2 rest)
  end.

End PersistenceSpec.

Module AISpec.

Import Eff AI.

(** The contract the design document states for an accepted reply. *)
Definition documented_contract (d : AIDecision) : Prop :=
  In (action d) actionKinds
  /\ reasoning d <> EmptyString
  /\ (itemId d <> None -> action d = "buyItem").

Section Attempts.

Variable oracle : Oracle.

(** The valid decision an attempt obtains from the service, if any. *)
Definition decision_of_attempt (attempt : nat) : option AIDecision :=
  match oracle attempt with
  | Normal response =>
      match first_content response with
      | Normal (Some text) =>
          if JS.truthy_string text then parseAndValidateResponse text else None
      | _ => None
      end
  | Throw _ => None
  end.

(** The first valid decision among [remaining] attempts from [attempt] on. *)
Fixpoint first_decision (remaining attempt : nat) : option AIDecision :=
  match remaining with
  | O => None
  | S remaining' =>
      match decision_of_attempt attempt with
      | Some d => Some d
      | None => first_decision remaining' (S attempt)
      end
  end.

End Attempts.

End AISpec.

Module CoreSpec.

Import AI Core.

Section Rules.

Variable cfg : Config.t.
Variable decision : AIDecision.
Variable stats : Ledger.PlayerStats.
Variable memory : Persistence.GameMemory.

Let currentGold : JS.Num := JS.parseInt (Ledger.gold stats).

(** The conditions of the three overriding rules, in the words of the design
    document. *)
Definition lossStreakRule : bool :=
  String.eqb (action decision) "fightMonster"
  && (Config.maxConsecutiveLosses (Config.guardrails cfg)
        <=? Persistence.consecutiveLosses memory).

Definition lowGoldRule : bool :=
  String.eqb (action decision) "fightMonster"
  && JS.lt currentGold (JS.of_Z (Config.minGoldForFight (Config.guardrails cfg))).

Definition unaffordableRule : bool :=
  String.eqb (action decision) "buyItem"
  && match itemId decision with
     | Some wanted =>
         match JS.array_get (Config.itemShop cfg) wanted with
         | Some item => JS.gt (JS.of_Z (Config.cost item)) currentGold
         | None => false
         end
     | None => false
     end.

(** The validator of the design document: the first rule that matches, in
    the order given there, replaces the decision; otherwise the decision
    passes. *)
Definition firstMatchingRule : AIDecision :=
  if lossStreakRule then lossStreakOverride
  else if lowGoldRule then lowGoldOverride
  else if unaffordableRule then unaffordableOverride
  else decision.

End Rules.

End CoreSpec.

Module BlockchainSpec.

Import Eff Blockchain.

(** The sleeps of a trace, in order. *)
Definition sleeps (w : World) : list Z :=
  flat_map (fun ev => match ev with Sleep ms => [ms] | _ => [] end) w.

(** The text contains one of the keywords, as they are spelled. *)
Definition contains_keyword (errorMsg : string) : Prop :=
  Exists (fun keyword => JS.includes errorMsg keyword = true) nonRetryableKeywords.

(** The text contains one of the keywords, whatever the case of its
    letters. *)
Definition mentions_keyword (errorMsg : string) : Prop :=
  Exists (fun keyword => JS.includes (JS.toLowerCase errorMsg) keyword = true)
         nonRetryableKeywords.

Section Attempts.

Variable cfg : Config.t.
Variable chain : Chain.
Variable action : string.
Variable walletIndex : nat.
Variable options : TransactionOptions.

(** What the [try] of an attempt does to the outside, and the error it ends
    with, if any. *)
Definition attempt_events (attempt : nat) : World :=
  (try_block cfg chain action walletIndex options attempt []).2.

Definition thrown_by_attempt (attempt : nat) : option JSError :=
  match (try_block cfg chain action walletIndex options attempt []).1 with
  | Throw e => Some e
  | Normal _ => None
  end.

(** The trace of [count] failed and retried attempts from [attempt] on. *)
Fixpoint retried (attempt count : nat) : World :=
  match count with
  | O => []
  | S count' =>
      attempt_events attempt ++ [Sleep (3000 * Z.of_nat attempt)]
      ++ retried (S attempt) count'
  end.

(** The error the executor raises for a failure it does not retry. *)
Definition raised (e : JSError) : JSError :=
  if isNonRetryableError (error_text e)
  then Error ("Non-retryable error for " ++ capitalize action ++ ": " ++ error_text e)%string
  else Error ("Action " ++ capitalize action ++ " failed after all retries.")%string.

End Attempts.

End BlockchainSpec.

Module TraceSpec.

Import Eff.

Definition is_post (ev : Event) : bool :=
  match ev with HttpPost _ => true | _ => false end.

Definition is_call (ev : Event) : bool :=
  match ev with ContractCall _ _ _ => true | _ => false end.

(** The requests to the decision service and the contract calls of a trace. *)
Definition posts (w : World) : nat := length (List.filter is_post w).
Definition calls (w : World) : nat := length (List.filter is_call w).

(** An event the executor may produce for an action of a wallet: a pause,
    or a call of the contract method that bears the name of the action. *)
Definition executor_event (walletIndex : nat) (action : string) (ev : Event) : Prop :=
  (exists ms, ev = Sleep ms)
  \/ exists argument, ev = ContractCall walletIndex action argument.

(** The five actions the executor knows how to send. *)
Definition sendable : list string :=
  ["createPlayer"; "train"; "fightMonster"; "levelUp"; "buyItem"].

Section Requests.

Variable cfg : Config.t.
Variable oracle : AI.Oracle.
Variable strategicPrompt : string.

(** The attempt ends in the [catch]: the request fails or the answer has no
    [choices]. *)
Definition attempt_throws (attempt : nat) : bool :=
  match oracle attempt with
  | Throw _ => true
  | Normal response =>
      match AI.first_content response with
      | Throw _ => true
      | Normal _ => false
      end
  end.

(** What one attempt that obtains no decision does to the outside. *)
Definition failed_request (attempt : nat) : World :=
  HttpPost strategicPrompt ::
  (if attempt_throws attempt
      && negb (attempt =? Config.aiMaxRetries (Config.aiSettings cfg))%nat
   then [Sleep (2000 * Z.of_nat attempt)]
   else []).

(** The trace of the loop of [getDecision] run for [remaining] attempts at
    most from [attempt] on: it stops at the first valid decision. *)
Fixpoint requests (remaining attempt : nat) : World :=
  match remaining with
  | O => []
  | S remaining' =>
      match AISpec.decision_of_attempt oracle attempt with
      | Some _ => [HttpPost strategicPrompt]
      | None => failed_request attempt ++ requests remaining' (S attempt)
      end
  end.

End Requests.

End TraceSpec.

Module EngineSpec.

Import Eff Engine.

(** The id of the item is a position in the shop. *)
Definition positional (cfg : Config.t) (item : Config.ItemData) : Prop :=
  0 <= Config.id item < Z.of_nat (length (Config.itemShop cfg)).

(** The event is no contract call, or one made from the given wallet. *)
Definition from_wallet (walletIndex : nat) (ev : Event) : Prop :=
  forall i method argument, ev = ContractCall i method argument -> i = walletIndex.

(** The guardrails on fighting hold for a player: fewer consecutive losses
    on record than the configured maximum, and gold not below the
    configured minimum. *)
Definition fit_to_fight (cfg : Config.t) (stats : Ledger.PlayerStats)
    (memory : Persistence.GameMemory) : Prop :=
  Persistence.consecutiveLosses memory < Config.maxConsecutiveLosses (Config.guardrails cfg)
  /\ JS.lt (JS.parseInt (Ledger.gold stats))
           (JS.of_Z (Config.minGoldForFight (Config.guardrails cfg))) = false.

(** The history of every recorded memory is a live array, and no two
    wallets share a history. *)
Definition separate (st : State) : Prop :=
  (forall a m, memories st !! a = Some m ->
     is_Some (heap st !! Persistence.recentActions m))
  /\ (forall a b ma mb,
        a <> b -> memories st !! a = Some ma -> memories st !! b = Some mb ->
        Persistence.recentActions ma <> Persistence.recentActions mb).

(** The read of the player that opens a turn: a call of [players] on the
    contract of the first wallet. *)
Definition player_read (address : string) : Event :=
  ContractCall 0 "players" (AddressArgument address).

Section Turn.

Variable cfg : Config.t.
Variable out : Outside.
Variable personalities : list Personality.WalletPersonality.
Variable personality : Personality.WalletPersonality.

(** What a turn may do to the outside once it has read the player, and
    when it may send a fight; [w] is the trace the turn starts from. *)
Definition turn_effects (st : State) (w evs : World) : Prop :=
  let address := Personality.address personality in
  let walletIndex := slot (chain out) (Personality.findIndex personalities address) in
  (TraceSpec.posts evs <= Config.aiMaxRetries (Config.aiSettings cfg))%nat
  /\ (TraceSpec.calls evs <= Config.maxRetries (Config.behaviorSettings cfg))%nat
  /\ (Config.simulationMode cfg = true -> TraceSpec.calls evs = 0%nat)
  /\ Forall (from_wallet walletIndex) evs
  /\ (forall i argument,
        In (ContractCall i "fightMonster" argument) evs ->
        exists stats,
          (getPlayerStats out address w).1 = Normal stats
          /\ Ledger.exists_ stats = true
          /\ fit_to_fight cfg stats (recall st address).2).

End Turn.

End EngineSpec.

(* ===================================================================== *)
(** * Concrete inputs *)
(* ===================================================================== *)

Module Fixtures.

Definition trainOutcome : Persistence.ActionOutcome :=
  {| Persistence.action := "train"; Persistence.success := true;
     Persistence.goldChange := 15; Persistence.expChange := 10;
     Persistence.timestamp := 0 |}.

Definition winOutcome : Persistence.ActionOutcome :=
  {| Persistence.action := "fightMonster"; Persistence.success := true;
     Persistence.goldChange := 40; Persistence.expChange := 25;
     Persistence.timestamp := 0 |}.

(** The zero-state, on an empty heap. *)
Definition zeroHeap : Persistence.Heap := (Persistence.initializeMemory ∅).1.
Definition zeroMemory : Persistence.GameMemory := (Persistence.initializeMemory ∅).2.

Definition statsOf (gold strength defense : string) : Ledger.PlayerStats :=
  {| Ledger.name := "Bjorn"; Ledger.level := "1"; Ledger.experience := "0";
     Ledger.gold := gold; Ledger.strength := strength; Ledger.defense := defense;
     Ledger.exists_ := true |}.

Definition poorStats : Ledger.PlayerStats := statsOf "0" "12" "9".

Definition replyWithItem : string :=
  JSON.quoted "{'action':'train','reasoning':'rest before the next fight','itemId':1}".

Definition replyWithUnknownAction : string :=
  JSON.quoted "{'action':'dance','reasoning':'why not'}".

(** A service that answers every request with text that is not JSON. *)
Definition chattyOracle : AI.Oracle :=
  fun _ =>
    Eff.Normal
      {| AI.choices :=
           Some [ {| AI.message := Some {| AI.content := Some "Let me think about it." |} |} ] |}.

(** A service that is never reached. *)
Definition deadOracle : AI.Oracle :=
  fun _ => Eff.Throw (Eff.Error "timeout of 30000ms exceeded").

Definition walletAddress : string := "0x71C7656EC7ab88b098defB751B7401B5f6d8976F".

Definition notEnoughGold : Eff.JSError :=
  {| Eff.reason := Some "Not enough gold";
     Eff.message := Some "execution reverted: Not enough gold" |}.

(** A ledger whose contract rejects every purchase for lack of gold. *)
Definition brokeChain : Blockchain.Chain :=
  {| Blockchain.wallets := [walletAddress];
     Blockchain.feeData := Eff.Normal (Some (25 # 1));
     Blockchain.getBalance := fun _ => Eff.Normal 1000;
     Blockchain.submit := fun _ => Blockchain.Rejected notEnoughGold |}.

(** A ledger that never answers in time. *)
Definition slowChain : Blockchain.Chain :=
  {| Blockchain.wallets := [walletAddress];
     Blockchain.feeData := Eff.Normal (Some (25 # 1));
     Blockchain.getBalance := fun _ => Eff.Normal 1000;
     Blockchain.submit := fun _ => Blockchain.Rejected (Eff.Error "timeout") |}.

Definition buySteelArmor : Blockchain.TransactionOptions :=
  {| Blockchain.playerName := None; Blockchain.itemId := Some (JS.of_Z 2) |}.

Definition noOptions : Blockchain.TransactionOptions :=
  {| Blockchain.playerName := None; Blockchain.itemId := None |}.

End Fixtures.

Module MoreFixtures.

(** A service that fails once, then answers with prose, then with a valid
    decision. *)
Definition recoveringOracle : AI.Oracle :=
  fun attempt =>
    match attempt with
    | 1%nat => Eff.Throw (Eff.Error "socket hang up")
    | 2%nat =>
        Eff.Normal
          {| AI.choices :=
               Some [ {| AI.message := Some {| AI.content := Some "Hmm." |} |} ] |}
    | _ =>
        Eff.Normal
          {| AI.choices :=
               Some [ {| AI.message :=
                           Some {| AI.content :=
                                     Some (JSON.quoted
                                             "{'action':'train','reasoning':'steady'}") |} |} ] |}
    end.

(** A node whose fee data cannot be read. *)
Definition blindChain : Blockchain.Chain :=
  {| Blockchain.wallets := [Fixtures.walletAddress];
     Blockchain.feeData := Eff.Throw (Eff.Error "could not detect network");
     Blockchain.getBalance := fun _ => Eff.Normal 1000;
     Blockchain.submit := fun _ => Blockchain.Sent (Eff.Normal None) |}.

(** A rendering of the prompt that names the player. *)
Definition promptOf (stats : Ledger.PlayerStats) (memory : Persistence.GameMemory)
    (personality : Personality.WalletPersonality)
    (prediction : GameLogic.BattlePrediction) (analyses : list GameLogic.ItemROIAnalysis)
  : string :=
  ("You are " ++ Personality.name (Personality.profile personality))%string.

Definition secondWallet : string := "0x2546BcD3c84621e976D8185a91A922aE77ECEc30".

(** The personality of the first wallet. *)
Definition alex : Personality.WalletPersonality :=
  {| Personality.address := Fixtures.walletAddress;
     Personality.profile := Personality.profile_of 0;
     Personality.riskTolerance := "low" |}.

(** A service that always asks to fight. *)
Definition fighterOracle : AI.Oracle :=
  fun _ =>
    Eff.Normal
      {| AI.choices :=
           Some [ {| AI.message :=
                       Some {| AI.content :=
                                 Some (JSON.quoted
                                         "{'action':'fightMonster','reasoning':'glory'}") |} |} ] |}.

(** A ledger that confirms every transaction. *)
Definition readyChain : Blockchain.Chain :=
  {| Blockchain.wallets := [Fixtures.walletAddress];
     Blockchain.feeData := Eff.Normal (Some (25 # 1));
     Blockchain.getBalance := fun _ => Eff.Normal 1000;
     Blockchain.submit :=
       fun _ => Blockchain.Sent (Eff.Normal (Some {| Blockchain.gasUsed := 21000 |})) |}.

(** A player the ledger does not know. *)
Definition unborn : Ledger.PlayerStats :=
  {| Ledger.name := EmptyString; Ledger.level := "0"; Ledger.experience := "0";
     Ledger.gold := "0"; Ledger.strength := "0"; Ledger.defense := "0";
     Ledger.exists_ := false |}.

(** The outside of a turn in which the ledger reports the given player and
    the service asks to fight. *)
Definition arena (stats : Ledger.PlayerStats) : Engine.Outside :=
  {| Engine.feeDataAtStart := Eff.Normal (Some (25 # 1));
     Engine.players := Some (fun _ => Eff.Normal (Some stats));
     Engine.oracle := fighterOracle;
     Engine.chain := readyChain;
     Engine.random := 1 # 2;
     Engine.now := 1700000000000 |}.

(** The engine before its first turn, with no memory on disk. *)
Definition freshState : Engine.State :=
  {| Engine.heap := ∅; Engine.memories := ∅ |}.

End MoreFixtures.

(* ===================================================================== *)
(** * Properties of the memory update *)
(* ===================================================================== *)

Module PersistenceFacts.

Import Persistence PersistenceSpec Fixtures.

Lemma alloc_lookup_new (h : Heap) l :
  (alloc h l).1 !! (alloc h l).2 = Some l.
Proof. unfold alloc; cbn. apply lookup_insert_eq. Qed.

Lemma alloc_lookup_old (h : Heap) l r :
  is_Some (h !! r) -> (alloc h l).1 !! r = h !! r.
Proof.
  intros Hr. unfold alloc; cbn.
  apply lookup_insert_ne. intros Heq.
  apply (is_fresh (dom h)). rewrite Heq. by apply elem_of_dom.
Qed.

(** The array of a memory after an update, and what became of the array the
    input memory points to. *)
Lemma updateMemory_arrays (h : Heap) m o l :
  h !! recentActions m = Some l ->
  let h' := (updateMemory h m o).1 in
  let m' := (updateMemory h m o).2 in
  h' !! recentActions m = Some (l ++ [o])
  /\ h' !! recentActions m' =
       Some (if (30 <? length (l ++ [o]))%nat then slice_last 30 (l ++ [o]) else l ++ [o]).
Proof.
  intros Hl. unfold updateMemory.
  set (r := recentActions (set_totalActions m (totalActions m + 1))).
  assert (Hr : r = recentActions m) by reflexivity.
  set (h1 := <[r := deref h r ++ [o]]> h).
  assert (H1 : h1 !! r = Some (l ++ [o])).
  { unfold h1, deref. rewrite lookup_insert_eq, Hr, Hl. reflexivity. }
  assert (Hd : deref h1 r = l ++ [o]) by (unfold deref; rewrite H1; reflexivity).
  rewrite Hd.
  destruct (30 <? length (l ++ [o]))%nat.
  - pose proof (alloc_lookup_new h1 (slice_last 30 (l ++ [o]))) as Hnew.
    pose proof (alloc_lookup_old h1 (slice_last 30 (l ++ [o])) r) as Hold.
    destruct (alloc h1 (slice_last 30 (l ++ [o]))) as [h2 r2]; cbn in Hnew, Hold.
    rewrite <- Hr.
    split.
    + repeat (destruct (_ : bool); cbn); rewrite Hold; eauto.
    + repeat (destruct (_ : bool); cbn); exact Hnew.
  - rewrite <- Hr.
    split; repeat (destruct (_ : bool); cbn); exact H1.
Qed.

Lemma slice_last_all n (l : list ActionOutcome) :
  (length l <= n)%nat -> slice_last n l = l.
Proof.
  intros H. unfold slice_last.
  replace (length l - n)%nat with 0%nat by lia. reflexivity.
Qed.

Lemma slice_last_length n (l : list ActionOutcome) :
  (length (slice_last n l) <= n)%nat.
Proof. unfold slice_last. rewrite length_drop. lia. Qed.

Lemma slice_last_app n (a b : list ActionOutcome) :
  slice_last n (slice_last n a ++ b) = slice_last n (a ++ b).
Proof.
  unfold slice_last.
  rewrite !drop_app, drop_drop, !length_app, !length_drop.
  destruct (Nat.le_gt_cases (length a) n).
  - f_equal; f_equal; lia.
  - f_equal; f_equal; lia.
Qed.

(** The array of the memory returned by an update holds the last thirty
    entries of the old array followed by the new outcome. *)
Lemma updateMemory_recentActions (h : Heap) m o l :
  h !! recentActions m = Some l ->
  (updateMemory h m o).1 !! recentActions (updateMemory h m o).2
  = Some (slice_last 30 (l ++ [o])).
Proof.
  intros Hl. destruct (updateMemory_arrays h m o l Hl) as [_ H]. rewrite H.
  destruct (30 <? length (l ++ [o]))%nat eqn:E; [reflexivity |].
  apply Nat.ltb_ge in E. rewrite slice_last_all; [reflexivity | exact E].
Qed.

Lemma updateAll_recentActions outcomes : forall (h : Heap) m l,
  h !! recentActions m = Some l ->
  (length l <= 30)%nat ->
  (updateAll h m outcomes).1 !! recentActions (updateAll h m outcomes).2
  = Some (slice_last 30 (l ++ outcomes)).
Proof.
  induction outcomes as [| o rest IH]; intros h m l Hl Hlen; cbn [updateAll].
  - rewrite app_nil_r, slice_last_all by exact Hlen. exact Hl.
  - pose proof (updateMemory_recentActions h m o l Hl) as Hstep.
    destruct (updateMemory h m o) as [h' m']; cbn [fst snd] in Hstep.
    rewrite (IH h' m' _ Hstep (slice_last_length 30 _)).
    rewrite slice_last_app, <- app_assoc. reflexivity.
Qed.

Lemma initializeMemory_recentActions (h : Heap) :
  (initializeMemory h).1 !! recentActions (initializeMemory h).2 = Some [].
Proof. unfold initializeMemory, alloc; cbn. apply lookup_insert_eq. Qed.

(** An update leaves in the array of its input memory the pushed outcome:
    the array the caller still holds has grown by one entry. *)
Lemma updateMemory_pushes_on_input (h : Heap) m o l :
  h !! recentActions m = Some l ->
  deref (updateMemory h m o).1 (recentActions m) = l ++ [o].
Proof.
  intros Hl. destruct (updateMemory_arrays h m o l Hl) as [H _].
  unfold deref. rewrite H. reflexivity.
Qed.

(** C2, on the code: the update is not pure.  Starting from the zero-state
    on an empty heap, the [recentActions] array of the input memory is empty
    before the call and holds the outcome after it. *)
Theorem updateMemory_mutates_input :
  let h0 := (initializeMemory ∅).1 in
  let m := (initializeMemory ∅).2 in
  deref h0 (recentActions m) = []
  /\ deref (updateMemory h0 m trainOutcome).1 (recentActions m) = [trainOutcome].
Proof.
  cbv zeta. split.
  - unfold deref. rewrite initializeMemory_recentActions. reflexivity.
  - rewrite (updateMemory_pushes_on_input _ _ _ [] (initializeMemory_recentActions ∅)).
    reflexivity.
Qed.

(** The counters of the memory an update returns do not depend on the heap;
    they are those of the input memory changed as the outcome says. *)
Lemma updateMemory_fight_won (h : Heap) m o :
  action o = "fightMonster" -> success o = true ->
  consecutiveWins (updateMemory h m o).2 = consecutiveWins m + 1
  /\ consecutiveLosses (updateMemory h m o).2 = 0
  /\ bestWinStreak (updateMemory h m o).2
     = Z.max (bestWinStreak m) (consecutiveWins m + 1).
Proof.
  intros Ha Hs. unfold updateMemory. rewrite Ha, Hs. cbn [String.eqb Ascii.eqb Bool.eqb].
  repeat match goal with
         | |- context [let '(_, _) := (if ?c then _ else _) in _] => destruct c
         | |- context [alloc ?a ?b] => destruct (alloc a b)
         | |- context [if ?c then _ else _] => destruct c
         end; cbn; auto.
Qed.

Lemma updateMemory_fight_lost (h : Heap) m o :
  action o = "fightMonster" -> success o = false ->
  consecutiveWins (updateMemory h m o).2 = 0
  /\ consecutiveLosses (updateMemory h m o).2 = consecutiveLosses m + 1
  /\ bestWinStreak (updateMemory h m o).2 = bestWinStreak m.
Proof.
  intros Ha Hs. unfold updateMemory. rewrite Ha, Hs. cbn [String.eqb Ascii.eqb Bool.eqb].
  repeat match goal with
         | |- context [let '(_, _) := (if ?c then _ else _) in _] => destruct c
         | |- context [alloc ?a ?b] => destruct (alloc a b)
         | |- context [if ?c then _ else _] => destruct c
         end; cbn; auto.
Qed.

Lemma updateMemory_no_fight (h : Heap) m o :
  action o <> "fightMonster" ->
  consecutiveWins (updateMemory h m o).2 = consecutiveWins m
  /\ consecutiveLosses (updateMemory h m o).2 = consecutiveLosses m
  /\ bestWinStreak (updateMemory h m o).2 = bestWinStreak m.
Proof.
  intros Ha. apply String.eqb_neq in Ha. unfold updateMemory. rewrite Ha.
  repeat match goal with
         | |- context [let '(_, _) := (if ?c then _ else _) in _] => destruct c
         | |- context [alloc ?a ?b] => destruct (alloc a b)
         | |- context [if ?c then _ else _] => destruct c
         end; cbn; auto.
Qed.

(** What one update does to the streak counters of a well-formed memory. *)
Lemma streak_step (h : Heap) m o :
  (consecutiveWins m = 0 \/ consecutiveLosses m = 0) ->
  0 <= consecutiveWins m <= bestWinStreak m ->
  0 <= consecutiveLosses m ->
  let m' := (updateMemory h m o).2 in
  (consecutiveWins m' = 0 \/ consecutiveLosses m' = 0)
  /\ (consecutiveWins m' = consecutiveWins m + 1 -> consecutiveLosses m' = 0)
  /\ (consecutiveLosses m' = consecutiveLosses m + 1 -> consecutiveWins m' = 0)
  /\ bestWinStreak m <= bestWinStreak m'
  /\ bestWinStreak m' = Z.max (bestWinStreak m) (consecutiveWins m')
  /\ 0 <= consecutiveWins m' <= bestWinStreak m'
  /\ 0 <= consecutiveLosses m'.
Proof.
  intros Hexcl Hbest Hlosses m'. subst m'.
  destruct (String.eqb_spec (action o) "fightMonster") as [Ha | Ha].
  - destruct (success o) eqn:Hs.
    + destruct (updateMemory_fight_won h m o Ha Hs) as (-> & -> & ->). lia.
    + destruct (updateMemory_fight_lost h m o Ha Hs) as (-> & -> & ->). lia.
  - destruct (updateMemory_no_fight h m o Ha) as (-> & -> & ->). lia.
Qed.

(** C6: an update keeps the streak invariants.  For a memory whose streak
    counters are not both non-zero and whose best streak is at least the
    current run of wins (both streaks being counts, so not negative), the
    updated memory again has one of the two streak counters at zero, the
    counter that did not increment being reset; the best streak does not
    decrease, is the larger of its old value and the new run of wins, and so
    still bounds the run. *)
Theorem updateMemory_streak_invariants (h : Heap) m o :
  (consecutiveWins m = 0 \/ consecutiveLosses m = 0) ->
  0 <= consecutiveWins m <= bestWinStreak m ->
  0 <= consecutiveLosses m ->
  let m' := (updateMemory h m o).2 in
  (consecutiveWins m' = 0 \/ consecutiveLosses m' = 0)
  /\ (consecutiveWins m' = consecutiveWins m + 1 -> consecutiveLosses m' = 0)
  /\ (consecutiveLosses m' = consecutiveLosses m + 1 -> consecutiveWins m' = 0)
  /\ bestWinStreak m <= bestWinStreak m'
  /\ bestWinStreak m' = Z.max (bestWinStreak m) (consecutiveWins m')
  /\ 0 <= consecutiveWins m' <= bestWinStreak m'.
Proof.
  intros Hexcl Hbest Hlosses.
  pose proof (streak_step h m o Hexcl Hbest Hlosses) as H. cbv zeta in *.
  intuition.
Qed.

Lemma updateMemory_streak_invariants_witness :
  let m := (initializeMemory ∅).2 in
  let m' := (updateMemory (initializeMemory ∅).1 m winOutcome).2 in
  (consecutiveWins m' = 0 \/ consecutiveLosses m' = 0)
  /\ (consecutiveWins m' = consecutiveWins m + 1 -> consecutiveLosses m' = 0)
  /\ (consecutiveLosses m' = consecutiveLosses m + 1 -> consecutiveWins m' = 0)
  /\ bestWinStreak m <= bestWinStreak m'
  /\ bestWinStreak m' = Z.max (bestWinStreak m) (consecutiveWins m')
  /\ 0 <= consecutiveWins m' <= bestWinStreak m'.
Proof.
  apply (updateMemory_streak_invariants (initializeMemory ∅).1 (initializeMemory ∅).2 winOutcome).
  - left. reflexivity.
  - cbn. lia.
  - cbn. lia.
Defined.

Lemma maxWinsSeen_lower (h : Heap) m outcomes :
  consecutiveWins m <= maxWinsSeen h m outcomes.
Proof. destruct outcomes; cbn; lia. Qed.

(** Over any run of updates, the best streak is the larger of its starting
    value and the longest run of wins met on the way. *)
Lemma bestWinStreak_updateAll outcomes : forall (h : Heap) m,
  (consecutiveWins m = 0 \/ consecutiveLosses m = 0) ->
  0 <= consecutiveWins m <= bestWinStreak m ->
  0 <= consecutiveLosses m ->
  bestWinStreak (updateAll h m outcomes).2
  = Z.max (bestWinStreak m) (maxWinsSeen h m outcomes).
Proof.
  induction outcomes as [| o rest IH]; intros h m Hexcl Hbest Hlosses;
    cbn [updateAll maxWinsSeen].
  - cbn. lia.
  - pose proof (streak_step h m o Hexcl Hbest Hlosses) as Hstep.
    cbv zeta in Hstep.
    destruct (updateMemory h m o) as [h' m']; cbn [fst snd] in *.
    destruct Hstep as (Hexcl' & Hw & Hl & Hmono & Hmax & Hbound & Hlosses').
    rewrite IH by assumption.
    pose proof (maxWinsSeen_lower h' m' rest). lia.
Qed.

(** From the zero-state, the best streak is the longest run of wins seen. *)
Corollary bestWinStreak_historical_max (h : Heap) outcomes :
  let start := initializeMemory h in
  bestWinStreak (updateAll start.1 start.2 outcomes).2
  = maxWinsSeen start.1 start.2 outcomes.
Proof.
  cbv zeta. rewrite bestWinStreak_updateAll.
  - pose proof (maxWinsSeen_lower (initializeMemory h).1 (initializeMemory h).2 outcomes) as H.
    cbn in *. lia.
  - left; reflexivity.
  - cbn; lia.
  - cbn; lia.
Qed.

Lemma slice_last_long n (l : list ActionOutcome) :
  (n <= length l)%nat -> length (slice_last n l) = n.
Proof. intros H. unfold slice_last. rewrite length_drop. lia. Qed.

(** C7: the history is bounded and keeps the most recent outcomes.  One
    update of a memory whose array holds at most thirty outcomes yields a
    memory whose array holds at most thirty, namely the last thirty of the
    old entries followed by the new one; and any sequence of updates of the
    zero-state leaves exactly the last thirty outcomes applied, oldest
    first. *)
Theorem recentActions_last_thirty :
  (forall (h : Heap) m o l,
      h !! recentActions m = Some l ->
      (length l <= 30)%nat ->
      exists l',
        (updateMemory h m o).1 !! recentActions (updateMemory h m o).2 = Some l'
        /\ (length l' <= 30)%nat
        /\ l' = slice_last 30 (l ++ [o]))
  /\ (forall (h : Heap) outcomes,
         let start := initializeMemory h in
         let final := updateAll start.1 start.2 outcomes in
         final.1 !! recentActions final.2 = Some (slice_last 30 outcomes)
         /\ (length (slice_last 30 outcomes) <= 30)%nat).
Proof.
  split.
  - intros h m o l Hl _. eexists. split; [apply updateMemory_recentActions, Hl |].
    split; [apply slice_last_length | reflexivity].
  - intros h outcomes start final. subst start final. split.
    + rewrite (updateAll_recentActions outcomes _ _ [] (initializeMemory_recentActions h));
        [reflexivity | cbn; lia].
    + apply slice_last_length.
Qed.

Lemma recentActions_last_thirty_witness :
  exists l',
    (updateMemory (initializeMemory ∅).1 (initializeMemory ∅).2 trainOutcome).1
      !! recentActions (updateMemory (initializeMemory ∅).1 (initializeMemory ∅).2 trainOutcome).2
    = Some l'
    /\ (length l' <= 30)%nat
    /\ l' = slice_last 30 ([] ++ [trainOutcome]).
Proof.
  apply (proj1 recentActions_last_thirty (initializeMemory ∅).1 (initializeMemory ∅).2
           trainOutcome []).
  - apply initializeMemory_recentActions.
  - cbn. lia.
Defined.

(** A thousand updates of the zero-state leave thirty entries. *)
Corollary recentActions_after_thousand (h : Heap) outcomes :
  length outcomes = 1000%nat ->
  let start := initializeMemory h in
  let final := updateAll start.1 start.2 outcomes in
  exists l, final.1 !! recentActions final.2 = Some l
            /\ length l = 30%nat /\ l = drop 970 outcomes.
Proof.
  intros Hlen start final. subst start final. exists (slice_last 30 outcomes).
  rewrite (updateAll_recentActions outcomes _ _ [] (initializeMemory_recentActions h))
    by (cbn; lia).
  split; [reflexivity |]. split; [apply slice_last_long; lia |].
  unfold slice_last. rewrite Hlen. reflexivity.
Qed.

(** One won battle applied to the zero-state. *)
Example first_win :
  let m := (updateMemory zeroHeap zeroMemory winOutcome).2 in
  battlesWon m = 1 /\ consecutiveWins m = 1 /\ bestWinStreak m = 1
  /\ goldEarned m = 40 /\ goldSpent m = 0.
Proof. vm_compute. repeat split. Qed.

End PersistenceFacts.

(* ===================================================================== *)
(** * Properties of the predictor and of the investment analyzer *)
(* ===================================================================== *)

Module GameLogicFacts.

Import GameLogic Fixtures.

Lemma div_of_Z (a b : Z) :
  b <> 0 -> JS.div (JS.of_Z a) (JS.of_Z b) = JS.Fin (inject_Z a / inject_Z b)%Q.
Proof.
  intros Hb. unfold JS.div, JS.of_Z.
  destruct (Qeq_bool (inject_Z b) 0) eqn:E; [| reflexivity].
  apply Qeq_bool_eq in E. unfold Qeq in E. cbn in E. lia.
Qed.

(** Clamping a finite value between two finite bounds yields a finite value
    between them. *)
Lemma clamp_finite (lo hi x : Q) :
  (lo <= hi)%Q ->
  exists p, JS.Math_max (JS.Fin lo) (JS.Math_min (JS.Fin hi) (JS.Fin x)) = JS.Fin p
            /\ (lo <= p)%Q /\ (p <= hi)%Q.
Proof.
  intros Hle. unfold JS.Math_min, JS.lt.
  destruct (x ?= hi)%Q eqn:E1.
  - unfold JS.Math_max, JS.lt. destruct (lo ?= hi)%Q eqn:E2.
    + exists lo. split; [reflexivity |]. split; [apply Qle_refl | exact Hle].
    + exists hi. split; [reflexivity |]. split; [exact Hle | apply Qle_refl].
    + exists lo. split; [reflexivity |]. split; [apply Qle_refl | exact Hle].
  - apply Qlt_alt in E1. unfold JS.Math_max, JS.lt. destruct (lo ?= x)%Q eqn:E2.
    + exists lo. split; [reflexivity |]. split; [apply Qle_refl | exact Hle].
    + apply Qlt_alt in E2. exists x. split; [reflexivity |].
      split; apply Qlt_le_weak; assumption.
    + exists lo. split; [reflexivity |]. split; [apply Qle_refl | exact Hle].
  - unfold JS.Math_max, JS.lt. destruct (lo ?= hi)%Q eqn:E2.
    + exists lo. split; [reflexivity |]. split; [apply Qle_refl | exact Hle].
    + exists hi. split; [reflexivity |]. split; [exact Hle | apply Qle_refl].
    + exists lo. split; [reflexivity |]. split; [apply Qle_refl | exact Hle].
Qed.

(** With numeric stats, the probability before clamping is a finite number:
    the only division is by a battle count above five. *)
Lemma winProbability_before_clamp stats memory (s d : Q) :
  JS.parseInt (Ledger.strength stats) = JS.Fin s ->
  JS.parseInt (Ledger.defense stats) = JS.Fin d ->
  exists x,
    winProbability (predictBattleOutcome stats memory)
    = JS.Math_max (lit 5 100) (JS.Math_min (lit 95 100) (JS.Fin x)).
Proof.
  intros Hs Hd. unfold predictBattleOutcome. rewrite Hs, Hd.
  destruct (5 <? Persistence.battlesWon memory + Persistence.battlesLost memory) eqn:Eb.
  - rewrite div_of_Z by (apply Z.ltb_lt in Eb; lia).
    destruct (2 <=? Persistence.consecutiveWins memory);
      destruct (2 <=? Persistence.consecutiveLosses memory);
      cbn -[JS.Math_max JS.Math_min]; eexists; reflexivity.
  - destruct (2 <=? Persistence.consecutiveWins memory);
      destruct (2 <=? Persistence.consecutiveLosses memory);
      cbn -[JS.Math_max JS.Math_min]; eexists; reflexivity.
Qed.

(** C8: for numeric, non-negative strength and defense and non-negative
    battle and streak counts, the predicted win probability is a number
    between 0.05 and 0.95, bounds included. *)
Theorem winProbability_in_range stats memory (s d : Q) :
  JS.parseInt (Ledger.strength stats) = JS.Fin s ->
  JS.parseInt (Ledger.defense stats) = JS.Fin d ->
  (0 <= s)%Q -> (0 <= d)%Q ->
  0 <= Persistence.battlesWon memory ->
  0 <= Persistence.battlesLost memory ->
  0 <= Persistence.consecutiveWins memory ->
  0 <= Persistence.consecutiveLosses memory ->
  exists p,
    winProbability (predictBattleOutcome stats memory) = JS.Fin p
    /\ (5 # 100 <= p)%Q /\ (p <= 95 # 100)%Q.
Proof.
  intros Hs Hd _ _ _ _ _ _.
  destruct (winProbability_before_clamp stats memory s d Hs Hd) as [x ->].
  apply clamp_finite. discriminate.
Qed.

Lemma winProbability_in_range_witness :
  exists p,
    winProbability (predictBattleOutcome (statsOf "100" "15" "15") zeroMemory) = JS.Fin p
    /\ (5 # 100 <= p)%Q /\ (p <= 95 # 100)%Q.
Proof.
  apply (winProbability_in_range (statsOf "100" "15" "15") zeroMemory 15 15);
    try reflexivity; try discriminate.
Defined.

(** With strength and defense summing to zero the ratio is a division by
    zero: the expected win-rate increase of the report is an infinity or
    NaN, never a finite number. *)
Lemma analyzeItemROI_zero_power cfg itemId item stats memory (q : Q) :
  shop_item cfg itemId = Some item ->
  JS.add (JS.parseInt (Ledger.strength stats)) (JS.parseInt (Ledger.defense stats))
  = JS.Fin q ->
  (q == 0)%Q ->
  exists r,
    analyzeItemROI cfg itemId stats memory = Eff.Normal r
    /\ forall p, expectedWinRateIncrease r <> JS.Fin p.
Proof.
  intros Hitem Hpower Hq. unfold analyzeItemROI. rewrite Hitem, Hpower.
  eexists. split; [reflexivity |]. cbn [expectedWinRateIncrease].
  intros p. unfold JS.div, JS.of_Z. cbn [JS.add].
  apply Qeq_bool_iff in Hq. rewrite Hq.
  destruct (_ ?= 0)%Q; cbn; discriminate.
Qed.

(** C3, on the code: no guard protects the division by the current power.
    For a player with strength 0 and defense 0 looking at the Iron Sword,
    the report carries an infinite expected win-rate increase and a payback
    of zero battles. *)
Theorem analyzeItemROI_divides_by_zero :
  exists r,
    analyzeItemROI (Config.CONFIG true) 1 (statsOf "120" "0" "0") zeroMemory = Eff.Normal r
    /\ expectedWinRateIncrease r = JS.PInf
    /\ paybackBattles r = JS.of_Z 0.
Proof. eexists. split; [reflexivity |]. split; reflexivity. Qed.

(** Strength 15 and defense 15, no history: probability 0.55, medium risk. *)
Example predict_fresh_player :
  let prediction := predictBattleOutcome (statsOf "100" "15" "15") zeroMemory in
  JS.strict_eq (winProbability prediction) (lit 55 100) = true
  /\ riskLevel prediction = medium.
Proof. split; reflexivity. Qed.

End GameLogicFacts.

(* ===================================================================== *)
(** * Properties of the oracle adapter *)
(* ===================================================================== *)

Module AIFacts.

Import Eff AI AISpec Fixtures.

Lemma truthy_string_nonempty s : JS.truthy_string s = true -> s <> EmptyString.
Proof. destruct s; [discriminate | discriminate]. Qed.

(** What the checks on a parsed value let through. *)
Lemma validate_parsed_accepts parsed d :
  validate_parsed parsed = Normal (Some d) ->
  exists members,
    parsed = JSON.Obj members
    /\ JSON.own_property members "action" = Some (JSON.Str (action d))
    /\ action d <> EmptyString
    /\ JSON.own_property members "reasoning" = Some (JSON.Str (reasoning d))
    /\ reasoning d <> EmptyString
    /\ match JSON.own_property members "itemId" with
       | None => itemId d = None
       | Some v => exists q, v = JSON.Number q /\ itemId d = Some (JS.Fin q)
       end.
Proof.
  unfold validate_parsed.
  destruct parsed as [| b | q | s | l | members]; cbn; try discriminate.
  intros H. exists members.
  destruct (JSON.own_property members "action") as [[| | | a | |] |]; cbn in H;
    try discriminate; try (destruct b; discriminate); try (destruct (Qeq_bool _ _); discriminate).
  destruct (JS.truthy_string a) eqn:Ea; cbn in H; [| discriminate].
  destruct (JSON.own_property members "reasoning") as [[| | | r | |] |]; cbn in H;
    try discriminate; try (destruct b; discriminate); try (destruct (Qeq_bool _ _); discriminate).
  destruct (JS.truthy_string r) eqn:Er; cbn in H; [| discriminate].
  destruct (JSON.own_property members "itemId") as [[| | n | | |] |]; cbn in H;
    try discriminate; inversion H; subst d; cbn;
    repeat split; eauto using truthy_string_nonempty.
Qed.

(** C4, amended.  A reply that the parse-and-validate step accepts is a
    JSON object with an [action] string; when that action is one of the six
    valid kinds, it is the action of the decision.  The rationale of the
    decision is the non-empty [reasoning] of the reply, and the decision
    has an item id exactly when the reply has a numeric [itemId], whatever
    the action is.  Nothing is said of a reply whose action is none of the
    six kinds. *)
Theorem parseAndValidateResponse_accepts rawResponse d :
  parseAndValidateResponse rawResponse = Some d ->
  exists members a,
    JSON.parse rawResponse = Some (JSON.Obj members)
    /\ JSON.own_property members "action" = Some (JSON.Str a)
    /\ (In a actionKinds -> action d = a /\ In (action d) actionKinds)
    /\ JSON.own_property members "reasoning" = Some (JSON.Str (reasoning d))
    /\ reasoning d <> EmptyString
    /\ match JSON.own_property members "itemId" with
       | None => itemId d = None
       | Some v => exists q, v = JSON.Number q /\ itemId d = Some (JS.Fin q)
       end.
Proof.
  unfold parseAndValidateResponse.
  destruct (JSON.parse rawResponse) as [parsed |]; [| discriminate].
  destruct (validate_parsed parsed) as [[d' |] | e] eqn:E; try discriminate.
  intros H; inversion H; subst d'.
  destruct (validate_parsed_accepts parsed d E)
    as (members & -> & Haction & _ & Hreasoning & Hnonempty & Hitem).
  exists members, (action d). split; [reflexivity |]. split; [exact Haction |].
  split; [intros Hkind; split; [reflexivity | exact Hkind] |].
  split; [exact Hreasoning |]. split; [exact Hnonempty | exact Hitem].
Qed.

Lemma replyWithItem_accepted :
  parseAndValidateResponse replyWithItem
  = Some {| action := "train"; itemId := Some (JS.of_Z 1);
            reasoning := "rest before the next fight" |}.
Proof. vm_compute. reflexivity. Qed.

Lemma parseAndValidateResponse_accepts_witness :
  exists members a,
    JSON.parse replyWithItem = Some (JSON.Obj members)
    /\ JSON.own_property members "action" = Some (JSON.Str a)
    /\ (In a actionKinds -> "train" = a /\ In "train" actionKinds)
    /\ JSON.own_property members "reasoning"
       = Some (JSON.Str "rest before the next fight")
    /\ "rest before the next fight" <> EmptyString
    /\ match JSON.own_property members "itemId" with
       | None => Some (JS.of_Z 1) = None
       | Some v => exists q, v = JSON.Number q /\ Some (JS.of_Z 1) = Some (JS.Fin q)
       end.
Proof.
  apply (parseAndValidateResponse_accepts replyWithItem
           {| action := "train"; itemId := Some (JS.of_Z 1);
              reasoning := "rest before the next fight" |}).
  vm_compute. reflexivity.
Defined.

(** C4 as stated fails: a reply that asks to train and names an item is
    accepted, item included. *)
Lemma accepted_reply_breaks_contract :
  ~ (forall rawResponse d,
        parseAndValidateResponse rawResponse = Some d -> documented_contract d).
Proof.
  intros H. destruct (H _ _ replyWithItem_accepted) as (_ & _ & Hitem).
  cbn in Hitem. discriminate Hitem. discriminate.
Qed.

(** The action of an accepted reply is not checked against the six kinds
    of the [AIDecision] type it is cast to. *)
Example unknown_action_accepted :
  parseAndValidateResponse replyWithUnknownAction
  = Some {| action := "dance"; itemId := None; reasoning := "why not" |}.
Proof. vm_compute. reflexivity. Qed.

Section GetDecisionFacts.

Variable cfg : Config.t.
Variable oracle : Oracle.
Variable strategicPrompt : string.

Let maxRetries : nat := Config.aiMaxRetries (Config.aiSettings cfg).

Local Abbreviation decision_of_attempt := (AISpec.decision_of_attempt oracle).
Local Abbreviation first_decision := (AISpec.first_decision oracle).

(** An attempt never throws: it returns the decision it obtained, or goes
    on, or, on an error met at the last attempt, leaves the loop. *)
Lemma getDecision_attempt_completes (attempt : nat) (w : World) :
  exists step w',
    getDecision_attempt cfg oracle strategicPrompt attempt w = (Normal step, w')
    /\ match decision_of_attempt attempt with
       | Some d => step = Return d
       | None => step = Continue \/ (step = Break /\ attempt = maxRetries)
       end.
Proof.
  unfold getDecision_attempt, decision_of_attempt, try_catch, axios_post, bind,
    emit, lift, sleep, ret.
  fold maxRetries.
  destruct (oracle attempt) as [response | e]; cbn.
  - destruct (first_content response) as [[text |] | e]; cbn.
    + destruct (JS.truthy_string text); cbn.
      * destruct (parseAndValidateResponse text); cbn; eauto.
      * eauto.
    + eauto.
    + destruct (Nat.eqb_spec attempt maxRetries); cbn; eauto 10.
  - destruct (Nat.eqb_spec attempt maxRetries); cbn; eauto 10.
Qed.

Lemma getDecision_loop_completes (remaining : nat) : forall (attempt : nat) (w : World),
  (attempt + remaining = maxRetries + 1)%nat ->
  exists w',
    getDecision_loop cfg oracle strategicPrompt remaining attempt w
    = (Normal (first_decision remaining attempt), w').
Proof.
  induction remaining as [| remaining' IH]; intros attempt w Hsum; cbn [getDecision_loop first_decision].
  - eexists. reflexivity.
  - destruct (getDecision_attempt_completes attempt w) as (step & w1 & Hstep & Hcase).
    unfold bind at 1. rewrite Hstep.
    destruct (decision_of_attempt attempt) as [d |].
    + subst step. eexists. reflexivity.
    + destruct Hcase as [-> | [-> Hlast]].
      * apply IH. lia.
      * assert (remaining' = 0)%nat as -> by (fold maxRetries in Hlast; lia).
        eexists. reflexivity.
Qed.

Lemma first_decision_none (remaining : nat) : forall attempt : nat,
  (forall k, (attempt <= k < attempt + remaining)%nat -> decision_of_attempt k = None) ->
  first_decision remaining attempt = None.
Proof.
  induction remaining as [| remaining' IH]; intros attempt Hnone; cbn; [reflexivity |].
  rewrite (Hnone attempt) by lia. apply IH. intros k Hk. apply Hnone. lia.
Qed.

(** C1: whatever the prompt and whatever the service does at each attempt,
    [getDecision] completes normally with a decision; when none of the
    configured attempts obtains a valid decision, that decision is the
    fallback, whose action is train. *)
Theorem getDecision_always_returns (w : World) :
  exists d w',
    getDecision cfg oracle strategicPrompt w = (Normal d, w')
    /\ ((forall k, (1 <= k <= maxRetries)%nat -> decision_of_attempt k = None) ->
        d = fallback)
    /\ action fallback = "train".
Proof.
  destruct (getDecision_loop_completes maxRetries 1%nat w) as [w' Hloop]; [lia |].
  unfold getDecision, bind. fold maxRetries. rewrite Hloop.
  destruct (first_decision maxRetries 1) as [d |] eqn:E.
  - exists d, w'. split; [reflexivity |]. split; [| reflexivity].
    intros Hnone. rewrite first_decision_none in E; [discriminate |].
    intros k Hk. apply Hnone. lia.
  - exists fallback, w'. repeat split.
Qed.

End GetDecisionFacts.

Lemma getDecision_always_returns_witness :
  exists d w',
    getDecision (Config.CONFIG true) chattyOracle "prompt" [] = (Normal d, w')
    /\ ((forall k, (1 <= k <= 3)%nat ->
           decision_of_attempt chattyOracle k = None) ->
        d = fallback)
    /\ action fallback = "train".
Proof.
  apply (getDecision_always_returns (Config.CONFIG true) chattyOracle "prompt" []).
Defined.

(** Three malformed replies: three requests, no pause, the fallback. *)
Example getDecision_malformed :
  getDecision (Config.CONFIG true) chattyOracle "prompt" []
  = (Normal fallback, [HttpPost "prompt"; HttpPost "prompt"; HttpPost "prompt"]).
Proof. vm_compute. reflexivity. Qed.

(** Three transport errors: pauses of 2000 and 4000 ms, then the fallback. *)
Example getDecision_unreachable :
  getDecision (Config.CONFIG true) deadOracle "prompt" []
  = (Normal fallback,
     [HttpPost "prompt"; Sleep 2000; HttpPost "prompt"; Sleep 4000; HttpPost "prompt"]).
Proof. vm_compute. reflexivity. Qed.

End AIFacts.

(* ===================================================================== *)
(** * Properties of the guardrails *)
(* ===================================================================== *)

Module CoreFacts.

Import AI Core CoreSpec Fixtures.

Section Rules.

Variable cfg : Config.t.
Variable decision : AIDecision.
Variable stats : Ledger.PlayerStats.
Variable memory : Persistence.GameMemory.

Local Abbreviation lossStreakRule := (CoreSpec.lossStreakRule cfg decision memory).
Local Abbreviation lowGoldRule := (CoreSpec.lowGoldRule cfg decision stats).
Local Abbreviation unaffordableRule := (CoreSpec.unaffordableRule cfg decision stats).
Local Abbreviation firstMatchingRule := (CoreSpec.firstMatchingRule cfg decision stats memory).

(** C5: the validator is a total function that applies the first matching
    rule in the documented order, each of the three overrides replacing the
    decision by one whose action is train, and returns any other decision
    unchanged. *)
Theorem validateAIDecision_first_match :
  validateAIDecision cfg decision stats memory = firstMatchingRule
  /\ action lossStreakOverride = "train"
  /\ action lowGoldOverride = "train"
  /\ action unaffordableOverride = "train"
  /\ (lossStreakRule = false -> lowGoldRule = false -> unaffordableRule = false ->
      validateAIDecision cfg decision stats memory = decision).
Proof.
  assert (E : validateAIDecision cfg decision stats memory = firstMatchingRule).
  { unfold validateAIDecision, firstMatchingRule, lossStreakRule, lowGoldRule,
      unaffordableRule, JS.gt.
    destruct (String.eqb (action decision) "fightMonster" && _); [reflexivity |].
    destruct (String.eqb (action decision) "fightMonster" && _); [reflexivity |].
    destruct (String.eqb (action decision) "buyItem"); cbn [andb]; [| reflexivity].
    destruct (itemId decision) as [wanted |]; [| reflexivity].
    destruct (JS.array_get (Config.itemShop cfg) wanted) as [item |]; reflexivity. }
  repeat split; try exact E.
  intros H1 H2 H3. rewrite E. unfold firstMatchingRule. rewrite H1, H2, H3. reflexivity.
Qed.

(** C10: a decision to buy that names no item, or an item the catalogue
    does not have, passes the validator unchanged, whatever the gold. *)
Theorem buyItem_outside_catalogue_passes :
  action decision = "buyItem" ->
  (itemId decision = None
   \/ exists wanted, itemId decision = Some wanted
                     /\ JS.array_get (Config.itemShop cfg) wanted = None) ->
  validateAIDecision cfg decision stats memory = decision.
Proof.
  intros Ha Hitem. unfold validateAIDecision. rewrite Ha. cbn [String.eqb Ascii.eqb Bool.eqb andb].
  destruct Hitem as [-> | (wanted & -> & ->)]; reflexivity.
Qed.

End Rules.

Lemma buyItem_outside_catalogue_passes_witness :
  validateAIDecision (Config.CONFIG true)
    {| action := "buyItem"; itemId := Some (JS.of_Z 7); reasoning := "shiny" |}
    poorStats zeroMemory
  = {| action := "buyItem"; itemId := Some (JS.of_Z 7); reasoning := "shiny" |}.
Proof.
  apply (buyItem_outside_catalogue_passes (Config.CONFIG true)
           {| action := "buyItem"; itemId := Some (JS.of_Z 7); reasoning := "shiny" |}
           poorStats zeroMemory).
  - reflexivity.
  - right. exists (JS.of_Z 7). split; reflexivity.
Defined.

Lemma validateAIDecision_first_match_witness :
  validateAIDecision (Config.CONFIG true)
    {| action := "wait"; itemId := None; reasoning := "patience" |} poorStats zeroMemory
  = {| action := "wait"; itemId := None; reasoning := "patience" |}.
Proof.
  apply (validateAIDecision_first_match (Config.CONFIG true)
           {| action := "wait"; itemId := None; reasoning := "patience" |}
           poorStats zeroMemory); reflexivity.
Defined.

(** The two guardrail cases the design document lists as tests. *)
Example guardrail_loss_streak stats :
  action (validateAIDecision (Config.CONFIG true)
            {| action := "fightMonster"; itemId := None; reasoning := "glory" |}
            stats
            (Persistence.set_consecutiveLosses zeroMemory 5)) = "train".
Proof. reflexivity. Qed.

Example guardrail_unaffordable memory :
  action (validateAIDecision (Config.CONFIG true)
            {| action := "buyItem"; itemId := Some (JS.of_Z 2); reasoning := "armor" |}
            (statsOf "100" "10" "10") memory) = "train".
Proof. reflexivity. Qed.

End CoreFacts.

(* ===================================================================== *)
(** * Properties of the action executor *)
(* ===================================================================== *)

Module BlockchainFacts.

Import Eff Blockchain BlockchainSpec Fixtures.


Lemma contains_keyword_existsb errorMsg :
  contains_keyword errorMsg
  <-> existsb (fun keyword => JS.includes errorMsg keyword) nonRetryableKeywords = true.
Proof.
  unfold contains_keyword. rewrite existsb_exists, Exists_exists. reflexivity.
Qed.

Lemma prefix_toLowerCase (needle hay : string) :
  String.prefix needle hay = true ->
  String.prefix (JS.toLowerCase needle) (JS.toLowerCase hay) = true.
Proof.
  revert hay. induction needle as [| a needle' IH]; intros hay H;
    [destruct hay; reflexivity |].
  destruct hay as [| b hay']; [discriminate |]. cbn in *.
  destruct (ascii_dec a b) as [-> | Hne]; [| discriminate].
  destruct (ascii_dec (JS.lower_ascii b) (JS.lower_ascii b)); [apply IH, H | contradiction].
Qed.

Lemma includes_unfold (hay needle : string) :
  JS.includes hay needle
  = if String.prefix needle hay then true
    else match hay with
         | EmptyString => false
         | String _ r => JS.includes r needle
         end.
Proof. destruct hay; reflexivity. Qed.

Lemma includes_toLowerCase (hay needle : string) :
  JS.includes hay needle = true ->
  JS.includes (JS.toLowerCase hay) (JS.toLowerCase needle) = true.
Proof.
  induction hay as [| c hay' IH]; intros H.
  - rewrite includes_unfold in H. rewrite includes_unfold.
    destruct (String.prefix needle EmptyString) eqn:E; [| discriminate H].
    rewrite (prefix_toLowerCase _ _ E). reflexivity.
  - rewrite includes_unfold in H. rewrite includes_unfold.
    destruct (String.prefix needle (String c hay')) eqn:E.
    + rewrite (prefix_toLowerCase _ _ E). reflexivity.
    + cbn [JS.toLowerCase]. rewrite (IH H).
      destruct (String.prefix (JS.toLowerCase needle) _); reflexivity.
Qed.

(** A text that contains a keyword as it is spelled still contains it once
    lower-cased, the keywords being in lower case. *)
Lemma contains_keyword_mentions errorMsg :
  contains_keyword errorMsg -> mentions_keyword errorMsg.
Proof.
  unfold contains_keyword, mentions_keyword. rewrite !Exists_exists.
  intros (keyword & Hin & Hinc). exists keyword. split; [exact Hin |].
  apply includes_toLowerCase in Hinc.
  assert (Hlower : JS.toLowerCase keyword = keyword).
  { cbn in Hin. repeat (destruct Hin as [<- | Hin]; [reflexivity |]). destruct Hin. }
  rewrite Hlower in Hinc. exact Hinc.
Qed.


Section Retry.

Variable cfg : Config.t.
Variable chain : Chain.
Variable action : string.
Variable walletIndex : nat.
Variable options : TransactionOptions.

Let maxRetries : nat := Config.maxRetries (Config.behaviorSettings cfg).

Local Abbreviation attempt_events :=
  (BlockchainSpec.attempt_events cfg chain action walletIndex options).
Local Abbreviation thrown_by_attempt :=
  (BlockchainSpec.thrown_by_attempt cfg chain action walletIndex options).
Local Abbreviation retried :=
  (BlockchainSpec.retried cfg chain action walletIndex options).
Local Abbreviation raised := (BlockchainSpec.raised action).

Lemma try_block_frame (attempt : nat) (w : World) :
  try_block cfg chain action walletIndex options attempt w
  = ((try_block cfg chain action walletIndex options attempt []).1,
     w ++ attempt_events attempt).
Proof.
  unfold attempt_events, try_block, send, contract_call, bind, emit, sleep, throw, ret, lift.
  destruct (Config.simulationMode cfg); [reflexivity |].
  repeat match goal with
         | |- context [if String.eqb ?a ?b then _ else _] => destruct (String.eqb a b)
         end;
    try (destruct (itemId options));
    try (destruct (submit chain attempt) as [e | | [receipt | e]]);
    cbn; rewrite ?app_nil_r; reflexivity.
Qed.

(** A failed attempt that is neither terminal nor the last one: a pause of
    3000 ms times the attempt number, and the loop goes on. *)
Lemma attempt_retried (attempt : nat) (w : World) e :
  thrown_by_attempt attempt = Some e ->
  isNonRetryableError (error_text e) = false ->
  attempt <> maxRetries ->
  try_catch (try_block cfg chain action walletIndex options attempt)
            (catch_block cfg action attempt) w
  = (Normal Continue, w ++ attempt_events attempt ++ [Sleep (3000 * Z.of_nat attempt)]).
Proof.
  intros Hthrown Hretry Hnotlast. unfold try_catch, thrown_by_attempt in *.
  rewrite try_block_frame.
  destruct (try_block cfg chain action walletIndex options attempt []).1 as [s | e'];
    [discriminate |].
  inversion Hthrown; subst e'.
  unfold catch_block. rewrite Hretry. fold maxRetries.
  destruct (Nat.eqb_spec attempt maxRetries); [contradiction |].
  unfold bind, sleep, emit, ret. rewrite <- app_assoc. reflexivity.
Qed.

(** A failed attempt that is terminal, or the last one: the error raised,
    and nothing more done. *)
Lemma attempt_raises (attempt : nat) (w : World) e :
  thrown_by_attempt attempt = Some e ->
  isNonRetryableError (error_text e) = true \/ attempt = maxRetries ->
  try_catch (try_block cfg chain action walletIndex options attempt)
            (catch_block cfg action attempt) w
  = (Throw (raised e), w ++ attempt_events attempt).
Proof.
  intros Hthrown Hfinal. unfold try_catch, thrown_by_attempt in *.
  rewrite try_block_frame.
  destruct (try_block cfg chain action walletIndex options attempt []).1 as [s | e'];
    [discriminate |].
  inversion Hthrown; subst e'.
  unfold catch_block, raised. fold maxRetries.
  destruct (isNonRetryableError (error_text e)); [reflexivity |].
  destruct Hfinal as [Hfinal | Hfinal]; [discriminate |].
  destruct (Nat.eqb_spec attempt maxRetries); [reflexivity | contradiction].
Qed.

(** Failed attempts that are retried lead to the next attempt. *)
Lemma attempts_after_retried (count : nat) : forall (attempt remaining : nat) (w : World),
  (count < remaining)%nat ->
  (attempt + remaining = maxRetries + 1)%nat ->
  (forall k, (attempt <= k < attempt + count)%nat ->
     exists e', thrown_by_attempt k = Some e'
                /\ isNonRetryableError (error_text e') = false) ->
  attempts cfg chain action walletIndex options remaining attempt w
  = attempts cfg chain action walletIndex options (remaining - count) (attempt + count)
      (w ++ retried attempt count).
Proof.
  induction count as [| count' IH]; intros attempt remaining w Hcount Hsum Hearlier.
  - rewrite Nat.sub_0_r, Nat.add_0_r. cbn [retried]. rewrite app_nil_r. reflexivity.
  - destruct remaining as [| remaining']; [lia |].
    destruct (Hearlier attempt) as (e' & He' & Hretry); [lia |].
    cbn [attempts retried]. unfold bind at 1.
    rewrite (attempt_retried attempt w e' He' Hretry) by lia.
    rewrite (IH (S attempt) remaining') by (try lia; intros k Hk; apply Hearlier; lia).
    replace (S attempt + count')%nat with (attempt + S count')%nat by lia.
    replace (S remaining' - S count')%nat with (remaining' - count')%nat by lia.
    rewrite <- !app_assoc. reflexivity.
Qed.

Lemma attempts_until_raised (count : nat) (attempt remaining : nat) (w : World) e :
  (count < remaining)%nat ->
  (attempt + remaining = maxRetries + 1)%nat ->
  (forall k, (attempt <= k < attempt + count)%nat ->
     exists e', thrown_by_attempt k = Some e'
                /\ isNonRetryableError (error_text e') = false) ->
  thrown_by_attempt (attempt + count) = Some e ->
  isNonRetryableError (error_text e) = true \/ (attempt + count)%nat = maxRetries ->
  attempts cfg chain action walletIndex options remaining attempt w
  = (Throw (raised e),
     w ++ retried attempt count ++ attempt_events (attempt + count)).
Proof.
  intros Hcount Hsum Hearlier Hthrown Hfinal.
  rewrite (attempts_after_retried count attempt remaining w Hcount Hsum Hearlier).
  destruct (remaining - count)%nat as [| left] eqn:E; [lia |].
  cbn [attempts]. unfold bind at 1.
  rewrite (attempt_raises _ _ e Hthrown Hfinal), <- app_assoc. reflexivity.
Qed.






Lemma executeTransaction_live (address : string) (w : World) :
  Config.simulationMode cfg = false ->
  wallets chain !! walletIndex = Some address ->
  (forall w0, performPreFlightChecks cfg chain address w0 = (Normal tt, w0)) ->
  executeTransaction cfg chain action walletIndex options w
  = attempts cfg chain action walletIndex options maxRetries 1%nat w.
Proof.
  intros Hlive Hwallet Hpre. unfold executeTransaction, bind.
  rewrite Hlive, Hwallet, Hpre. reflexivity.
Qed.


End Retry.

(** The rejection of the ledger, spelled with a capital, is terminal: one
    call, no pause. *)
Example capital_rejection_run :
  executeTransaction (Config.CONFIG false) brokeChain "buyItem" 0 buySteelArmor []
  = (Throw (Error "Non-retryable error for BuyItem: Not enough gold"),
     [ContractCall 0 "buyItem" (ItemArgument (JS.of_Z 2))]).
Proof. vm_compute. reflexivity. Qed.


(** The keywords as they are spelled are found case-insensitively: a text
    that contains one contains it once lower-cased. *)
Example nonce_too_low_terminal :
  isNonRetryableError "nonce too low" = true
  /\ isNonRetryableError "Error: Nonce too low (code=NONCE_EXPIRED)" = true
  /\ isNonRetryableError "timeout" = false.
Proof. repeat split. Qed.

(** In simulation mode nothing is sent: a pause of 500 ms and no receipt. *)
Example simulation_run :
  executeTransaction (Config.CONFIG true) slowChain "fightMonster" 0 noOptions []
  = (Normal None, [Sleep 500]).
Proof. reflexivity. Qed.

End BlockchainFacts.

(* ===================================================================== *)
(** * Worked examples of the built-ins *)
(* ===================================================================== *)

Module BuiltinExamples.

Example parseInt_decimal : JS.parseInt "  42px" = JS.of_Z 42.
Proof. reflexivity. Qed.

Example parseInt_hex : JS.parseInt "0x1f" = JS.of_Z 31.
Proof. reflexivity. Qed.

Example parseInt_empty : JS.parseInt "gold" = JS.NaN.
Proof. reflexivity. Qed.

Example includes_lower :
  JS.includes (JS.toLowerCase "Error: Nonce Too Low") "nonce too low" = true.
Proof. reflexivity. Qed.

Example json_decision :
  JSON.parse (JSON.quoted "{'action': 'train', 'reasoning': 'rest a bit', 'itemId': 2}")
  = Some (JSON.Obj [("action", JSON.Str "train");
                    ("reasoning", JSON.Str "rest a bit");
                    ("itemId", JSON.Number (2 # 1))]).
Proof. vm_compute. reflexivity. Qed.

Example parse_accepts :
  AI.parseAndValidateResponse (JSON.quoted "{'action':'fightMonster','reasoning':'glory'}")
  = Some {| AI.action := "fightMonster"; AI.itemId := None; AI.reasoning := "glory" |}.
Proof. vm_compute. reflexivity. Qed.

Example parse_rejects_text : AI.parseAndValidateResponse "I would train today." = None.
Proof. vm_compute. reflexivity. Qed.

Example parse_rejects_item :
  AI.parseAndValidateResponse (JSON.quoted "{'action':'buyItem','reasoning':'r','itemId':'2'}")
  = None.
Proof. vm_compute. reflexivity. Qed.

End BuiltinExamples.

(* ===================================================================== *)
(** * Further properties of the memory update *)
(* ===================================================================== *)

Module PersistenceMore.

Import Persistence Fixtures.

Lemma initializeMemory_recentActions_fresh (h : Heap) :
  (initializeMemory h).1 !! recentActions (initializeMemory h).2 = Some [].
Proof. unfold initializeMemory, alloc; cbn. apply lookup_insert_eq. Qed.

(** Case analysis on every test [updateMemory] makes. *)
Ltac update_cases o :=
  unfold updateMemory;
  repeat match goal with
         | |- context [(30 <? ?n)%nat] => destruct (30 <? n)%nat
         | |- context [alloc ?a ?b] => destruct (alloc a b)
         end;
  (destruct (String.eqb_spec (action o) "fightMonster");
   [destruct (success o) |]);
  destruct (Z.ltb_spec 0 (goldChange o));
  destruct (Z.ltb_spec (goldChange o) 0);
  cbn.

(** X1: the gold ledger of a memory.  An update never decreases
    [goldEarned] or [goldSpent], and moves their difference by exactly the
    gold change of the outcome. *)
Theorem updateMemory_gold_ledger (h : Heap) m o :
  let m' := (updateMemory h m o).2 in
  goldEarned m <= goldEarned m'
  /\ goldSpent m <= goldSpent m'
  /\ goldEarned m' - goldSpent m' = goldEarned m - goldSpent m + goldChange o.
Proof. cbv zeta. update_cases o; lia. Qed.

(** X2: the action and battle counters.  Every update counts one action;
    only a fight changes the battle counters, by one battle that is either
    won or lost; so a memory whose battles are the sum of those won and
    lost stays so. *)
Theorem updateMemory_battle_counters (h : Heap) m o :
  totalBattles m = battlesWon m + battlesLost m ->
  let m' := (updateMemory h m o).2 in
  totalActions m' = totalActions m + 1
  /\ totalBattles m' = battlesWon m' + battlesLost m'
  /\ (action o <> "fightMonster" ->
      totalBattles m' = totalBattles m /\ battlesWon m' = battlesWon m
      /\ battlesLost m' = battlesLost m)
  /\ (action o = "fightMonster" ->
      totalBattles m' = totalBattles m + 1
      /\ battlesWon m' = battlesWon m + (if success o then 1 else 0)
      /\ battlesLost m' = battlesLost m + (if success o then 0 else 1)).
Proof.
  intros Hsum. cbv zeta.
  update_cases o; repeat split; intros; try contradiction; lia.
Qed.

Lemma updateMemory_battle_counters_witness :
  let m' := (updateMemory zeroHeap zeroMemory winOutcome).2 in
  totalActions m' = totalActions zeroMemory + 1
  /\ totalBattles m' = battlesWon m' + battlesLost m'
  /\ (action winOutcome <> "fightMonster" ->
      totalBattles m' = totalBattles zeroMemory /\ battlesWon m' = battlesWon zeroMemory
      /\ battlesLost m' = battlesLost zeroMemory)
  /\ (action winOutcome = "fightMonster" ->
      totalBattles m' = totalBattles zeroMemory + 1
      /\ battlesWon m' = battlesWon zeroMemory + (if success winOutcome then 1 else 0)
      /\ battlesLost m' = battlesLost zeroMemory + (if success winOutcome then 0 else 1)).
Proof.
  apply (updateMemory_battle_counters zeroHeap zeroMemory winOutcome). reflexivity.
Defined.

(** An update touches two arrays at most: the one its input memory points
    to and the one it may allocate.  Any other live array is as before and
    is not the array of the result. *)
Lemma updateMemory_other_array (h : Heap) m o r :
  r <> recentActions m ->
  is_Some (h !! r) ->
  (updateMemory h m o).1 !! r = h !! r /\ r <> recentActions (updateMemory h m o).2.
Proof.
  intros Hne Hlive. unfold updateMemory.
  set (r0 := recentActions (set_totalActions m (totalActions m + 1))).
  assert (Hr0 : r0 = recentActions m) by reflexivity.
  set (h1 := <[r0 := deref h r0 ++ [o]]> h).
  assert (H1 : h1 !! r = h !! r).
  { unfold h1. apply lookup_insert_ne. congruence. }
  assert (Hlive1 : is_Some (h1 !! r)) by (rewrite H1; exact Hlive).
  destruct (30 <? length (deref h1 r0))%nat.
  - assert (Hfresh : fresh (dom h1) <> r).
    { intros Heq. apply (is_fresh (dom h1)). rewrite Heq. by apply elem_of_dom. }
    unfold alloc.
    split.
    + repeat (destruct (_ : bool); cbn [fst snd]); rewrite lookup_insert_ne by exact Hfresh;
        exact H1.
    + repeat (destruct (_ : bool); cbn [fst snd]);
        intros Heq; apply Hfresh; symmetry; exact Heq.
  - split.
    + repeat (destruct (_ : bool); cbn); exact H1.
    + repeat (destruct (_ : bool); cbn); congruence.
Qed.

Lemma updateMemory_result_live (h : Heap) m o :
  is_Some ((updateMemory h m o).1 !! recentActions (updateMemory h m o).2).
Proof.
  unfold updateMemory.
  set (r0 := recentActions (set_totalActions m (totalActions m + 1))).
  set (h1 := <[r0 := deref h r0 ++ [o]]> h).
  assert (H1 : is_Some (h1 !! r0)) by (unfold h1; rewrite lookup_insert_eq; eauto).
  destruct (30 <? length (deref h1 r0))%nat.
  - unfold alloc.
    repeat (destruct (_ : bool); cbn); rewrite lookup_insert_eq; eauto.
  - repeat (destruct (_ : bool); cbn); exact H1.
Qed.

Lemma updateMemory_totalActions (h : Heap) m o :
  totalActions (updateMemory h m o).2 = totalActions m + 1.
Proof. update_cases o; reflexivity. Qed.

Lemma updateMemory_itemsPurchased (h : Heap) m o :
  itemsPurchased (updateMemory h m o).2 = itemsPurchased m.
Proof. update_cases o; reflexivity. Qed.

(** X3: the frame of an update.  Whatever the outcome, the purchased items
    of the memory are kept, and every live array other than the one the
    input memory points to holds what it held. *)
Theorem updateMemory_frame (h : Heap) m o r l :
  h !! r = Some l ->
  r <> recentActions m ->
  (updateMemory h m o).1 !! r = Some l
  /\ itemsPurchased (updateMemory h m o).2 = itemsPurchased m.
Proof.
  intros Hl Hne. split; [| apply updateMemory_itemsPurchased].
  destruct (updateMemory_other_array h m o r Hne) as [H _]; [eauto |].
  rewrite H. exact Hl.
Qed.

Lemma updateMemory_frame_witness :
  let first := initializeMemory ∅ in
  let second := initializeMemory first.1 in
  (updateMemory second.1 first.2 trainOutcome).1 !! recentActions second.2 = Some []
  /\ itemsPurchased (updateMemory second.1 first.2 trainOutcome).2
     = itemsPurchased first.2.
Proof.
  apply (updateMemory_frame (initializeMemory (initializeMemory ∅).1).1
           (initializeMemory ∅).2 trainOutcome
           (recentActions (initializeMemory (initializeMemory ∅).1).2) []).
  - vm_compute. reflexivity.
  - vm_compute. discriminate.
Defined.

Lemma updateAll_other_array outcomes : forall (h : Heap) m r l,
  h !! r = Some l ->
  r <> recentActions m ->
  (updateAll h m outcomes).1 !! r = Some l.
Proof.
  induction outcomes as [| o rest IH]; intros h m r l Hl Hne; cbn [updateAll];
    [exact Hl |].
  destruct (updateMemory_other_array h m o r Hne) as [Hsame Hne']; [eauto |].
  destruct (updateMemory h m o) as [h' m']; cbn [fst snd] in *.
  apply IH; [rewrite Hsame; exact Hl | exact Hne'].
Qed.

(** X4: zero-states do not share their history.  Of two memories
    initialized one after the other, any sequence of updates of the first
    leaves the history of the second empty, and any sequence of updates of
    the second leaves the first with no history of its own. *)
Theorem initializeMemory_independent (h : Heap) outcomes :
  let first := initializeMemory h in
  let second := initializeMemory first.1 in
  deref (updateAll second.1 first.2 outcomes).1 (recentActions second.2) = []
  /\ deref (updateAll second.1 second.2 outcomes).1 (recentActions first.2) = [].
Proof.
  cbv zeta.
  set (r1 := recentActions (initializeMemory h).2).
  set (h1 := (initializeMemory h).1).
  set (r2 := recentActions (initializeMemory h1).2).
  set (h2 := (initializeMemory h1).1).
  assert (H1 : h1 !! r1 = Some []) by apply initializeMemory_recentActions_fresh.
  assert (H2 : h2 !! r2 = Some []) by apply initializeMemory_recentActions_fresh.
  assert (Hne : r2 <> r1).
  { intros Heq. apply (is_fresh (dom h1)). change (r2 ∈ dom h1). rewrite Heq.
    apply elem_of_dom. eauto. }
  assert (H21 : h2 !! r1 = Some []).
  { unfold h2, initializeMemory, alloc; cbn. rewrite lookup_insert_ne; [exact H1 |].
    exact Hne. }
  unfold deref. split.
  - rewrite (updateAll_other_array outcomes h2 _ r2 [] H2 Hne). reflexivity.
  - rewrite (updateAll_other_array outcomes h2 _ r1 [] H21); [reflexivity |].
    intros Heq. apply Hne. symmetry. exact Heq.
Qed.

End PersistenceMore.

(* ===================================================================== *)
(** * Further properties of the predictor and of the analyzer *)
(* ===================================================================== *)

Module GameLogicMore.

Import GameLogic Fixtures.

Import GameLogicFacts.

(** The other figures of a prediction are computed from its probability. *)
Lemma prediction_fields stats memory :
  let r := predictBattleOutcome stats memory in
  expectedGoldChange r
  = JS.sub (JS.mul (winProbability r) (JS.of_Z 40))
           (JS.mul (JS.sub (JS.of_Z 1) (winProbability r)) (JS.of_Z 20))
  /\ expectedXpChange r = JS.add (JS.mul (winProbability r) (JS.of_Z 25)) (JS.of_Z 5)
  /\ riskLevel r
     = (if JS.gt (winProbability r) (lit 7 10) then low
        else if JS.gt (winProbability r) (lit 45 100) then medium else high).
Proof.
  cbv zeta. unfold predictBattleOutcome.
  destruct (5 <? _); destruct (2 <=? Persistence.consecutiveWins memory);
    destruct (2 <=? Persistence.consecutiveLosses memory); repeat split.
Qed.

(** X5: the expected changes of a prediction.  For numeric stats the
    expected gold change lies between -17 and 37 and the expected
    experience change between 6.25 and 28.75, whatever the history. *)
Theorem expected_changes_bounded stats memory (s d : Q) :
  JS.parseInt (Ledger.strength stats) = JS.Fin s ->
  JS.parseInt (Ledger.defense stats) = JS.Fin d ->
  let r := predictBattleOutcome stats memory in
  exists g x,
    expectedGoldChange r = JS.Fin g
    /\ expectedXpChange r = JS.Fin x
    /\ (-17 <= g)%Q /\ (g <= 37)%Q
    /\ (25 # 4 <= x)%Q /\ (x <= 115 # 4)%Q.
Proof.
  intros Hs Hd r. subst r.
  destruct (prediction_fields stats memory) as (Hg & Hx & _).
  destruct (winProbability_before_clamp stats memory s d Hs Hd) as [y Hy].
  destruct (clamp_finite (5 # 100) (95 # 100) y) as (p & Hp & Hlo & Hhi); [discriminate |].
  unfold lit in Hy. rewrite Hp in Hy.
  rewrite Hg, Hx, Hy. cbn [JS.sub JS.mul JS.add JS.neg JS.of_Z].
  do 2 eexists. repeat split; unfold inject_Z; lra.
Qed.

Lemma expected_changes_bounded_witness :
  let r := predictBattleOutcome (statsOf "100" "15" "15") zeroMemory in
  exists g x,
    expectedGoldChange r = JS.Fin g
    /\ expectedXpChange r = JS.Fin x
    /\ (-17 <= g)%Q /\ (g <= 37)%Q
    /\ (25 # 4 <= x)%Q /\ (x <= 115 # 4)%Q.
Proof.
  apply (expected_changes_bounded (statsOf "100" "15" "15") zeroMemory 15 15);
    reflexivity.
Defined.

Ltac compare_facts :=
  repeat match goal with
         | H : (_ ?= _)%Q = Lt |- _ => apply Qlt_alt in H
         | H : (_ ?= _)%Q = Eq |- _ => apply Qeq_alt in H
         | H : (_ ?= _)%Q = Gt |- _ => apply Qgt_alt in H
         end.

(** Clamping is monotone. *)
Lemma clamp_monotone (lo hi x x' p p' : Q) :
  (lo <= hi)%Q -> (x <= x')%Q ->
  JS.Math_max (JS.Fin lo) (JS.Math_min (JS.Fin hi) (JS.Fin x)) = JS.Fin p ->
  JS.Math_max (JS.Fin lo) (JS.Math_min (JS.Fin hi) (JS.Fin x')) = JS.Fin p' ->
  (p <= p')%Q.
Proof.
  intros Hle Hx. unfold JS.Math_min, JS.lt.
  destruct (x ?= hi)%Q eqn:E1; destruct (x' ?= hi)%Q eqn:E2;
    unfold JS.Math_max, JS.lt;
    repeat match goal with
           | |- context [(?a ?= ?b)%Q] => destruct (a ?= b)%Q eqn:?
           end;
    intros Hp Hp'; inversion Hp; inversion Hp'; subst; compare_facts; lra.
Qed.

(** X6: more power never lowers the prediction.  Of two players with the
    same history, the one whose strength plus defense is at least the
    other's is predicted a probability at least as high. *)
Theorem winProbability_monotone stats stats' memory (s d s' d' p p' : Q) :
  JS.parseInt (Ledger.strength stats) = JS.Fin s ->
  JS.parseInt (Ledger.defense stats) = JS.Fin d ->
  JS.parseInt (Ledger.strength stats') = JS.Fin s' ->
  JS.parseInt (Ledger.defense stats') = JS.Fin d' ->
  (s + d <= s' + d')%Q ->
  winProbability (predictBattleOutcome stats memory) = JS.Fin p ->
  winProbability (predictBattleOutcome stats' memory) = JS.Fin p' ->
  (p <= p')%Q.
Proof.
  intros Hs Hd Hs' Hd' Hpower. unfold predictBattleOutcome.
  rewrite Hs, Hd, Hs', Hd'.
  destruct (5 <? Persistence.battlesWon memory + Persistence.battlesLost memory) eqn:Eb;
    [rewrite div_of_Z by (apply Z.ltb_lt in Eb; lia) |];
    destruct (2 <=? Persistence.consecutiveWins memory);
    destruct (2 <=? Persistence.consecutiveLosses memory);
    cbn -[JS.Math_max JS.Math_min];
    apply clamp_monotone; try discriminate; lra.
Qed.

Lemma winProbability_monotone_witness :
  (match winProbability (predictBattleOutcome (statsOf "100" "15" "15") zeroMemory) with
   | JS.Fin p => p
   | _ => 0
   end
   <= match winProbability (predictBattleOutcome (statsOf "100" "25" "15") zeroMemory) with
      | JS.Fin p' => p'
      | _ => 0
      end)%Q.
Proof.
  apply (winProbability_monotone (statsOf "100" "15" "15") (statsOf "100" "25" "15")
           zeroMemory 15 15 25 15); try reflexivity. discriminate.
Defined.

Lemma shop_item_inside cfg (itemId : Z) :
  0 <= itemId < Z.of_nat (length (Config.itemShop cfg)) ->
  exists item,
    nth_error (Config.itemShop cfg) (Z.to_nat itemId) = Some item
    /\ shop_item cfg itemId = Some item.
Proof.
  intros [Hlo Hhi]. unfold shop_item.
  destruct (nth_error (Config.itemShop cfg) (Z.to_nat itemId)) as [item |] eqn:E.
  - exists item. split; [reflexivity |].
    destruct (Z.leb_spec 0 itemId); [reflexivity | lia].
  - apply nth_error_None in E. lia.
Qed.

Lemma shop_item_outside cfg (itemId : Z) :
  itemId < 0 \/ Z.of_nat (length (Config.itemShop cfg)) <= itemId ->
  shop_item cfg itemId = None.
Proof.
  intros H. unfold shop_item. destruct (Z.leb_spec 0 itemId); [| reflexivity].
  apply nth_error_None. lia.
Qed.

(** X7: the analyzer looks the item up by position.  For an id within the
    bounds of the shop it reports on the item at that position, carrying
    that item's own id, name and cost; for any other id it throws the
    not-found error naming the id asked for. *)
Theorem analyzeItemROI_by_position cfg (itemId : Z) stats memory :
  (0 <= itemId < Z.of_nat (length (Config.itemShop cfg)) ->
   exists item r,
     nth_error (Config.itemShop cfg) (Z.to_nat itemId) = Some item
     /\ analyzeItemROI cfg itemId stats memory = Eff.Normal r
     /\ GameLogic.itemId r = Config.id item
     /\ itemName r = Config.name item
     /\ cost r = Config.cost item)
  /\ (itemId < 0 \/ Z.of_nat (length (Config.itemShop cfg)) <= itemId ->
      analyzeItemROI cfg itemId stats memory
      = Eff.Throw (Eff.Error ("Item with ID " ++ string_of_Z itemId
                              ++ " not found in config.")%string)).
Proof.
  split.
  - intros Hin. destruct (shop_item_inside cfg itemId Hin) as (item & Hnth & Hshop).
    unfold analyzeItemROI. rewrite Hshop. eauto 10.
  - intros Hout. unfold analyzeItemROI. rewrite (shop_item_outside cfg itemId Hout).
    reflexivity.
Qed.

Lemma analyzeItemROI_by_position_witness :
  analyzeItemROI (Config.CONFIG true) 3 (statsOf "100" "15" "15") zeroMemory
  = Eff.Throw (Eff.Error "Item with ID 3 not found in config.").
Proof.
  apply (proj2 (analyzeItemROI_by_position (Config.CONFIG true) 3
                  (statsOf "100" "15" "15") zeroMemory)).
  right. cbn. lia.
Defined.

(** The report for a player with positive power, in the exact arithmetic
    of the embedding. *)
Lemma analyzeItemROI_report cfg (itemId : Z) item stats memory (q : Q) :
  shop_item cfg itemId = Some item ->
  JS.add (JS.parseInt (Ledger.strength stats)) (JS.parseInt (Ledger.defense stats))
  = JS.Fin q ->
  (0 < q)%Q ->
  let bonus := Config.strength item + Config.defense item in
  exists r e,
    analyzeItemROI cfg itemId stats memory = Eff.Normal r
    /\ expectedWinRateIncrease r = JS.Fin e
    /\ (e == inject_Z bonus / (2 * q))%Q
    /\ (bonus <= 0 -> paybackBattles r = JS.of_Z 999)
    /\ (0 < bonus ->
        exists n, paybackBattles r = JS.of_Z n /\ (0 < Config.cost item -> 1 <= n)).
Proof.
  intros Hitem Hpower Hq bonus. unfold analyzeItemROI. rewrite Hitem, Hpower.
  assert (Hq0 : Qeq_bool q 0 = false).
  { destruct (Qeq_bool q 0) eqn:E; [| reflexivity]. apply Qeq_bool_eq in E. lra. }
  cbn [JS.add JS.of_Z JS.div JS.sub JS.neg JS.mul lit]. rewrite Hq0.
  cbn [JS.add JS.of_Z JS.div JS.sub JS.neg JS.mul lit].
  set (e := (((q + inject_Z (Config.strength item) + inject_Z (Config.defense item)) / q
              + - inject_Z 1) * (5 # 10))%Q).
  assert (He : (e == inject_Z bonus / (2 * q))%Q).
  { unfold e, bonus. rewrite inject_Z_plus. unfold inject_Z at 3. field. lra. }
  assert (Hsign : forall b : Z, (inject_Z b / (2 * q) * inject_Z 60 == inject_Z b * (30 / q))%Q).
  { intros b. unfold inject_Z at 2. field. lra. }
  assert (Hpos : (0 < 30 / q)%Q).
  { apply Qlt_shift_div_l; [exact Hq | lra]. }
  eexists. exists e. split; [reflexivity |]. cbn [expectedWinRateIncrease paybackBattles].
  split; [reflexivity |]. split; [exact He |].
  unfold JS.gt, JS.lt, JS.of_Z. split.
  - intros Hb.
    destruct (inject_Z 0 ?= e * inject_Z 60)%Q eqn:E; try reflexivity.
    apply Qlt_alt in E. rewrite He, Hsign in E.
    assert (inject_Z bonus <= 0)%Q by (rewrite Zle_Qle in Hb; exact Hb).
    unfold inject_Z in E at 1. nra.
  - intros Hb.
    assert (Hb' : (0 < inject_Z bonus)%Q) by (rewrite Zlt_Qlt in Hb; exact Hb).
    assert (Havg : (0 < e * inject_Z 60)%Q).
    { rewrite He, Hsign. nra. }
    destruct (inject_Z 0 ?= e * inject_Z 60)%Q eqn:E;
      [apply Qeq_alt in E; change (inject_Z 0) with 0%Q in E;
       rewrite <- E in Havg; lra
      | | apply Qgt_alt in E; change (inject_Z 0) with 0%Q in E;
          apply Qlt_not_le in E; apply Qlt_le_weak in Havg; contradiction].
    assert (Hne : Qeq_bool (e * inject_Z 60) 0 = false).
    { destruct (Qeq_bool (e * inject_Z 60) 0) eqn:E0; [| reflexivity].
      apply Qeq_bool_eq in E0. lra. }
    rewrite Hne. cbn [JS.Math_ceil].
    eexists. split; [reflexivity |].
    intros Hcost.
    assert (Hc : (0 < inject_Z (Config.cost item))%Q)
      by (rewrite Zlt_Qlt in Hcost; exact Hcost).
    assert (Hratio : (0 < inject_Z (Config.cost item) / (e * inject_Z 60))%Q).
    { apply Qlt_shift_div_l; [exact Havg | lra]. }
    pose proof (Qle_ceiling (inject_Z (Config.cost item) / (e * inject_Z 60))) as Hceil.
    assert (Hn : (0 < inject_Z (Qceiling (inject_Z (Config.cost item) / (e * inject_Z 60))))%Q)
      by lra.
    change 0%Q with (inject_Z 0) in Hn. rewrite <- Zlt_Qlt in Hn. lia.
Qed.

(** X8: the payback for a player with positive power.  When strength plus
    defense is a positive number, for an item of the shop with non-negative
    bonuses and a positive cost, the analysis completes, the expected
    win-rate increase is a number that is not negative, and the payback is
    a whole number of battles, at least one: never the zero, the infinity
    or the NaN of a player without power.  For an item that adds nothing
    the increase is 0 and the payback is the sentinel 999. *)
Theorem analyzeItemROI_positive_power cfg (itemId : Z) item stats memory (q : Q) :
  shop_item cfg itemId = Some item ->
  JS.add (JS.parseInt (Ledger.strength stats)) (JS.parseInt (Ledger.defense stats))
  = JS.Fin q ->
  (0 < q)%Q ->
  0 <= Config.strength item ->
  0 <= Config.defense item ->
  0 < Config.cost item ->
  exists r e n,
    analyzeItemROI cfg itemId stats memory = Eff.Normal r
    /\ expectedWinRateIncrease r = JS.Fin e
    /\ (0 <= e)%Q
    /\ paybackBattles r = JS.of_Z n
    /\ 1 <= n
    /\ (Config.strength item + Config.defense item = 0 -> (e == 0)%Q /\ n = 999).
Proof.
  intros Hitem Hpower Hq Hs Hd Hcost.
  destruct (analyzeItemROI_report cfg itemId item stats memory q Hitem Hpower Hq)
    as (r & e & Hr & He & Heq & Hnone & Hsome).
  assert (Hbonus : (0 <= inject_Z (Config.strength item + Config.defense item))%Q).
  { change 0%Q with (inject_Z 0). rewrite <- Zle_Qle. lia. }
  assert (Hpositive : (0 <= e)%Q).
  { rewrite Heq. apply Qle_shift_div_l; [lra | lra]. }
  destruct (Z.eq_dec (Config.strength item + Config.defense item) 0) as [Hzero | Hadds].
  - exists r, e, 999. repeat split; try assumption; try lia.
    + apply Hnone. lia.
    + rewrite Heq, Hzero. unfold inject_Z. field. lra.
  - destruct Hsome as (n & Hn & Hone); [lia |].
    exists r, e, n. repeat split; try assumption.
    + apply Hone, Hcost.
    + contradiction.
    + contradiction.
Qed.

Lemma analyzeItemROI_positive_power_witness :
  exists r e n,
    analyzeItemROI (Config.CONFIG true) 1 (statsOf "100" "15" "15") zeroMemory = Eff.Normal r
    /\ expectedWinRateIncrease r = JS.Fin e
    /\ (0 <= e)%Q
    /\ paybackBattles r = JS.of_Z n
    /\ 1 <= n
    /\ (10 + 0 = 0 -> (e == 0)%Q /\ n = 999).
Proof.
  apply (analyzeItemROI_positive_power (Config.CONFIG true) 1
           {| Config.id := 1; Config.name := "Iron Sword"; Config.cost := 100;
              Config.strength := 10; Config.defense := 0 |}
           (statsOf "100" "15" "15") zeroMemory 30).
  - reflexivity.
  - reflexivity.
  - reflexivity.
  - cbn. lia.
  - cbn. lia.
  - cbn. lia.
Defined.

End GameLogicMore.

(* ===================================================================== *)
(** * Further properties of the oracle adapter *)
(* ===================================================================== *)

Module AIMore.

Import Eff AI AISpec TraceSpec Fixtures.

(** X9: which replies are accepted.  A reply that parses to a JSON object
    whose [action] and [reasoning] are non-empty strings and whose [itemId]
    is absent or a number is accepted, whatever else the object holds and
    whatever the action says; the decision carries these three values. *)
Theorem parseAndValidateResponse_accepts_well_formed rawResponse members a r :
  JSON.parse rawResponse = Some (JSON.Obj members) ->
  JSON.own_property members "action" = Some (JSON.Str a) ->
  a <> EmptyString ->
  JSON.own_property members "reasoning" = Some (JSON.Str r) ->
  r <> EmptyString ->
  (JSON.own_property members "itemId" = None
   \/ exists q, JSON.own_property members "itemId" = Some (JSON.Number q)) ->
  parseAndValidateResponse rawResponse
  = Some {| action := a;
            itemId := match JSON.own_property members "itemId" with
                      | Some (JSON.Number q) => Some (JS.Fin q)
                      | _ => None
                      end;
            reasoning := r |}.
Proof.
  intros Hparse Ha Hane Hr Hrne Hitem.
  unfold parseAndValidateResponse, validate_parsed. rewrite Hparse. cbn [property].
  rewrite Ha, Hr.
  destruct a as [| c a']; [contradiction |]. destruct r as [| c' r']; [contradiction |].
  cbn.
  destruct Hitem as [-> | [q ->]]; reflexivity.
Qed.

Lemma parseAndValidateResponse_accepts_well_formed_witness :
  parseAndValidateResponse replyWithUnknownAction
  = Some {| action := "dance"; itemId := None; reasoning := "why not" |}.
Proof.
  apply (parseAndValidateResponse_accepts_well_formed replyWithUnknownAction
           [("action", JSON.Str "dance"); ("reasoning", JSON.Str "why not")]
           "dance" "why not").
  - vm_compute. reflexivity.
  - reflexivity.
  - discriminate.
  - reflexivity.
  - discriminate.
  - left. reflexivity.
Defined.

(** X10: what is rejected without an exception.  A reply that is not JSON,
    or that is JSON but not an object (null, a number, a string, a boolean,
    an array), is answered by [null]. *)
Theorem parseAndValidateResponse_rejects_non_objects rawResponse :
  (forall members, JSON.parse rawResponse <> Some (JSON.Obj members)) ->
  parseAndValidateResponse rawResponse = None.
Proof.
  intros Hnot. unfold parseAndValidateResponse.
  destruct (JSON.parse rawResponse) as [[| b | q | s | l | members] |]; try reflexivity.
  exfalso. apply (Hnot members). reflexivity.
Qed.

Lemma parseAndValidateResponse_rejects_non_objects_witness :
  parseAndValidateResponse "null" = None.
Proof.
  apply (parseAndValidateResponse_rejects_non_objects "null").
  intros members. vm_compute. discriminate.
Defined.

Section GetDecisionTrace.

Variable cfg : Config.t.
Variable oracle : Oracle.
Variable strategicPrompt : string.

Let maxRetries : nat := Config.aiMaxRetries (Config.aiSettings cfg).

Local Abbreviation decision_of_attempt := (AISpec.decision_of_attempt oracle).
Local Abbreviation first_decision := (AISpec.first_decision oracle).
Local Abbreviation attempt_throws := (TraceSpec.attempt_throws oracle).
Local Abbreviation failed_request := (TraceSpec.failed_request cfg oracle strategicPrompt).
Local Abbreviation requests := (TraceSpec.requests cfg oracle strategicPrompt).

Lemma getDecision_attempt_trace (attempt : nat) (w : World) :
  getDecision_attempt cfg oracle strategicPrompt attempt w
  = match decision_of_attempt attempt with
    | Some d => (Normal (Return d), w ++ [HttpPost strategicPrompt])
    | None =>
        (Normal (if attempt_throws attempt && (attempt =? maxRetries)%nat
                 then Break else Continue),
         w ++ failed_request attempt)
    end.
Proof.
  unfold getDecision_attempt, AISpec.decision_of_attempt, TraceSpec.failed_request,
    TraceSpec.attempt_throws, try_catch, axios_post, bind, emit, lift, sleep, ret.
  fold maxRetries.
  destruct (oracle attempt) as [response | e]; cbn.
  - destruct (first_content response) as [[text |] | e]; cbn.
    + destruct (JS.truthy_string text); cbn;
        [destruct (parseAndValidateResponse text); cbn |]; reflexivity.
    + reflexivity.
    + destruct (attempt =? maxRetries)%nat; cbn; rewrite <- ?app_assoc; reflexivity.
  - destruct (attempt =? maxRetries)%nat; cbn; rewrite <- ?app_assoc; reflexivity.
Qed.

Lemma getDecision_loop_trace (remaining : nat) : forall (attempt : nat) (w : World),
  (attempt + remaining = maxRetries + 1)%nat ->
  getDecision_loop cfg oracle strategicPrompt remaining attempt w
  = (Normal (first_decision remaining attempt), w ++ requests remaining attempt).
Proof.
  induction remaining as [| remaining' IH]; intros attempt w Hsum;
    cbn [getDecision_loop AISpec.first_decision TraceSpec.requests].
  - rewrite app_nil_r. reflexivity.
  - unfold bind at 1. rewrite getDecision_attempt_trace.
    destruct (decision_of_attempt attempt) as [d |]; [reflexivity |].
    destruct (attempt_throws attempt && (attempt =? maxRetries)%nat) eqn:E.
    + apply andb_true_iff in E as [_ E]. apply Nat.eqb_eq in E.
      assert (remaining' = 0)%nat as -> by (fold maxRetries in E; lia).
      cbn. rewrite app_nil_r. reflexivity.
    + rewrite IH by lia. rewrite <- app_assoc. reflexivity.
Qed.

(** What [getDecision] returns and does, for any service. *)
Lemma getDecision_trace (w : World) :
  getDecision cfg oracle strategicPrompt w
  = (Normal (default fallback (first_decision maxRetries 1)),
     w ++ requests maxRetries 1).
Proof.
  unfold getDecision, bind. fold maxRetries.
  rewrite getDecision_loop_trace by lia.
  destruct (first_decision maxRetries 1); reflexivity.
Qed.

Lemma posts_app (a b : World) : posts (a ++ b) = (posts a + posts b)%nat.
Proof. unfold posts. rewrite List.filter_app, length_app. reflexivity. Qed.

Lemma posts_failed_request (attempt : nat) : posts (failed_request attempt) = 1%nat.
Proof.
  unfold TraceSpec.failed_request. destruct (_ && _); reflexivity.
Qed.

Lemma requests_until_decision (count : nat) : forall (attempt remaining : nat) d,
  (count < remaining)%nat ->
  (forall j, (attempt <= j < attempt + count)%nat -> decision_of_attempt j = None) ->
  decision_of_attempt (attempt + count) = Some d ->
  first_decision remaining attempt = Some d
  /\ posts (requests remaining attempt) = S count.
Proof.
  induction count as [| count' IH]; intros attempt remaining d Hcount Hnone Hd;
    (destruct remaining as [| remaining']; [lia |]);
    cbn [AISpec.first_decision TraceSpec.requests].
  - rewrite Nat.add_0_r in Hd. rewrite Hd. split; reflexivity.
  - rewrite (Hnone attempt) by lia.
    destruct (IH (S attempt) remaining' d) as [Hfirst Hposts]; try lia.
    + intros j Hj. apply Hnone. lia.
    + replace (S attempt + count')%nat with (attempt + S count')%nat by lia. exact Hd.
    + split; [exact Hfirst |].
      rewrite posts_app, posts_failed_request, Hposts. reflexivity.
Qed.

(** X11: the first valid reply wins.  If attempt k, within the configured
    number, is the first to obtain a valid decision, [getDecision] returns
    that decision after exactly k requests. *)
Theorem getDecision_first_valid (w : World) (k : nat) d :
  (1 <= k <= maxRetries)%nat ->
  (forall j, (1 <= j < k)%nat -> decision_of_attempt j = None) ->
  decision_of_attempt k = Some d ->
  exists w',
    getDecision cfg oracle strategicPrompt w = (Normal d, w')
    /\ posts w' = (posts w + k)%nat.
Proof.
  intros Hk Hnone Hd.
  destruct (requests_until_decision (k - 1) 1 maxRetries d) as [Hfirst Hposts].
  - lia.
  - intros j Hj. apply Hnone. lia.
  - replace (1 + (k - 1))%nat with k by lia. exact Hd.
  - rewrite getDecision_trace, Hfirst. eexists. split; [reflexivity |].
    rewrite posts_app, Hposts. lia.
Qed.

(** An event [getDecision] may produce: the request, or a pause of 2000 ms
    times the number of an attempt that is not the last. *)
Lemma requests_events (remaining : nat) : forall attempt : nat,
  (1 <= attempt)%nat ->
  (attempt + remaining = maxRetries + 1)%nat ->
  (posts (requests remaining attempt) <= remaining)%nat
  /\ Forall (fun ev =>
               ev = HttpPost strategicPrompt
               \/ exists k, (1 <= k < maxRetries)%nat /\ (attempt <= k)%nat
                            /\ ev = Sleep (2000 * Z.of_nat k))
            (requests remaining attempt).
Proof.
  induction remaining as [| remaining' IH]; intros attempt Hone Hsum;
    cbn [TraceSpec.requests].
  - split; [cbn; lia | constructor].
  - destruct (decision_of_attempt attempt).
    + split; [cbn; lia |]. constructor; [left; reflexivity | constructor].
    + destruct (IH (S attempt)) as [Hposts Hall]; [lia | lia |].
      split; [rewrite posts_app, posts_failed_request; lia |].
      apply Forall_app. split.
      * unfold TraceSpec.failed_request. fold maxRetries.
        constructor; [left; reflexivity |].
        destruct (attempt_throws attempt && negb (attempt =? maxRetries)%nat) eqn:E;
          [| constructor].
        apply andb_true_iff in E as [_ E]. apply negb_true_iff, Nat.eqb_neq in E.
        constructor; [| constructor]. right. exists attempt.
        repeat split; try lia; reflexivity.
      * eapply Forall_impl; [| exact Hall]. intros ev [H | (k & Hk & Hge & H)];
          [left; exact H | right; exists k; repeat split; try lia; exact H].
Qed.

Lemma requests_make_no_call (evs : World) :
  Forall (fun ev =>
            ev = HttpPost strategicPrompt
            \/ exists k, (1 <= k < maxRetries)%nat /\ ev = Sleep (2000 * Z.of_nat k))
         evs ->
  calls evs = 0%nat.
Proof.
  unfold calls. induction 1 as [| ev evs' Hev _ IH]; [reflexivity |].
  cbn. destruct Hev as [-> | (k & _ & ->)]; exact IH.
Qed.

(** The effects of [getDecision], for any service. *)
Lemma getDecision_effects (w : World) :
  exists d evs,
    getDecision cfg oracle strategicPrompt w = (Normal d, w ++ evs)
    /\ (posts evs <= maxRetries)%nat
    /\ calls evs = 0%nat
    /\ Forall (fun ev =>
                 ev = HttpPost strategicPrompt
                 \/ exists k, (1 <= k < maxRetries)%nat /\ ev = Sleep (2000 * Z.of_nat k))
              evs.
Proof.
  rewrite getDecision_trace. do 2 eexists. split; [reflexivity |].
  destruct (requests_events maxRetries 1) as [Hposts Hall]; [lia | lia |].
  split; [exact Hposts |].
  assert (Hshape : Forall (fun ev =>
                 ev = HttpPost strategicPrompt
                 \/ exists k, (1 <= k < maxRetries)%nat /\ ev = Sleep (2000 * Z.of_nat k))
              (requests maxRetries 1)).
  { eapply Forall_impl; [| exact Hall]. intros ev [H | (k & Hk & _ & H)]; eauto. }
  split; [apply requests_make_no_call, Hshape | exact Hshape].
Qed.

(** X12: what [getDecision] does to the outside, for any service.  It makes
    at most the configured number of requests, all with the prompt it was
    given; apart from them it only pauses, for 2000 ms times the number of
    an attempt before the last; and it makes no contract call. *)
Theorem getDecision_requests_bounded (w : World) :
  exists d evs,
    getDecision cfg oracle strategicPrompt w = (Normal d, w ++ evs)
    /\ (posts evs <= maxRetries)%nat
    /\ calls evs = 0%nat
    /\ Forall (fun ev =>
                 ev = HttpPost strategicPrompt
                 \/ exists k, (1 <= k < maxRetries)%nat /\ ev = Sleep (2000 * Z.of_nat k))
              evs.
Proof. exact (getDecision_effects w). Qed.

Lemma requests_all_throw (remaining : nat) : forall attempt : nat,
  (attempt + remaining = maxRetries + 1)%nat ->
  (forall k, (attempt <= k <= maxRetries)%nat -> attempt_throws k = true) ->
  BlockchainSpec.sleeps (requests remaining attempt)
  = map (fun k => 2000 * Z.of_nat k) (seq attempt (remaining - 1)).
Proof.
  induction remaining as [| remaining' IH]; intros attempt Hsum Hthrows;
    cbn [TraceSpec.requests]; [reflexivity |].
  assert (Hnone : decision_of_attempt attempt = None).
  { specialize (Hthrows attempt ltac:(lia)).
    unfold TraceSpec.attempt_throws in Hthrows. unfold AISpec.decision_of_attempt.
    destruct (oracle attempt) as [response | e]; [| reflexivity].
    destruct (first_content response); [discriminate | reflexivity]. }
  rewrite Hnone. unfold TraceSpec.failed_request. fold maxRetries.
  rewrite (Hthrows attempt) by lia. cbn [andb].
  destruct (Nat.eqb_spec attempt maxRetries) as [Hlast | Hnotlast]; cbn [negb].
  - assert (remaining' = 0)%nat as -> by lia. reflexivity.
  - destruct remaining' as [| remaining'']; [lia |].
    cbn [app BlockchainSpec.sleeps flat_map].
    change (flat_map _ (requests (S remaining'') (S attempt)))
      with (BlockchainSpec.sleeps (requests (S remaining'') (S attempt))).
    rewrite IH by (try lia; intros k Hk; apply Hthrows; lia).
    replace (S (S remaining'') - 1)%nat with (S (S remaining'' - 1)) by lia.
    reflexivity.
Qed.

Lemma requests_none_throws (remaining : nat) : forall attempt : nat,
  (forall k, (attempt <= k < attempt + remaining)%nat ->
     attempt_throws k = false /\ decision_of_attempt k = None) ->
  requests remaining attempt = repeat (HttpPost strategicPrompt) remaining.
Proof.
  induction remaining as [| remaining' IH]; intros attempt Hquiet;
    cbn [TraceSpec.requests repeat]; [reflexivity |].
  destruct (Hquiet attempt) as [Hno Hnone]; [lia |].
  rewrite Hnone. unfold TraceSpec.failed_request. rewrite Hno. cbn [andb app].
  rewrite IH; [reflexivity |]. intros k Hk. apply Hquiet. lia.
Qed.

(** X13: when [getDecision] pauses.  If every attempt fails with an
    exception (the request fails, or the answer has no [choices]), the
    pauses are 2000 ms, 4000 ms and so on after every attempt but the last.
    If every attempt gets an answer that is empty or malformed, the
    requests follow each other without any pause.  In both cases the
    fallback is returned. *)
Theorem getDecision_backoff (w : World) :
  ((forall k, (1 <= k <= maxRetries)%nat -> attempt_throws k = true) ->
   exists evs,
     getDecision cfg oracle strategicPrompt w = (Normal fallback, w ++ evs)
     /\ BlockchainSpec.sleeps evs
        = map (fun k => 2000 * Z.of_nat k) (seq 1 (maxRetries - 1)))
  /\ ((forall k, (1 <= k <= maxRetries)%nat ->
         attempt_throws k = false /\ decision_of_attempt k = None) ->
      getDecision cfg oracle strategicPrompt w
      = (Normal fallback, w ++ repeat (HttpPost strategicPrompt) maxRetries)).
Proof.
  split.
  - intros Hthrows. rewrite getDecision_trace.
    assert (Hnone : first_decision maxRetries 1 = None).
    { apply (AIFacts.first_decision_none cfg). intros k Hk.
      specialize (Hthrows k ltac:(lia)).
      unfold TraceSpec.attempt_throws in Hthrows. unfold AISpec.decision_of_attempt.
      destruct (oracle k) as [response | e]; [| reflexivity].
      destruct (first_content response); [discriminate | reflexivity]. }
    rewrite Hnone. eexists. split; [reflexivity |].
    apply requests_all_throw; [lia |]. intros k Hk. apply Hthrows. lia.
  - intros Hquiet. rewrite getDecision_trace.
    rewrite (AIFacts.first_decision_none cfg)
      by (intros k Hk; apply Hquiet; lia).
    rewrite requests_none_throws; [reflexivity |].
    intros k Hk. apply Hquiet. lia.
Qed.

End GetDecisionTrace.

Lemma getDecision_first_valid_witness :
  exists w',
    getDecision (Config.CONFIG true) MoreFixtures.recoveringOracle "prompt" []
    = (Normal {| action := "train"; itemId := None; reasoning := "steady" |}, w')
    /\ posts w' = (posts [] + 3)%nat.
Proof.
  apply (getDecision_first_valid (Config.CONFIG true) MoreFixtures.recoveringOracle
           "prompt" [] 3).
  - cbn. lia.
  - intros j Hj. assert (j = 1 \/ j = 2)%nat as [-> | ->] by lia; reflexivity.
  - vm_compute. reflexivity.
Defined.

Lemma getDecision_backoff_witness :
  exists evs,
    getDecision (Config.CONFIG true) deadOracle "prompt" [] = (Normal fallback, [] ++ evs)
    /\ BlockchainSpec.sleeps evs = map (fun k => 2000 * Z.of_nat k) (seq 1 (3 - 1)).
Proof.
  apply (proj1 (getDecision_backoff (Config.CONFIG true) deadOracle "prompt" [])).
  intros k Hk. reflexivity.
Defined.

End AIMore.

(* ===================================================================== *)
(** * Further properties of the guardrails *)
(* ===================================================================== *)

Module CoreMore.

Import AI Core Fixtures.

Section Guardrails.

Variable cfg : Config.t.
Variable stats : Ledger.PlayerStats.
Variable memory : Persistence.GameMemory.

Let gold : JS.Num := JS.parseInt (Ledger.gold stats).

(** The validator returns its input or one of its three overrides. *)
Lemma validateAIDecision_cases decision :
  let v := validateAIDecision cfg decision stats memory in
  v = decision \/ v = lossStreakOverride \/ v = lowGoldOverride
  \/ v = unaffordableOverride.
Proof.
  cbv zeta. unfold validateAIDecision.
  destruct (String.eqb (action decision) "fightMonster" && _); [auto |].
  destruct (String.eqb (action decision) "fightMonster" && _); [auto |].
  destruct (if String.eqb (action decision) "buyItem" then itemId decision else None);
    [| auto].
  destruct (JS.array_get _ _); [| auto].
  destruct (JS.lt _ _); auto.
Qed.

(** X14: validating twice changes nothing more.  The decision the
    validator returns passes the validator unchanged, for the same stats
    and memory. *)
Theorem validateAIDecision_idempotent decision :
  validateAIDecision cfg (validateAIDecision cfg decision stats memory) stats memory
  = validateAIDecision cfg decision stats memory.
Proof.
  destruct (validateAIDecision_cases decision) as [H | [H | [H | H]]];
    rewrite H; [exact H | reflexivity ..].
Qed.

(** X15: what the validator never lets through.  A decision it returns
    that asks to fight comes with fewer consecutive losses than the
    configured maximum and with gold that is not below the configured
    minimum; a decision it returns that asks to buy an item of the
    catalogue comes with gold that is not below the cost of that item; and
    whenever it changes the decision, the result is to train, with no
    item. *)
Theorem validateAIDecision_safe decision :
  let v := validateAIDecision cfg decision stats memory in
  (action v = "fightMonster" ->
   Persistence.consecutiveLosses memory
     < Config.maxConsecutiveLosses (Config.guardrails cfg)
   /\ JS.lt gold (JS.of_Z (Config.minGoldForFight (Config.guardrails cfg))) = false)
  /\ (action v = "buyItem" ->
      forall wanted item,
        itemId v = Some wanted ->
        JS.array_get (Config.itemShop cfg) wanted = Some item ->
        JS.lt gold (JS.of_Z (Config.cost item)) = false)
  /\ (v = decision \/ (action v = "train" /\ itemId v = None)).
Proof.
  cbv zeta. unfold validateAIDecision. fold gold.
  assert (Hoverride : forall v,
            action v = "train" -> itemId v = None ->
            (action v = "fightMonster" ->
             Persistence.consecutiveLosses memory
               < Config.maxConsecutiveLosses (Config.guardrails cfg)
             /\ JS.lt gold (JS.of_Z (Config.minGoldForFight (Config.guardrails cfg))) = false)
            /\ (action v = "buyItem" ->
                forall wanted item,
                  itemId v = Some wanted ->
                  JS.array_get (Config.itemShop cfg) wanted = Some item ->
                  JS.lt gold (JS.of_Z (Config.cost item)) = false)
            /\ (v = decision \/ (action v = "train" /\ itemId v = None))).
  { intros v Ha Hi.
    split; [intros H; rewrite Ha in H; discriminate H |].
    split; [intros H; rewrite Ha in H; discriminate H |].
    right. split; assumption. }
  destruct (String.eqb_spec (action decision) "fightMonster") as [Hf | Hf]; cbn [andb].
  - destruct (Z.leb_spec (Config.maxConsecutiveLosses (Config.guardrails cfg))
                (Persistence.consecutiveLosses memory)) as [Hl | Hl];
      [apply Hoverride; reflexivity |].
    destruct (JS.lt gold _) eqn:Eg; [apply Hoverride; reflexivity |].
    rewrite Hf. cbn [String.eqb Ascii.eqb Bool.eqb].
    split; [intros _; split; [exact Hl | reflexivity] |].
    split; [rewrite Hf; discriminate | left; reflexivity].
  - destruct (String.eqb_spec (action decision) "buyItem") as [Hb | Hb].
    + destruct (itemId decision) as [wanted |] eqn:Ei.
      * destruct (JS.array_get (Config.itemShop cfg) wanted) as [item |] eqn:Eg.
        -- destruct (JS.lt gold (JS.of_Z (Config.cost item))) eqn:El;
             [apply Hoverride; reflexivity |].
           split; [intros H; contradiction |].
           split; [| left; reflexivity].
           intros _ wanted' item' Hw Hg. congruence.
        -- split; [intros H; contradiction |].
           split; [| left; reflexivity].
           intros _ wanted' item' Hw Hg. congruence.
      * split; [intros H; contradiction |].
        split; [| left; reflexivity].
        intros _ wanted' item' Hw Hg. congruence.
    + split; [intros H; contradiction |].
      split; [intros H; contradiction | left; reflexivity].
Qed.

Lemma array_get_of_Z (k : Z) :
  JS.array_get (Config.itemShop cfg) (JS.of_Z k) = GameLogic.shop_item cfg k.
Proof.
  unfold JS.array_get, JS.of_Z, GameLogic.shop_item. rewrite Qfloor_Z.
  assert (E : Qeq_bool (inject_Z k) (inject_Z k) = true) by (apply Qeq_bool_iff; reflexivity).
  rewrite E. cbn [andb]. reflexivity.
Qed.

(** X16: the analyzer and the validator agree on what can be afforded.  A
    purchase of an item the analyzer reports as affordable passes the
    validator unchanged; when the gold is a number, a purchase of an item
    the analyzer reports as not affordable is turned into training. *)
Theorem affordable_purchase_passes (k : Z) memory' r text :
  GameLogic.analyzeItemROI cfg k stats memory' = Eff.Normal r ->
  let purchase := {| action := "buyItem"; itemId := Some (JS.of_Z k); reasoning := text |} in
  (GameLogic.isAffordable r = true ->
   validateAIDecision cfg purchase stats memory = purchase)
  /\ (GameLogic.isAffordable r = false ->
      (exists g, gold = JS.Fin g) ->
      action (validateAIDecision cfg purchase stats memory) = "train").
Proof.
  intros Hr purchase. subst purchase.
  unfold GameLogic.analyzeItemROI in Hr.
  unfold validateAIDecision. cbn [action itemId String.eqb Ascii.eqb Bool.eqb andb].
  rewrite array_get_of_Z.
  destruct (GameLogic.shop_item cfg k) as [item |]; [| discriminate].
  inversion Hr; subst r; clear Hr. cbn [GameLogic.isAffordable]. fold gold.
  unfold JS.ge, JS.of_Z. split.
  - intros Hge. destruct gold; cbv beta iota in Hge; try discriminate Hge;
      apply negb_true_iff in Hge; rewrite Hge; reflexivity.
  - intros Hge [g Hg]. rewrite Hg in *. cbv beta iota in Hge.
    apply negb_false_iff in Hge. rewrite Hge. reflexivity.
Qed.

End Guardrails.

Lemma validateAIDecision_safe_witness :
  Persistence.consecutiveLosses zeroMemory
    < Config.maxConsecutiveLosses (Config.guardrails (Config.CONFIG false))
  /\ JS.lt (JS.parseInt (Ledger.gold (statsOf "100" "12" "9")))
           (JS.of_Z (Config.minGoldForFight (Config.guardrails (Config.CONFIG false))))
     = false.
Proof.
  apply (proj1 (validateAIDecision_safe (Config.CONFIG false) (statsOf "100" "12" "9")
                  zeroMemory
                  {| action := "fightMonster"; itemId := None; reasoning := "glory" |})).
  reflexivity.
Defined.

Lemma affordable_purchase_passes_witness :
  validateAIDecision (Config.CONFIG true)
    {| action := "buyItem"; itemId := Some (JS.of_Z 0); reasoning := "shield" |}
    (statsOf "100" "15" "15") zeroMemory
  = {| action := "buyItem"; itemId := Some (JS.of_Z 0); reasoning := "shield" |}.
Proof.
  refine (proj1 (affordable_purchase_passes (Config.CONFIG true) (statsOf "100" "15" "15")
                   zeroMemory 0 zeroMemory _ "shield" _) _).
  - reflexivity.
  - reflexivity.
Defined.

End CoreMore.

(* ===================================================================== *)
(** * Further properties of the action executor *)
(* ===================================================================== *)

Module BlockchainMore.

Import Eff Blockchain BlockchainSpec TraceSpec Fixtures MoreFixtures BlockchainFacts.

Lemma toLowerCase_app (a b : string) :
  JS.toLowerCase (a ++ b)%string = (JS.toLowerCase a ++ JS.toLowerCase b)%string.
Proof.
  induction a as [| c a' IH]; simpl; [reflexivity | rewrite IH; reflexivity].
Qed.

Lemma prefix_app (needle hay suffix : string) :
  String.prefix needle hay = true -> String.prefix needle (hay ++ suffix)%string = true.
Proof.
  revert hay. induction needle as [| c needle' IH]; intros hay H.
  - destruct (hay ++ suffix)%string; reflexivity.
  - destruct hay as [| c' hay']; [discriminate |]. simpl in *.
    destruct (ascii_dec c c'); [apply IH, H | discriminate].
Qed.

Lemma includes_app_r (hay after needle : string) :
  JS.includes hay needle = true -> JS.includes (hay ++ after)%string needle = true.
Proof.
  induction hay as [| c hay' IH]; intros H; rewrite includes_unfold in H.
  - destruct (String.prefix needle EmptyString) eqn:E; [| discriminate H].
    destruct needle; [| discriminate E].
    rewrite includes_unfold. destruct (EmptyString ++ after)%string; reflexivity.
  - destruct (String.prefix needle (String c hay')) eqn:E.
    + pose proof (prefix_app _ _ after E) as E'. rewrite includes_unfold, E'. reflexivity.
    + specialize (IH H).
      change (String c hay' ++ after)%string with (String c (hay' ++ after)%string).
      rewrite includes_unfold. cbv beta iota. rewrite IH.
      destruct (String.prefix needle (String c (hay' ++ after))); reflexivity.
Qed.

Lemma includes_app (before hay after needle : string) :
  JS.includes hay needle = true ->
  JS.includes (before ++ hay ++ after)%string needle = true.
Proof.
  intros H. induction before as [| c before' IH].
  - change (EmptyString ++ hay ++ after)%string with (hay ++ after)%string.
    apply includes_app_r, H.
  - change (String c before' ++ hay ++ after)%string
      with (String c (before' ++ hay ++ after)%string).
    rewrite includes_unfold. cbv beta iota. rewrite IH.
    destruct (String.prefix needle _); reflexivity.
Qed.

(** X17: wrapping keeps an error terminal.  A text the classifier finds
    non-retryable stays non-retryable with any text put before and after
    it, as when an error message is wrapped into another. *)
Theorem isNonRetryableError_wrapped (before errorMsg after : string) :
  isNonRetryableError errorMsg = true ->
  isNonRetryableError (before ++ errorMsg ++ after)%string = true.
Proof.
  unfold isNonRetryableError. rewrite !existsb_exists.
  intros (keyword & Hin & Hinc). exists keyword. split; [exact Hin |].
  rewrite !toLowerCase_app. apply includes_app. exact Hinc.
Qed.

Lemma isNonRetryableError_wrapped_witness :
  isNonRetryableError
    ("Non-retryable error for Train: " ++ "Nonce too low" ++ " (attempt 1)")%string
  = true.
Proof.
  apply (isNonRetryableError_wrapped "Non-retryable error for Train: " "Nonce too low"
           " (attempt 1)").
  reflexivity.
Defined.

(** X18: simulation mode sends nothing.  With at least one attempt
    configured, in simulation mode the executor pauses 500 ms once and
    returns no receipt, whatever the action, the wallet index and the state
    of the ledger: the pre-flight checks are skipped and no contract method
    is called. *)
Theorem simulation_sends_nothing cfg chain action walletIndex options (w : World) :
  Config.simulationMode cfg = true ->
  (1 <= Config.maxRetries (Config.behaviorSettings cfg))%nat ->
  executeTransaction cfg chain action walletIndex options w = (Normal None, w ++ [Sleep 500]).
Proof.
  intros Hsim Hretries. unfold executeTransaction, bind at 1. rewrite Hsim.
  destruct (Config.maxRetries (Config.behaviorSettings cfg)) as [| n]; [lia |].
  cbn [ret attempts]. unfold bind at 1, try_catch, try_block. rewrite Hsim.
  reflexivity.
Qed.

Lemma simulation_sends_nothing_witness :
  executeTransaction (Config.CONFIG true) brokeChain "dance" 7 noOptions
    [HttpPost "prompt"]
  = (Normal None, [HttpPost "prompt"; Sleep 500]).
Proof.
  apply (simulation_sends_nothing (Config.CONFIG true) brokeChain "dance" 7%nat noOptions
           [HttpPost "prompt"]).
  - reflexivity.
  - cbn. lia.
Defined.

Lemma calls_app (a b : World) : calls (a ++ b) = (calls a + calls b)%nat.
Proof. unfold calls. rewrite List.filter_app, length_app. reflexivity. Qed.

(** X19: no contract call before the pre-flight checks have passed.  In
    live mode, a run of the executor that calls the contract at all has
    found the wallet, has found the gas price not above the configured
    maximum, and has read the balance of the wallet without error. *)
Theorem no_call_before_preflight cfg chain action walletIndex options (w : World) :
  Config.simulationMode cfg = false ->
  (calls w < calls (executeTransaction cfg chain action walletIndex options w).2)%nat ->
  exists address balance,
    wallets chain !! walletIndex = Some address
    /\ JS.gt (currentGwei (analyzeGas cfg chain))
             (JS.of_Z (Config.maxGasGwei (Config.guardrails cfg))) = false
    /\ getBalance chain address = Normal balance.
Proof.
  intros Hlive. unfold executeTransaction, bind at 1. rewrite Hlive.
  destruct (wallets chain !! walletIndex) as [address |];
    [| intros H; unfold calls in H; cbn in H; exfalso; lia].
  unfold performPreFlightChecks.
  destruct (JS.gt _ _) eqn:Hgas; [intros H; unfold calls in H; cbn in H; exfalso; lia |].
  unfold bind, lift. destruct (getBalance chain address) as [balance | e] eqn:Hbalance;
    [| intros H; unfold calls in H; cbn in H; exfalso; lia].
  intros _. exists address, balance. repeat split. exact Hbalance.
Qed.

Lemma no_call_before_preflight_witness :
  exists address balance,
    wallets brokeChain !! 0%nat = Some address
    /\ JS.gt (currentGwei (analyzeGas (Config.CONFIG false) brokeChain))
             (JS.of_Z (Config.maxGasGwei (Config.guardrails (Config.CONFIG false)))) = false
    /\ getBalance brokeChain address = Normal balance.
Proof.
  apply (no_call_before_preflight (Config.CONFIG false) brokeChain "buyItem" 0%nat
           buySteelArmor []).
  - reflexivity.
  - vm_compute. lia.
Defined.

(** X20: a gas price that cannot be read stops the transaction.  When the
    read of the fee data fails, the gas analysis reports 999 gwei and asks
    to wait; with a configured maximum below 999 gwei the executor, in live
    mode, then raises an error before doing anything. *)
Theorem unreadable_gas_aborts cfg chain action walletIndex options address (w : World) e :
  Config.simulationMode cfg = false ->
  wallets chain !! walletIndex = Some address ->
  feeData chain = Throw e ->
  Config.maxGasGwei (Config.guardrails cfg) < 999 ->
  shouldWait (analyzeGas cfg chain) = true
  /\ exists err, executeTransaction cfg chain action walletIndex options w = (Throw err, w).
Proof.
  intros Hlive Hwallet Hfee Hmax. unfold analyzeGas. rewrite Hfee. split; [reflexivity |].
  unfold executeTransaction, bind at 1. rewrite Hlive, Hwallet.
  unfold performPreFlightChecks, analyzeGas. rewrite Hfee. cbn [currentGwei].
  assert (Hgt : JS.gt (JS.of_Z 999) (JS.of_Z (Config.maxGasGwei (Config.guardrails cfg))) = true).
  { unfold JS.gt, JS.lt, JS.of_Z, Qcompare, inject_Z. cbn [Qnum Qden].
    rewrite !Z.mul_1_r, (proj2 (Z.compare_lt_iff _ _) Hmax). reflexivity. }
  rewrite Hgt. eexists. reflexivity.
Qed.

Lemma unreadable_gas_aborts_witness :
  shouldWait (analyzeGas (Config.CONFIG false) blindChain) = true
  /\ exists err,
       executeTransaction (Config.CONFIG false) blindChain "train" 0 noOptions []
       = (Throw err, []).
Proof.
  apply (unreadable_gas_aborts (Config.CONFIG false) blindChain "train" 0%nat noOptions
           walletAddress [] (Error "could not detect network")).
  - reflexivity.
  - reflexivity.
  - reflexivity.
  - cbn. lia.
Defined.

Section Shape.

Variable cfg : Config.t.
Variable chain : Chain.
Variable action : string.
Variable walletIndex : nat.
Variable options : TransactionOptions.

Let maxRetries : nat := Config.maxRetries (Config.behaviorSettings cfg).

Local Abbreviation attempt_events :=
  (BlockchainSpec.attempt_events cfg chain action walletIndex options).

Ltac executor_events :=
  repeat first
    [ apply Forall_nil
    | apply Forall_cons;
      [ first [left; eexists; reflexivity | right; eexists; reflexivity] |] ].

(** What one [try] does: at most one call, of the method named by the
    action, and none for an action outside the five. *)
Lemma attempt_events_shape (attempt : nat) :
  Forall (executor_event walletIndex action) (attempt_events attempt)
  /\ (calls (attempt_events attempt) <= 1)%nat
  /\ (~ In action sendable \/ Config.simulationMode cfg = true ->
      calls (attempt_events attempt) = 0%nat).
Proof.
  unfold BlockchainSpec.attempt_events, try_block, send, contract_call,
    bind, emit, sleep, throw, ret, lift.
  destruct (Config.simulationMode cfg).
  { cbn. split; [| split]; [executor_events | unfold calls; cbn; lia | reflexivity]. }
  destruct (String.eqb_spec action "createPlayer") as [-> | H1];
    [| destruct (String.eqb_spec action "train") as [-> | H2];
       [| destruct (String.eqb_spec action "fightMonster") as [-> | H3];
          [| destruct (String.eqb_spec action "levelUp") as [-> | H4];
             [| destruct (String.eqb_spec action "buyItem") as [-> | H5]]]]];
    try (destruct (itemId options));
    try (destruct (submit chain attempt) as [e | | [receipt | e]]);
    cbn; (split; [| split];
          [ executor_events
          | unfold calls; cbn; lia
          | intros [Hout | Hsim]; [| discriminate Hsim];
            try reflexivity; exfalso; apply Hout; cbn; tauto ]).
Qed.

(** One iteration of the loop adds the events of its [try] and, when the
    failure is retried, a pause. *)
Lemma iteration_shape (attempt : nat) (w : World) :
  exists pause,
    (try_catch (try_block cfg chain action walletIndex options attempt)
               (catch_block cfg action attempt) w).2
    = w ++ attempt_events attempt ++ pause
    /\ Forall (executor_event walletIndex action) pause
    /\ calls pause = 0%nat.
Proof.
  unfold try_catch. rewrite try_block_frame.
  destruct (try_block cfg chain action walletIndex options attempt []).1 as [step | e].
  - exists []. rewrite app_nil_r. repeat split. constructor.
  - unfold catch_block.
    destruct (isNonRetryableError (error_text e)).
    { exists []. rewrite app_nil_r. repeat split. constructor. }
    destruct (attempt =? Config.maxRetries (Config.behaviorSettings cfg))%nat.
    { exists []. rewrite app_nil_r. repeat split. constructor. }
    exists [Sleep (3000 * Z.of_nat attempt)].
    unfold bind, sleep, emit, ret. cbn [fst snd]. rewrite <- app_assoc.
    repeat split. executor_events.
Qed.

Lemma attempts_shape (remaining : nat) : forall (attempt : nat) (w : World),
  exists evs,
    (attempts cfg chain action walletIndex options remaining attempt w).2 = w ++ evs
    /\ Forall (executor_event walletIndex action) evs
    /\ (calls evs <= remaining)%nat
    /\ (~ In action sendable \/ Config.simulationMode cfg = true -> calls evs = 0%nat).
Proof.
  induction remaining as [| remaining' IH]; intros attempt w.
  - exists []. cbn. rewrite app_nil_r. repeat split; [constructor | lia].
  - destruct (iteration_shape attempt w) as (pause & Htrace & Hpause & Hnone).
    destruct (attempt_events_shape attempt) as (Hshape & Hone & Hout).
    cbn [attempts]. unfold bind at 1.
    destruct (try_catch (try_block cfg chain action walletIndex options attempt)
                        (catch_block cfg action attempt) w) as [[step | e] w1].
    + cbn [snd] in Htrace. subst w1.
      assert (Hdone :
        exists evs, w ++ attempt_events attempt ++ pause = w ++ evs
          /\ Forall (executor_event walletIndex action) evs
          /\ (calls evs <= S remaining')%nat
          /\ (~ In action sendable \/ Config.simulationMode cfg = true -> calls evs = 0%nat)).
      { exists (attempt_events attempt ++ pause).
        rewrite calls_app, Hnone. repeat split.
        - apply Forall_app. split; assumption.
        - lia.
        - intros Hno. rewrite (Hout Hno). reflexivity. }
      destruct step as [| | receipt]; [| exact Hdone | exact Hdone].
      destruct (IH (S attempt) (w ++ attempt_events attempt ++ pause))
        as (evs & Hevs & Hall & Hcalls & Hnocall).
      exists ((attempt_events attempt ++ pause) ++ evs).
      rewrite Hevs, !calls_app, Hnone, <- !app_assoc. repeat split.
      * rewrite !Forall_app. repeat split; assumption.
      * lia.
      * intros Hno. rewrite (Hout Hno), (Hnocall Hno). reflexivity.
    + cbn [snd] in Htrace. subst w1. exists (attempt_events attempt ++ pause).
      rewrite calls_app, Hnone. cbn [snd]. repeat split.
      * apply Forall_app. split; assumption.
      * lia.
      * intros Hno. rewrite (Hout Hno). reflexivity.
Qed.

(** The effects of a run of the executor. *)
Lemma executeTransaction_effects (w : World) :
  exists evs,
    (executeTransaction cfg chain action walletIndex options w).2 = w ++ evs
    /\ Forall (executor_event walletIndex action) evs
    /\ (calls evs <= maxRetries)%nat
    /\ (~ In action sendable \/ Config.simulationMode cfg = true -> calls evs = 0%nat).
Proof.
  assert (Hstop : forall e : JSError,
            exists evs, (@Throw (option TransactionReceipt) e, w).2 = w ++ evs
              /\ Forall (executor_event walletIndex action) evs
              /\ (calls evs <= maxRetries)%nat
              /\ (~ In action sendable \/ Config.simulationMode cfg = true -> calls evs = 0%nat)).
  { intros e. exists []. cbn. rewrite app_nil_r. repeat split; [constructor | lia]. }
  pose proof (attempts_shape maxRetries 1%nat w) as Hrun.
  unfold executeTransaction, bind at 1.
  destruct (Config.simulationMode cfg); [exact Hrun |].
  destruct (wallets chain !! walletIndex) as [address |]; [| apply Hstop].
  unfold performPreFlightChecks.
  destruct (JS.gt _ _); [apply Hstop |].
  unfold bind, lift. destruct (getBalance chain address) as [balance | e];
    [exact Hrun | apply Hstop].
Qed.

(** X21: what a run of the executor can do to the outside.  In either
    mode and whatever the ledger answers, a run only adds events to the
    trace; each is a pause or a call, from the wallet of the given index, of
    the contract method that bears the name of the action; the calls are at
    most as many as the configured attempts; and an action outside the five
    the executor knows is never sent. *)
Theorem executeTransaction_calls_bounded (w : World) :
  exists evs,
    (executeTransaction cfg chain action walletIndex options w).2 = w ++ evs
    /\ Forall (executor_event walletIndex action) evs
    /\ (calls evs <= maxRetries)%nat
    /\ (~ In action sendable -> calls evs = 0%nat).
Proof.
  destruct (executeTransaction_effects w) as (evs & Htrace & Hall & Hcalls & Hnone).
  exists evs. repeat split; try assumption. intros Hout. apply Hnone. left. exact Hout.
Qed.

End Shape.

Lemma retried_pauses cfg chain action walletIndex options (count : nat) :
  forall attempt : nat,
    (forall k, BlockchainSpec.attempt_events cfg chain action walletIndex options k = []) ->
    BlockchainSpec.retried cfg chain action walletIndex options attempt count
    = map (fun k => Sleep (3000 * Z.of_nat k)) (seq attempt count).
Proof.
  induction count as [| count' IH]; intros attempt Hquiet; cbn [retried seq map];
    [reflexivity |].
  rewrite Hquiet, IH by exact Hquiet. reflexivity.
Qed.

(** X22: a purchase without an item id is retried to exhaustion.  In live
    mode, once the pre-flight checks have passed, the action [buyItem] with
    no [itemId] in its options never reaches the contract: every one of the
    n+1 configured attempts fails before the call, the executor pauses
    3000 ms times the attempt number after each of the first n, and raises
    the error of exhausted retries. *)
Theorem buyItem_without_itemId_exhausts_retries
    cfg chain walletIndex options address (w : World) (n : nat) :
  Config.simulationMode cfg = false ->
  wallets chain !! walletIndex = Some address ->
  (forall w0, performPreFlightChecks cfg chain address w0 = (Normal tt, w0)) ->
  Config.maxRetries (Config.behaviorSettings cfg) = S n ->
  itemId options = None ->
  executeTransaction cfg chain "buyItem" walletIndex options w
  = (Throw (Error "Action BuyItem failed after all retries."),
     w ++ map (fun k => Sleep (3000 * Z.of_nat k)) (seq 1 n)).
Proof.
  intros Hlive Hwallet Hpre Hmax Hnone.
  rewrite (executeTransaction_live cfg chain "buyItem" walletIndex options address w
             Hlive Hwallet Hpre).
  assert (Hthrown : forall k,
            BlockchainSpec.thrown_by_attempt cfg chain "buyItem" walletIndex options k
            = Some (Error "itemId is required for buyItem")).
  { intros k. unfold BlockchainSpec.thrown_by_attempt, try_block, send.
    rewrite Hlive, Hnone. reflexivity. }
  assert (Hquiet : forall k,
            BlockchainSpec.attempt_events cfg chain "buyItem" walletIndex options k = []).
  { intros k. unfold BlockchainSpec.attempt_events, try_block, send.
    rewrite Hlive, Hnone. reflexivity. }
  rewrite (attempts_until_raised cfg chain "buyItem" walletIndex options n 1
             (Config.maxRetries (Config.behaviorSettings cfg)) w
             (Error "itemId is required for buyItem")).
  - rewrite Hquiet, app_nil_r, (retried_pauses _ _ _ _ _ n 1 Hquiet). reflexivity.
  - lia.
  - lia.
  - intros k _. eexists. split; [apply Hthrown | reflexivity].
  - apply Hthrown.
  - right. lia.
Qed.

Lemma buyItem_without_itemId_exhausts_retries_witness :
  executeTransaction (Config.CONFIG false) brokeChain "buyItem" 0 noOptions []
  = (Throw (Error "Action BuyItem failed after all retries."),
     [Sleep 3000; Sleep 6000]).
Proof.
  apply (buyItem_without_itemId_exhausts_retries (Config.CONFIG false) brokeChain 0%nat
           noOptions walletAddress [] 2%nat).
  - reflexivity.
  - reflexivity.
  - intros w0. reflexivity.
  - reflexivity.
  - reflexivity.
Defined.

End BlockchainMore.

(* ===================================================================== *)
(** * Properties of the personalities and of the strategic analysis *)
(* ===================================================================== *)

Module PersonalityMore.

Import Personality Fixtures MoreFixtures.

Lemma findIndex_from_first (personalities : list WalletPersonality) :
  forall (k : Z) (i : nat) (p : WalletPersonality),
    personalities !! i = Some p ->
    (forall j q, (j < i)%nat -> personalities !! j = Some q -> address q <> address p) ->
    findIndex_from k personalities (address p) = k + Z.of_nat i.
Proof.
  induction personalities as [| q rest IH]; intros k i p Hp Hfirst; [discriminate |].
  cbn [findIndex_from]. destruct i as [| i'].
  - cbn in Hp. inversion Hp; subst q. rewrite String.eqb_refl. lia.
  - destruct (String.eqb_spec (address q) (address p)) as [Heq | _].
    + exfalso. apply (Hfirst 0%nat q); [lia | reflexivity | exact Heq].
    + rewrite (IH (k + 1) i' p Hp); [lia |].
      intros j q' Hj Hq'. apply (Hfirst (S j) q'); [lia | exact Hq'].
Qed.

Lemma profile_of_alternates (i : nat) :
  name (profile_of i) = if Nat.even i then "Alex" else "Morgan".
Proof.
  unfold profile_of. cbn [length profiles].
  pose proof (Nat.div_mod_eq i 2) as Hi.
  pose proof (Nat.mod_upper_bound i 2) as Hlt.
  assert (Heven : Nat.even i = Nat.even (i mod 2)).
  { rewrite Hi at 1. rewrite Nat.add_comm. apply Nat.even_add_mul_2. }
  rewrite Heven.
  destruct (i mod 2)%nat as [| [| r]]; [reflexivity | reflexivity | lia].
Qed.

(** X23: personalities follow the wallets.  The personality generated for
    the wallet at position i carries that wallet's address and the profile
    of Alex or of Morgan as i is even or odd; when no two wallets share an
    address, looking that address up among the personalities gives back
    i, so a turn acts with the wallet its personality was made for. *)
Theorem personalities_follow_wallets (wallets : list string) (i : nat) (wallet : string) :
  base.NoDup wallets ->
  wallets !! i = Some wallet ->
  exists p,
    generatePersonalities wallets !! i = Some p
    /\ address p = wallet
    /\ name (profile p) = (if Nat.even i then "Alex" else "Morgan")
    /\ findIndex (generatePersonalities wallets) wallet = Z.of_nat i.
Proof.
  intros Hnodup Hwallet.
  assert (Hlookup : forall j, generatePersonalities wallets !! j
            = (fun a => {| address := a; profile := profile_of j;
                           riskTolerance := risk (profile_of j) |}) <$> wallets !! j).
  { intros j. unfold generatePersonalities. apply list_lookup_imap. }
  eexists. split; [rewrite Hlookup, Hwallet; reflexivity |].
  split; [reflexivity |]. split; [apply profile_of_alternates |].
  unfold findIndex.
  change wallet with (address {| address := wallet; profile := profile_of i;
                                 riskTolerance := risk (profile_of i) |}).
  rewrite (findIndex_from_first _ 0 i); [lia | rewrite Hlookup, Hwallet; reflexivity |].
  intros j q Hj Hq. rewrite Hlookup in Hq.
  destruct (wallets !! j) as [other |] eqn:Hother; [| discriminate].
  cbv [fmap option_fmap option_map] in Hq. injection Hq as <-.
  cbn [address]. intros Heq. subst other.
  pose proof (NoDup_lookup wallets j i wallet Hnodup Hother Hwallet). lia.
Qed.

Lemma personalities_follow_wallets_witness :
  exists p,
    generatePersonalities [walletAddress; secondWallet] !! 1%nat = Some p
    /\ address p = secondWallet
    /\ name (profile p) = (if Nat.even 1 then "Alex" else "Morgan")
    /\ findIndex (generatePersonalities [walletAddress; secondWallet]) secondWallet
       = Z.of_nat 1.
Proof.
  apply (personalities_follow_wallets [walletAddress; secondWallet] 1%nat secondWallet).
  - apply base.NoDup_cons_2; [| apply base.NoDup_cons_2; [| apply base.NoDup_nil_2]].
    + intros Hin. apply elem_of_cons in Hin as [Heq | Hin];
        [discriminate Heq | exact (not_elem_of_nil _ Hin)].
    + apply not_elem_of_nil.
  - reflexivity.
Defined.

End PersonalityMore.

Module StrategyMore.

Import Eff GameLogic Strategy Fixtures MoreFixtures GameLogicMore.

Section Analysis.

Variable cfg : Config.t.
Variable buildEnhancedPrompt :
  Ledger.PlayerStats -> Persistence.GameMemory -> Personality.WalletPersonality ->
  BattlePrediction -> list ItemROIAnalysis -> string.
Variable stats : Ledger.PlayerStats.
Variable memory : Persistence.GameMemory.

Local Abbreviation positional := (EngineSpec.positional cfg).

Lemma analyze_each_positional (items : list Config.ItemData) :
  Forall positional items ->
  exists analyses,
    analyze_each cfg stats memory items = Normal analyses
    /\ length analyses = length items.
Proof.
  induction 1 as [| item rest Hitem _ IH]; [exists []; split; reflexivity |].
  destruct IH as (analyses & Hrest & Hlen).
  destruct (shop_item_inside cfg (Config.id item) Hitem) as (found & _ & Hshop).
  cbn [analyze_each]. unfold analyzeItemROI. rewrite Hshop, Hrest.
  eexists. split; [reflexivity |]. cbn. rewrite Hlen. reflexivity.
Qed.

Lemma analyze_each_stray (good rest : list Config.ItemData) (bad : Config.ItemData) :
  Forall positional good ->
  ~ positional bad ->
  analyze_each cfg stats memory (good ++ bad :: rest)
  = Throw (Error ("Item with ID " ++ string_of_Z (Config.id bad)
                  ++ " not found in config.")%string).
Proof.
  intros Hgood Hbad. induction Hgood as [| item good' Hitem _ IH].
  - cbn [app analyze_each]. unfold analyzeItemROI.
    rewrite shop_item_outside; [reflexivity |]. unfold EngineSpec.positional in Hbad. lia.
  - destruct (shop_item_inside cfg (Config.id item) Hitem) as (found & _ & Hshop).
    cbn [app analyze_each]. rewrite IH. unfold analyzeItemROI. rewrite Hshop. reflexivity.
Qed.

(** X24: the strategic analysis needs the ids of the shop to be positions.
    When the id of every item of the shop is a position in the shop, the
    analysis completes, its prompt built from one report per item; when
    some item has another id, the analysis throws the not-found error for
    the first such item, and no prompt is built. *)
Theorem getStrategicAnalysis_needs_positional_ids
    (personality : Personality.WalletPersonality) :
  (Forall positional (Config.itemShop cfg) ->
   exists analyses,
     length analyses = length (Config.itemShop cfg)
     /\ getStrategicAnalysis cfg buildEnhancedPrompt stats memory personality
        = Normal (buildEnhancedPrompt stats memory personality
                    (predictBattleOutcome stats memory) analyses))
  /\ (forall good bad rest,
        Config.itemShop cfg = good ++ bad :: rest ->
        Forall positional good ->
        ~ positional bad ->
        getStrategicAnalysis cfg buildEnhancedPrompt stats memory personality
        = Throw (Error ("Item with ID " ++ string_of_Z (Config.id bad)
                        ++ " not found in config.")%string)).
Proof.
  unfold getStrategicAnalysis. split.
  - intros Hall. destruct (analyze_each_positional _ Hall) as (analyses & Hrun & Hlen).
    exists analyses. rewrite Hrun. split; [exact Hlen | reflexivity].
  - intros good bad rest Hshop Hgood Hbad.
    rewrite Hshop, (analyze_each_stray good rest bad Hgood Hbad). reflexivity.
Qed.

End Analysis.

Lemma getStrategicAnalysis_needs_positional_ids_witness :
  exists analyses,
    length analyses = length (Config.itemShop (Config.CONFIG true))
    /\ getStrategicAnalysis (Config.CONFIG true) promptOf (statsOf "100" "15" "15")
         zeroMemory
         {| Personality.address := walletAddress;
            Personality.profile := Personality.profile_of 0;
            Personality.riskTolerance := "low" |}
       = Normal (promptOf (statsOf "100" "15" "15") zeroMemory
                   {| Personality.address := walletAddress;
                      Personality.profile := Personality.profile_of 0;
                      Personality.riskTolerance := "low" |}
                   (predictBattleOutcome (statsOf "100" "15" "15") zeroMemory) analyses).
Proof.
  apply (proj1 (getStrategicAnalysis_needs_positional_ids (Config.CONFIG true) promptOf
                  (statsOf "100" "15" "15") zeroMemory
                  {| Personality.address := walletAddress;
                     Personality.profile := Personality.profile_of 0;
                     Personality.riskTolerance := "low" |})).
  repeat constructor; cbn; lia.
Defined.

End StrategyMore.

(* ===================================================================== *)
(** * Properties of a turn of the engine *)
(* ===================================================================== *)

Module EngineMore.

Import Eff Engine EngineSpec TraceSpec Fixtures MoreFixtures.

Lemma executor_event_no_post walletIndex action (evs : World) :
  Forall (executor_event walletIndex action) evs -> posts evs = 0%nat.
Proof.
  unfold posts. induction 1 as [| ev evs' Hev _ IH]; [reflexivity |].
  destruct Hev as [[ms ->] | [argument ->]]; exact IH.
Qed.

Lemma executor_event_from_wallet walletIndex action (evs : World) :
  Forall (executor_event walletIndex action) evs -> Forall (from_wallet walletIndex) evs.
Proof.
  apply Forall_impl. intros ev [[ms ->] | [argument ->]] i method a Heq;
    [discriminate Heq | inversion Heq; reflexivity].
Qed.

Lemma executor_event_method walletIndex action (evs : World) i method argument :
  Forall (executor_event walletIndex action) evs ->
  In (ContractCall i method argument) evs ->
  method = action.
Proof.
  intros Hall Hin. rewrite Forall_forall in Hall.
  destruct (Hall _ Hin) as [[ms Heq] | [a Heq]]; [discriminate Heq |].
  inversion Heq. reflexivity.
Qed.

Lemma no_call_from_wallet walletIndex (evs : World) :
  calls evs = 0%nat -> Forall (from_wallet walletIndex) evs.
Proof.
  unfold calls. induction evs as [| ev evs' IH]; intros Hnone; [constructor |].
  destruct ev; cbn in Hnone; try discriminate Hnone;
    (constructor; [intros i method a Heq; discriminate Heq | apply IH, Hnone]).
Qed.

Lemma no_call_not_in (evs : World) i method argument :
  calls evs = 0%nat -> ~ In (ContractCall i method argument) evs.
Proof.
  unfold calls. induction evs as [| ev evs' IH]; intros Hnone Hin; [exact Hin |].
  destruct Hin as [-> | Hin]; [discriminate Hnone |].
  destruct ev; cbn in Hnone; try discriminate Hnone; exact (IH Hnone Hin).
Qed.

(** A decision to fight that comes out of the validator was allowed by the
    two guardrails on fighting. *)
Lemma validated_fight cfg decision stats memory :
  AI.action (Core.validateAIDecision cfg decision stats memory) = "fightMonster" ->
  fit_to_fight cfg stats memory.
Proof.
  unfold Core.validateAIDecision, fit_to_fight.
  destruct (String.eqb_spec (AI.action decision) "fightMonster") as [Hf | Hf]; cbn [andb].
  - destruct (Z.leb_spec (Config.maxConsecutiveLosses (Config.guardrails cfg))
                (Persistence.consecutiveLosses memory)) as [Hl | Hl];
      [intros H; discriminate H |].
    destruct (JS.lt _ _); [intros H; discriminate H |].
    intros _. split; [exact Hl | reflexivity].
  - destruct (if String.eqb (AI.action decision) "buyItem" then AI.itemId decision else None);
      [| intros H; contradiction].
    destruct (JS.array_get _ _); [| intros H; contradiction].
    destruct (JS.lt _ _); [intros H; discriminate H | intros H; contradiction].
Qed.

(** The read of the player adds its call to the trace, unless there is
    no contract or no method to call; how it completes does not depend on
    the trace. *)
Lemma getPlayerStats_trace (out : Outside) (address : string) (w : World) :
  exists reads,
    getPlayerStats out address w = ((getPlayerStats out address []).1, w ++ reads)
    /\ (reads = [] \/ reads = [player_read address])
    /\ (forall stats,
          (getPlayerStats out address []).1 = Normal stats ->
          reads = [player_read address]).
Proof.
  unfold getPlayerStats, player_read.
  destruct (Blockchain.wallets (chain out)) as [| first others].
  { exists []. rewrite app_nil_r. repeat split; [left; reflexivity | discriminate]. }
  destruct (players out) as [answer |].
  - exists [ContractCall 0 "players" (AddressArgument address)].
    unfold bind, emit, lift, ret, throw. cbn [app].
    destruct (answer address) as [[pData |] | e]; cbn [fst];
      (split; [reflexivity |]; split; [right; reflexivity | intros; reflexivity]).
  - exists []. rewrite app_nil_r. repeat split; [left; reflexivity | discriminate].
Qed.

Lemma getPlayerStats_completion (out : Outside) (address : string) (w : World) :
  (getPlayerStats out address w).1 = (getPlayerStats out address []).1.
Proof.
  destruct (getPlayerStats_trace out address w) as (reads & Hrun & _). rewrite Hrun.
  reflexivity.
Qed.

Section Turn.

Variable cfg : Config.t.
Variable buildEnhancedPrompt :
  Ledger.PlayerStats -> Persistence.GameMemory -> Personality.WalletPersonality ->
  GameLogic.BattlePrediction -> list GameLogic.ItemROIAnalysis -> string.
Variable out : Outside.
Variable personalities : list Personality.WalletPersonality.
Variable personality : Personality.WalletPersonality.

Let address : string := Personality.address personality.
Let walletIndex : nat := slot (chain out) (Personality.findIndex personalities address).
Let aiMaxRetries : nat := Config.aiMaxRetries (Config.aiSettings cfg).
Let maxRetries : nat := Config.maxRetries (Config.behaviorSettings cfg).

Local Abbreviation executeTurn :=
  (Engine.executeTurn cfg buildEnhancedPrompt out personalities personality).
Local Abbreviation turn_effects :=
  (EngineSpec.turn_effects cfg out personalities personality).

Lemma turn_effects_nil (st : State) (w : World) : turn_effects st w [].
Proof.
  unfold EngineSpec.turn_effects, posts, calls. cbn.
  split; [lia |]. split; [lia |]. split; [reflexivity |]. split; [constructor |].
  intros i argument [].
Qed.

(** The trace of a turn: the read of the player, then the rest. *)
Lemma executeTurn_trace (st : State) (w : World) :
  exists reads rest,
    (executeTurn st w).2 = w ++ reads ++ rest
    /\ (reads = [] \/ reads = [player_read address])
    /\ turn_effects st w rest.
Proof.
  unfold Engine.executeTurn. fold address. fold walletIndex.
  destruct (negb (Config.simulationMode cfg) && Blockchain.shouldWait _).
  { exists [], []. rewrite !app_nil_r.
    split; [reflexivity |]. split; [left; reflexivity | apply turn_effects_nil]. }
  destruct (getPlayerStats_trace out address w) as (reads & Hread & Hshape & _).
  rewrite Hread.
  assert (Hquiet : exists reads' rest,
            w ++ reads = w ++ reads' ++ rest
            /\ (reads' = [] \/ reads' = [player_read address])
            /\ turn_effects st w rest).
  { exists reads, []. rewrite app_nil_r.
    split; [reflexivity |]. split; [exact Hshape | apply turn_effects_nil]. }
  assert (Hafter : forall rest,
            turn_effects st w rest ->
            exists reads' rest',
              (w ++ reads) ++ rest = w ++ reads' ++ rest'
              /\ (reads' = [] \/ reads' = [player_read address])
              /\ turn_effects st w rest').
  { intros rest Hrest. exists reads, rest. rewrite app_assoc.
    split; [reflexivity |]. split; [exact Hshape | exact Hrest]. }
  destruct ((getPlayerStats out address []).1) as [stats | e] eqn:Hstats; [| exact Hquiet].
  assert (Hstats' : (getPlayerStats out address w).1 = Normal stats).
  { rewrite getPlayerStats_completion. exact Hstats. }
  set (w1 := w ++ reads) in *.
  destruct (recall st address) as [h memory] eqn:Hrecall.
  destruct (Ledger.exists_ stats) eqn:Hexists; cbn [negb].
  - destruct (Strategy.getStrategicAnalysis cfg buildEnhancedPrompt stats memory personality)
      as [prompt | e]; [| exact Hquiet].
    destruct (AIMore.getDecision_effects cfg (oracle out) prompt w1)
      as (d & devs & Hd & Hposts & Hcalls & _).
    rewrite Hd.
    set (v := Core.validateAIDecision cfg d stats memory).
    assert (Hdecided : turn_effects st w devs).
    { unfold EngineSpec.turn_effects. fold address walletIndex. rewrite Hcalls.
      split; [exact Hposts |]. split; [lia |]. split; [reflexivity |].
      split; [apply no_call_from_wallet, Hcalls |].
      intros i argument Hin. exfalso. exact (no_call_not_in _ _ _ _ Hcalls Hin). }
    destruct (String.eqb (AI.action v) "wait"); [exact (Hafter devs Hdecided) |].
    destruct (BlockchainMore.executeTransaction_effects cfg (chain out) (AI.action v)
                walletIndex
                {| Blockchain.playerName := None; Blockchain.itemId := AI.itemId v |}
                (w1 ++ devs))
      as (tevs & Htrace & Hall & Hsent & Hnone).
    assert (Hacted : turn_effects st w (devs ++ tevs)).
    { unfold EngineSpec.turn_effects. fold address walletIndex.
      rewrite AIMore.posts_app, BlockchainMore.calls_app, Hcalls,
        (executor_event_no_post _ _ _ Hall).
      split; [unfold aiMaxRetries; lia |]. split; [exact Hsent |].
      split; [intros Hsim; apply Hnone; right; exact Hsim |].
      split.
      - apply Forall_app. split;
          [apply no_call_from_wallet, Hcalls | exact (executor_event_from_wallet _ _ _ Hall)].
      - intros i argument Hin. apply in_app_or in Hin as [Hin | Hin];
          [exfalso; exact (no_call_not_in _ _ _ _ Hcalls Hin) |].
        pose proof (executor_event_method _ _ _ _ _ _ Hall Hin) as Hfight.
        exists stats. rewrite Hrecall.
        split; [exact Hstats' |]. split; [exact Hexists |].
        apply (validated_fight cfg d stats memory). symmetry. exact Hfight. }
    destruct (Hafter _ Hacted) as (reads' & rest' & Hsplit & Hshape' & Heffects).
    rewrite app_assoc in Hsplit.
    destruct (Blockchain.executeTransaction cfg (chain out) (AI.action v) walletIndex _ _)
      as [[receipt | e] w2]; cbn [snd] in Htrace; subst w2.
    + destruct (Config.simulationMode cfg);
        [destruct (Persistence.updateMemory h memory _) |];
        (exists reads', rest'; split; [exact Hsplit | split; assumption]).
    + exists reads', rest'. split; [exact Hsplit | split; assumption].
  - destruct (BlockchainMore.executeTransaction_effects cfg (chain out) "createPlayer"
                walletIndex
                {| Blockchain.playerName :=
                     Some (Personality.name (Personality.profile personality));
                   Blockchain.itemId := None |} w1)
      as (tevs & Htrace & Hall & Hsent & Hnone).
    assert (Hcreated : turn_effects st w tevs).
    { unfold EngineSpec.turn_effects. fold address walletIndex.
      rewrite (executor_event_no_post _ _ _ Hall).
      split; [lia |]. split; [exact Hsent |].
      split; [intros Hsim; apply Hnone; right; exact Hsim |].
      split; [exact (executor_event_from_wallet _ _ _ Hall) |].
      intros i argument Hin.
      pose proof (executor_event_method _ _ _ _ _ _ Hall Hin) as Hfight.
      discriminate Hfight. }
    destruct (Hafter _ Hcreated) as (reads' & rest' & Hsplit & Hshape' & Heffects).
    destruct (Blockchain.executeTransaction cfg (chain out) "createPlayer" walletIndex _ _)
      as [[receipt | e] w2]; cbn [snd] in Htrace; subst w2;
      (exists reads', rest'; split; [exact Hsplit | split; assumption]).
Qed.

(** X25: what a turn may do to the outside.  Whatever the mode, the state
    and the answers of the ledger and of the decision service, a turn only
    adds events to the trace: first, at most once, the read of the player
    through the contract of the first wallet; then at most the configured
    number of requests to the decision service and at most the configured
    number of contract calls, all from the wallet found for the
    personality.  In simulation mode the read of the player is the only
    contract call. *)
Theorem executeTurn_effects_bounded (st : State) (w : World) :
  exists reads rest,
    (executeTurn st w).2 = w ++ reads ++ rest
    /\ (reads = [] \/ reads = [player_read address])
    /\ (posts rest <= aiMaxRetries)%nat
    /\ (calls rest <= maxRetries)%nat
    /\ (Config.simulationMode cfg = true -> calls rest = 0%nat)
    /\ Forall (from_wallet walletIndex) rest.
Proof.
  destruct (executeTurn_trace st w)
    as (reads & rest & Htrace & Hreads & Hposts & Hcalls & Hsim & Hfrom & _).
  exists reads, rest. repeat split; assumption.
Qed.

(** X26: the guardrails on fighting hold end to end.  If a turn calls
    [fightMonster] on the contract, then the player was read from the
    ledger and exists, the memory the engine holds for the wallet (the
    zero-state when it holds none) records fewer consecutive losses than
    the configured maximum, and the gold read is not below the configured
    minimum; whatever the decision service answered. *)
Theorem executeTurn_fights_within_guardrails (st : State) (w evs : World) i argument :
  (executeTurn st w).2 = w ++ evs ->
  In (ContractCall i "fightMonster" argument) evs ->
  exists stats,
    (getPlayerStats out address w).1 = Normal stats
    /\ Ledger.exists_ stats = true
    /\ fit_to_fight cfg stats (recall st address).2.
Proof.
  intros Htrace Hin.
  destruct (executeTurn_trace st w)
    as (reads & rest & Htrace' & Hreads & _ & _ & _ & _ & Hfight).
  rewrite Htrace in Htrace'. apply app_inv_head in Htrace'. subst evs.
  apply in_app_or in Hin as [Hin | Hin]; [| exact (Hfight i argument Hin)].
  exfalso. destruct Hreads as [-> | ->]; [exact Hin |].
  destruct Hin as [Hin | []]. discriminate Hin.
Qed.

(** X27: in live mode a turn records nothing.  Whatever happens in the
    turn (skipped, failed, player created, decision executed or not), the
    memories the engine holds are the same after it as before: in live
    mode no outcome ever reaches them. *)
Theorem executeTurn_live_keeps_memories (st : State) (w : World) :
  Config.simulationMode cfg = false ->
  memories (executeTurn st w).1.2 = memories st.
Proof.
  intros Hlive. unfold Engine.executeTurn. rewrite Hlive.
  repeat match goal with
         | |- context [match ?x with _ => _ end] => destruct x eqn:?
         end; reflexivity.
Qed.

(** X28: a player that does not exist is created, and nothing else.  When
    the turn is not skipped and the ledger reports that the player does not
    exist, the turn reads the player, runs the executor for [createPlayer]
    and ends: the decision service is not consulted, after the read the
    only contract method called is [createPlayer], from the wallet found
    for the personality, and no memory is recorded, in either mode. *)
Theorem executeTurn_creates_missing_player (st : State) (w : World) stats :
  Config.simulationMode cfg = true \/ Blockchain.shouldWait (gasCheck cfg out) = false ->
  (getPlayerStats out address w).1 = Normal stats ->
  Ledger.exists_ stats = false ->
  exists evs,
    (executeTurn st w).2 = w ++ player_read address :: evs
    /\ posts evs = 0%nat
    /\ Forall (executor_event walletIndex "createPlayer") evs
    /\ memories (executeTurn st w).1.2 = memories st.
Proof.
  intros Hgo Hstats Hmissing. unfold Engine.executeTurn. fold address. fold walletIndex.
  assert (Hnotskipped :
            negb (Config.simulationMode cfg) && Blockchain.shouldWait (gasCheck cfg out)
            = false).
  { destruct Hgo as [-> | ->]; [reflexivity | apply andb_false_r]. }
  rewrite getPlayerStats_completion in Hstats.
  destruct (getPlayerStats_trace out address w) as (reads & Hread & _ & Hcalled).
  rewrite Hnotskipped, Hread, Hstats, (Hcalled stats Hstats), Hmissing. cbn [negb].
  destruct (recall st address) as [h memory].
  destruct (BlockchainMore.executeTransaction_effects cfg (chain out) "createPlayer"
              walletIndex
              {| Blockchain.playerName :=
                   Some (Personality.name (Personality.profile personality));
                 Blockchain.itemId := None |} (w ++ [player_read address]))
    as (tevs & Htrace & Hall & _ & _).
  destruct (Blockchain.executeTransaction cfg (chain out) "createPlayer" walletIndex _ _)
    as [[receipt | e] w2]; cbn [snd] in Htrace; subst w2;
    (exists tevs; rewrite <- app_assoc; repeat split;
     [exact (executor_event_no_post _ _ _ Hall) | exact Hall]).
Qed.

Lemma executeTransaction_simulation action options (w : World) :
  Config.simulationMode cfg = true ->
  exists evs,
    Blockchain.executeTransaction cfg (chain out) action walletIndex options w
    = (Normal None, w ++ evs).
Proof.
  intros Hsim. unfold Blockchain.executeTransaction, bind at 1. rewrite Hsim.
  destruct (Config.maxRetries (Config.behaviorSettings cfg)) as [| n].
  - exists []. rewrite app_nil_r. reflexivity.
  - exists [Sleep 500]. cbn [ret Blockchain.attempts].
    unfold bind at 1, try_catch, Blockchain.try_block. rewrite Hsim. reflexivity.
Qed.

(** The decision [getDecision] returns does not depend on the trace it
    starts from. *)
Lemma getDecision_completion prompt (w w' : World) :
  (AI.getDecision cfg (oracle out) prompt w').1 = (AI.getDecision cfg (oracle out) prompt w).1.
Proof. rewrite !AIMore.getDecision_trace. reflexivity. Qed.

(** The memory a turn works on has a live history that no other wallet
    shares, and taking it keeps the histories separate. *)
Lemma recall_separate (st : State) :
  separate st ->
  separate {| heap := (recall st address).1; memories := memories st |}
  /\ is_Some ((recall st address).1 !! Persistence.recentActions (recall st address).2)
  /\ (forall b mb,
        b <> address -> memories st !! b = Some mb ->
        Persistence.recentActions mb <> Persistence.recentActions (recall st address).2).
Proof.
  intros [Hlive Hapart]. unfold recall.
  destruct (memories st !! address) as [memory |] eqn:Hmem; cbn [fst snd].
  - split; [destruct st; split; assumption |]. split; [exact (Hlive _ _ Hmem) |].
    intros b mb Hne Hb. exact (Hapart b address mb memory Hne Hb Hmem).
  - assert (Hfresh : forall b mb, memories st !! b = Some mb ->
              Persistence.recentActions mb <> fresh (dom (heap st))).
    { intros b mb Hb Heq. apply (is_fresh (dom (heap st))). rewrite <- Heq.
      apply elem_of_dom. exact (Hlive _ _ Hb). }
    unfold Persistence.initializeMemory, Persistence.alloc. cbn [fst snd Persistence.recentActions].
    split; [split; cbn [heap memories] |].
    + intros b mb Hb. rewrite lookup_insert_ne; [exact (Hlive _ _ Hb) |].
      intros Heq. exact (Hfresh _ _ Hb (eq_sym Heq)).
    + exact Hapart.
    + split; [rewrite lookup_insert_eq; eauto |].
      intros b mb _ Hb. exact (Hfresh _ _ Hb).
Qed.

(** Recording the update of the memory a turn works on keeps the histories
    separate. *)
Lemma record_separate (st : State) outcome :
  separate st ->
  let updated := Persistence.updateMemory (recall st address).1 (recall st address).2 outcome in
  separate {| heap := updated.1; memories := <[address := updated.2]> (memories st) |}.
Proof.
  intros Hst. destruct (recall_separate st Hst) as ([Hlive _] & Hmine & Hother).
  destruct Hst as [_ Hapart]. cbn [heap memories] in Hlive.
  set (h := (recall st address).1) in *. set (memory := (recall st address).2) in *.
  cbv zeta.
  assert (Hkept : forall b mb, b <> address -> memories st !! b = Some mb ->
            (Persistence.updateMemory h memory outcome).1 !! Persistence.recentActions mb
            = h !! Persistence.recentActions mb
            /\ Persistence.recentActions mb
               <> Persistence.recentActions (Persistence.updateMemory h memory outcome).2).
  { intros b mb Hne Hb.
    apply PersistenceMore.updateMemory_other_array;
      [exact (Hother b mb Hne Hb) | exact (Hlive _ _ Hb)]. }
  split; cbn [heap memories].
  - intros b mb Hb. destruct (decide (b = address)) as [-> | Hne].
    + rewrite lookup_insert_eq in Hb. inversion Hb; subst mb.
      apply PersistenceMore.updateMemory_result_live.
    + rewrite lookup_insert_ne in Hb by (intros Heq; apply Hne; symmetry; exact Heq).
      destruct (Hkept b mb Hne Hb) as [Hsame _]. rewrite Hsame. exact (Hlive _ _ Hb).
  - intros a b ma mb Hab Ha Hb.
    destruct (decide (a = address)) as [-> | Hna];
      destruct (decide (b = address)) as [-> | Hnb].
    + contradiction.
    + rewrite lookup_insert_eq in Ha. inversion Ha; subst ma.
      rewrite lookup_insert_ne in Hb by (intros Heq; apply Hnb; symmetry; exact Heq).
      destruct (Hkept b mb Hnb Hb) as [_ Hdiff]. intros Heq. apply Hdiff. symmetry. exact Heq.
    + rewrite lookup_insert_eq in Hb. inversion Hb; subst mb.
      rewrite lookup_insert_ne in Ha by (intros Heq; apply Hna; symmetry; exact Heq).
      destruct (Hkept a ma Hna Ha) as [_ Hdiff]. exact Hdiff.
    + rewrite lookup_insert_ne in Ha by (intros Heq; apply Hna; symmetry; exact Heq).
      rewrite lookup_insert_ne in Hb by (intros Heq; apply Hnb; symmetry; exact Heq).
      exact (Hapart a b ma mb Hab Ha Hb).
Qed.

Lemma last_slice_last (l : list Persistence.ActionOutcome) o :
  list.last (Persistence.slice_last 30 (l ++ [o])) = Some o.
Proof.
  unfold Persistence.slice_last. rewrite length_app. cbn [length].
  rewrite drop_app_le by lia. apply last_snoc.
Qed.

(** X29: what a simulated turn records.  In simulation mode, when the
    histories are separate, the player exists and the analysis completes,
    the turn completes normally.  If the validated decision is to wait it
    records nothing; otherwise the memory recorded for the wallet counts
    one action more than the memory the turn worked on, its history ends
    with the simulated outcome of the action, and the memories of the
    other wallets are as they were. *)
Theorem executeTurn_simulation_records (st : State) (w : World) stats prompt d :
  Config.simulationMode cfg = true ->
  separate st ->
  (getPlayerStats out address w).1 = Normal stats ->
  Ledger.exists_ stats = true ->
  Strategy.getStrategicAnalysis cfg buildEnhancedPrompt stats (recall st address).2
    personality = Normal prompt ->
  (AI.getDecision cfg (oracle out) prompt w).1 = Normal d ->
  let memory := (recall st address).2 in
  let v := Core.validateAIDecision cfg d stats memory in
  let st' := (executeTurn st w).1.2 in
  (executeTurn st w).1.1 = Normal tt
  /\ (AI.action v = "wait" -> memories st' = memories st)
  /\ (AI.action v <> "wait" ->
      exists m',
        memories st' = <[address := m']> (memories st)
        /\ Persistence.totalActions m' = Persistence.totalActions memory + 1
        /\ list.last (Persistence.deref (heap st') (Persistence.recentActions m'))
           = Some (Simulation.simulateOutcome (random out) (now out) (AI.action v))).
Proof.
  intros Hsim Hst Hstats Hexists Hprompt Hd. cbv zeta.
  destruct (recall_separate st Hst) as (_ & [l Hl] & _).
  unfold Engine.executeTurn. fold address. fold walletIndex.
  rewrite getPlayerStats_completion in Hstats.
  destruct (getPlayerStats_trace out address w) as (reads & Hread & _ & _).
  rewrite Hsim, Hread, Hstats, Hexists. cbn [negb andb].
  destruct (recall st address) as [h memory]. cbn [fst snd] in *.
  rewrite Hprompt.
  rewrite <- (getDecision_completion prompt w (w ++ reads)) in Hd.
  destruct (AI.getDecision cfg (oracle out) prompt (w ++ reads)) as [[d' | e] w1];
    cbn [fst] in Hd; [| discriminate Hd].
  inversion Hd; subst d'.
  set (v := Core.validateAIDecision cfg d stats memory).
  destruct (String.eqb_spec (AI.action v) "wait") as [Hwait | Hact].
  { cbn [fst snd memories]. split; [reflexivity |].
    split; [reflexivity | intros H; contradiction]. }
  destruct (executeTransaction_simulation (AI.action v)
              {| Blockchain.playerName := None; Blockchain.itemId := AI.itemId v |} w1 Hsim)
    as [tevs Hrun].
  rewrite Hrun.
  set (outcome := Simulation.simulateOutcome (random out) (now out) (AI.action v)).
  pose proof (PersistenceMore.updateMemory_totalActions h memory outcome) as Hcount.
  pose proof (PersistenceFacts.updateMemory_recentActions h memory outcome l Hl) as Hhistory.
  destruct (Persistence.updateMemory h memory outcome) as [h2 m']. cbn [fst snd] in *.
  split; [reflexivity |]. split; [intros H; contradiction |].
  intros _. exists m'. split; [reflexivity |]. split; [exact Hcount |].
  cbn [fst snd heap]. unfold Persistence.deref. rewrite Hhistory. apply last_slice_last.
Qed.

(** X30: histories stay separate.  If the history of every recorded
    memory is a live array and no two wallets share a history, the same
    holds after a turn, however it ends: the in-place update of the
    history of one wallet is never seen through the memory of another. *)
Theorem executeTurn_keeps_histories_separate (st : State) (w : World) :
  separate st -> separate (executeTurn st w).1.2.
Proof.
  intros Hst.
  destruct (recall_separate st Hst) as (Htaken & _ & _).
  pose proof (fun outcome => record_separate st outcome Hst) as Hrecorded.
  unfold Engine.executeTurn. fold address. fold walletIndex.
  destruct (negb (Config.simulationMode cfg) && _); [exact Hst |].
  destruct (getPlayerStats out address w) as [[stats | e] w0]; [| exact Hst].
  destruct (recall st address) as [h memory]. cbn [fst snd] in *.
  destruct (Ledger.exists_ stats); cbn [negb].
  - destruct (Strategy.getStrategicAnalysis _ _ _ _ _) as [prompt | e]; [| exact Htaken].
    destruct (AI.getDecision cfg (oracle out) prompt w0) as [[d | e] w1]; [| exact Htaken].
    destruct (String.eqb _ "wait"); [exact Htaken |].
    destruct (Blockchain.executeTransaction _ _ _ _ _ _) as [[receipt | e] w2];
      [| exact Htaken].
    destruct (Config.simulationMode cfg); [| exact Htaken].
    specialize (Hrecorded (Simulation.simulateOutcome (random out) (now out)
                             (AI.action (Core.validateAIDecision cfg d stats memory)))).
    cbv zeta in Hrecorded.
    destruct (Persistence.updateMemory h memory _) as [h2 m']. exact Hrecorded.
  - destruct (Blockchain.executeTransaction _ _ _ _ _ _) as [[receipt | e] w2];
      exact Htaken.
Qed.

End Turn.

Lemma executeTurn_fights_within_guardrails_witness :
  exists stats,
    (getPlayerStats (arena (statsOf "100" "12" "9")) (Personality.address alex) []).1
    = Normal stats
    /\ Ledger.exists_ stats = true
    /\ fit_to_fight (Config.CONFIG false) stats
         (recall freshState (Personality.address alex)).2.
Proof.
  apply (executeTurn_fights_within_guardrails (Config.CONFIG false) promptOf
           (arena (statsOf "100" "12" "9")) [alex] alex freshState []
           [player_read walletAddress; HttpPost "You are Alex";
            ContractCall 0 "fightMonster" NoArgument]
           0%nat NoArgument).
  - vm_compute. reflexivity.
  - right. right. left. reflexivity.
Defined.

Lemma executeTurn_live_keeps_memories_witness :
  memories (Engine.executeTurn (Config.CONFIG false) promptOf
              (arena (statsOf "100" "12" "9")) [alex] alex freshState []).1.2
  = memories freshState.
Proof.
  apply (executeTurn_live_keeps_memories (Config.CONFIG false) promptOf
           (arena (statsOf "100" "12" "9")) [alex] alex freshState []).
  reflexivity.
Defined.

Lemma executeTurn_creates_missing_player_witness :
  exists evs,
    (Engine.executeTurn (Config.CONFIG false) promptOf (arena unborn) [alex] alex
       freshState []).2 = [] ++ player_read (Personality.address alex) :: evs
    /\ posts evs = 0%nat
    /\ Forall (executor_event
                 (slot (chain (arena unborn))
                    (Personality.findIndex [alex] (Personality.address alex)))
                 "createPlayer") evs
    /\ memories (Engine.executeTurn (Config.CONFIG false) promptOf (arena unborn) [alex]
                   alex freshState []).1.2
       = memories freshState.
Proof.
  apply (executeTurn_creates_missing_player (Config.CONFIG false) promptOf (arena unborn)
           [alex] alex freshState [] unborn).
  - right. vm_compute. reflexivity.
  - reflexivity.
  - reflexivity.
Defined.

Lemma freshState_separate : separate freshState.
Proof.
  split.
  - intros a m Hm. cbn in Hm. rewrite lookup_empty in Hm. discriminate Hm.
  - intros a b ma mb _ Ha. cbn in Ha. rewrite lookup_empty in Ha. discriminate Ha.
Qed.

Lemma executeTurn_simulation_records_witness :
  let cfg := Config.CONFIG true in
  let out := arena (statsOf "100" "12" "9") in
  let memory := (recall freshState (Personality.address alex)).2 in
  let v := Core.validateAIDecision cfg
             {| AI.action := "fightMonster"; AI.itemId := None; AI.reasoning := "glory" |}
             (statsOf "100" "12" "9") memory in
  let st' := (Engine.executeTurn cfg promptOf out [alex] alex freshState []).1.2 in
  (Engine.executeTurn cfg promptOf out [alex] alex freshState []).1.1 = Normal tt
  /\ (AI.action v = "wait" -> memories st' = memories freshState)
  /\ (AI.action v <> "wait" ->
      exists m',
        memories st' = <[Personality.address alex := m']> (memories freshState)
        /\ Persistence.totalActions m' = Persistence.totalActions memory + 1
        /\ list.last (Persistence.deref (heap st') (Persistence.recentActions m'))
           = Some (Simulation.simulateOutcome (random out) (now out) (AI.action v))).
Proof.
  apply (executeTurn_simulation_records (Config.CONFIG true) promptOf
           (arena (statsOf "100" "12" "9")) [alex] alex freshState []
           (statsOf "100" "12" "9") "You are Alex"
           {| AI.action := "fightMonster"; AI.itemId := None; AI.reasoning := "glory" |}).
  - reflexivity.
  - exact freshState_separate.
  - reflexivity.
  - reflexivity.
  - vm_compute. reflexivity.
  - vm_compute. reflexivity.
Defined.

Lemma executeTurn_keeps_histories_separate_witness :
  separate (Engine.executeTurn (Config.CONFIG true) promptOf
              (arena (statsOf "100" "12" "9")) [alex] alex freshState []).1.2.
Proof.
  apply (executeTurn_keeps_histories_separate (Config.CONFIG true) promptOf
           (arena (statsOf "100" "12" "9")) [alex] alex freshState []).
  exact freshState_separate.
Defined.

End EngineMore.
